(** * Static evaluation of Fairy-Stockfish: a shallow embedding of
    [src/evaluate.cpp] and of the accessors of [src/position.h].

    Integers of the engine ([int], [Value], [Square], [PieceType], ...) are
    modelled as [Z]; C++ integer division truncates towards zero and is
    written [Z.quot].  A [Bitboard] is the 64-bit word of the default
    (non-LARGEBOARDS) build, kept as a non-negative [Z] and combined with
    [Z.land], [Z.lor] and [Z.lxor].  A [Score] is the pair (middlegame,
    endgame) that [make_score] packs.

    The headers [types.h], [bitboard.h], [pawns.h], [material.h] and
    [variant.h] are not part of the sources at hand: what the evaluation
    uses of them is collected in the classes [TypesH] and [BitboardH] and in
    the records [PawnsEntry] and [MaterialEntry], and is instantiated with
    the usual 8x8 chess values only where a concrete example is computed. *)

From Stdlib Require Import ZArith Zquot List Bool Lia.
Import ListNotations.
Local Open Scope Z_scope.

(** ** Scalars *)

Inductive Color : Type := WHITE | BLACK.

Definition opp (c : Color) : Color :=
  match c with WHITE => BLACK | BLACK => WHITE end.

Definition Color_eqb (a b : Color) : bool :=
  match a, b with
  | WHITE, WHITE | BLACK, BLACK => true
  | _, _ => false
  end.

Definition Value := Z.
Definition Square := Z.
Definition Rank := Z.
Definition File := Z.
Definition Direction := Z.
Definition PieceType := Z.
Definition Bitboard := Z.

(** The first entries of [enum PieceType]; [ALL_PIECES] shares index 0 with
    [NO_PIECE_TYPE].  The indices are the ones [KingAttackWeights] and
    [MobilityBonus[Pt - 2]] rely on. *)
Definition NO_PIECE_TYPE : PieceType := 0.
Definition ALL_PIECES : PieceType := 0.
Definition PAWN : PieceType := 1.
Definition KNIGHT : PieceType := 2.
Definition BISHOP : PieceType := 3.
Definition ROOK : PieceType := 4.
Definition QUEEN : PieceType := 5.

(** A piece is a colour and a type ([make_piece]); [None] is [NO_PIECE]. *)
Definition Piece := option (Color * PieceType).
Definition make_piece (c : Color) (pt : PieceType) : Piece := Some (c, pt).
Definition NO_PIECE : Piece := None.

Definition type_of (pc : Piece) : PieceType :=
  match pc with Some (_, pt) => pt | None => NO_PIECE_TYPE end.

Definition Piece_eqb (a b : Piece) : bool :=
  match a, b with
  | Some (c1, p1), Some (c2, p2) => Color_eqb c1 c2 && (p1 =? p2)
  | None, None => true
  | _, _ => false
  end.

(** Arrays indexed by a colour. *)
Definition upd {A : Type} (f : Color -> A) (c : Color) (v : A) : Color -> A :=
  fun c' => if Color_eqb c' c then v else f c'.

(** Arrays indexed by a piece type. *)
Definition updT {A : Type} (f : PieceType -> A) (pt : PieceType) (v : A)
  : PieceType -> A :=
  fun pt' => if pt' =? pt then v else f pt'.

(** ** Tapered scores *)

Record Score : Type := make_score { mg_value : Z; eg_value : Z }.

Definition SCORE_ZERO : Score := make_score 0 0.

Definition score_add (a b : Score) : Score :=
  make_score (mg_value a + mg_value b) (eg_value a + eg_value b).
Definition score_sub (a b : Score) : Score :=
  make_score (mg_value a - mg_value b) (eg_value a - eg_value b).
Definition score_neg (a : Score) : Score :=
  make_score (- mg_value a) (- eg_value a).
Definition score_mul (a : Score) (i : Z) : Score :=
  make_score (mg_value a * i) (eg_value a * i).
(** [operator/(Score, int)] divides both halves, truncating. *)
Definition score_div (a : Score) (i : Z) : Score :=
  make_score (Z.quot (mg_value a) i) (Z.quot (eg_value a) i).

Declare Scope score_scope.
Delimit Scope score_scope with S.
Bind Scope score_scope with Score.
Infix "+" := score_add : score_scope.
Infix "-" := score_sub : score_scope.
Infix "*" := score_mul : score_scope.
Infix "/" := score_div : score_scope.

(** ** Bitboards *)

Definition AllSquares : Bitboard := Z.ones 64.

(** [~b] on a 64-bit word. *)
Definition bb_not (b : Bitboard) : Bitboard := Z.land (Z.lnot b) AllSquares.

Fixpoint pos_popcount (p : positive) : Z :=
  match p with
  | xH => 1
  | xO q => pos_popcount q
  | xI q => 1 + pos_popcount q
  end.

Definition popcount (b : Bitboard) : Z :=
  match b with Zpos p => pos_popcount p | _ => 0 end.

(** A bitboard in a condition: true when some bit is set. *)
Definition nonzero (b : Z) : bool := negb (b =? 0).

Definition more_than_one (b : Bitboard) : bool := 1 <? popcount b.

Definition nth_score (l : list Score) (i : Z) : Score :=
  nth (Z.to_nat i) l SCORE_ZERO.
Definition nth_int (l : list Z) (i : Z) : Z :=
  nth (Z.to_nat i) l 0.

(** ** What the evaluation uses of the absent headers *)

(** [types.h] and [evaluate.h]: enumerators and constants. *)
Class TypesH : Type := {
  SHOGI_PAWN : PieceType;
  KING : PieceType;
  PieceValueMg : PieceType -> Value;
  PieceValueEg : PieceType -> Value;
  KnightValueMg : Value;
  BishopValueMg : Value;
  RookValueMg : Value;
  QueenValueMg : Value;
  QueenValueEg : Value;
  VALUE_MATE : Value;
  VALUE_NONE : Value;
  PHASE_MIDGAME : Z;
  SCALE_FACTOR_NORMAL : Z;
  Tempo : Value;
  convert_mate_value : Value -> Z -> Value;
  SQ_NONE : Square;
  NORTH : Direction;
  SOUTH : Direction;
  EAST : Direction;
  WEST : Direction;
  FILE_A : File;
  FILE_B : File;
  FILE_E : File;
  FILE_H : File;
  RANK_1 : Rank;
  RANK_2 : Rank;
  RANK_3 : Rank;
  RANK_5 : Rank;
  RANK_7 : Rank;
  file_of : Square -> File;
  rank_of : Square -> Rank;
  relative_rank : Color -> Rank -> Rank -> Rank
}.

(** [bitboard.h]: masks, shifts, distances and attack generation. *)
Class BitboardH : Type := {
  SquareBB : Square -> Bitboard;
  shift : Direction -> Bitboard -> Bitboard;
  rank_bb : Rank -> Bitboard;
  file_bb : File -> Bitboard;
  adjacent_files_bb : File -> Bitboard;
  forward_ranks_bb : Color -> Rank -> Bitboard;
  forward_file_bb : Color -> Square -> Bitboard;
  passed_pawn_mask : Color -> Square -> Bitboard;
  board_size_bb : File -> Rank -> Bitboard;
  FileABB : Bitboard;
  FileBBB : Bitboard;
  FileCBB : Bitboard;
  FileDBB : Bitboard;
  FileEBB : Bitboard;
  FileFBB : Bitboard;
  FileGBB : Bitboard;
  FileHBB : Bitboard;
  opposite_colors : Square -> Square -> bool;
  LineBB : Square -> Square -> Bitboard;
  distance : Square -> Square -> Z;
  distance_File : Square -> Square -> Z;
  distance_Rank : Square -> Square -> Z;
  (** [attacks_bb<Pt>(s, occupied)] of the sliders *)
  slider_attacks_bb : PieceType -> Square -> Bitboard -> Bitboard;
  (** [attacks_bb(c, pt, s, occupied)] and [moves_bb(c, pt, s, occupied)] *)
  attacks_bb : Color -> PieceType -> Square -> Bitboard -> Bitboard;
  moves_bb : Color -> PieceType -> Square -> Bitboard -> Bitboard
}.

(** [variant.h]: the rule flags of a variant that the evaluation queries. *)
Record Variant : Type := {
  maxRank : Rank;
  maxFile : File;
  pieceTypes : list PieceType;
  promotionPieceTypes : list PieceType;
  checking : bool;
  mustCapture : bool;
  pieceDrops : bool;
  capturesToHand : bool;
  shogiDoubledPawn : bool;
  extinctionValue : Value;
  maxCheckCount : Z;
  connectN : Z;
  dropRegion : Color -> PieceType -> Bitboard
}.

(** [pawns.h]: the entry of the pawn hash table. *)
Record PawnsEntry : Type := {
  pawn_score : Color -> Score;
  pawn_attacks : Color -> Bitboard;
  passed_pawns : Color -> Bitboard;
  king_safety : Color -> Square -> Score;
  pawn_asymmetry : Z;
  open_files : Z
}.

(** [material.h]: the entry of the material hash table. *)
Record MaterialEntry : Type := {
  specialized_eval : option Value;
  imbalance : Score;
  game_phase : Z;
  me_scale_factor : Color -> Z
}.

(** ** The position ([position.h]) *)

Record StateInfo : Type := {
  nonPawnMaterial : Color -> Value;
  checksGiven : Color -> Z;
  psq : Score;
  blockersForKing : Color -> Bitboard
}.

Record Position : Type := {
  board : Square -> Piece;
  byTypeBB : PieceType -> Bitboard;
  byColorBB : Color -> Bitboard;
  pieceCount : Color -> PieceType -> Z;
  pieceList : Color -> PieceType -> list Square;
  pieceCountInHand : Color -> PieceType -> Z;
  sideToMove : Color;
  (** [thisThread->contempt] *)
  contempt : Score;
  st : StateInfo;
  var : Variant
}.

Section Accessors.
Context {TH : TypesH} {BH : BitboardH}.
Variable pos : Position.

Definition max_rank : Rank := maxRank (var pos).
Definition max_file : File := maxFile (var pos).
Definition board_bb : Bitboard := board_size_bb (maxFile (var pos)) (maxRank (var pos)).
Definition piece_types : list PieceType := pieceTypes (var pos).
Definition promotion_piece_types : list PieceType := promotionPieceTypes (var pos).
Definition checking_permitted : bool := checking (var pos).
Definition must_capture : bool := mustCapture (var pos).
Definition piece_drops : bool := pieceDrops (var pos).
Definition captures_to_hand : bool := capturesToHand (var pos).
Definition shogi_doubled_pawn : bool := shogiDoubledPawn (var pos).
Definition extinction_value : Value := convert_mate_value (extinctionValue (var pos)) 0.
Definition max_check_count : Z := maxCheckCount (var pos).
Definition connect_n : Z := connectN (var pos).
Definition checks_given (c : Color) : Z := checksGiven (st pos) c.
(** [drop_region(c, pt)] as [evaluate.cpp] calls it. *)
Definition drop_region (c : Color) (pt : PieceType) : Bitboard := dropRegion (var pos) c pt.
Definition count_in_hand (c : Color) (pt : PieceType) : Z := pieceCountInHand pos c pt.

Definition side_to_move : Color := sideToMove pos.
Definition empty (s : Square) : bool := Piece_eqb (board pos s) NO_PIECE.
Definition piece_on (s : Square) : Piece := board pos s.

Definition pieces : Bitboard := byTypeBB pos ALL_PIECES.
Definition pieces_pt (pt : PieceType) : Bitboard := byTypeBB pos pt.
Definition pieces_pt2 (pt1 pt2 : PieceType) : Bitboard :=
  Z.lor (byTypeBB pos pt1) (byTypeBB pos pt2).
Definition pieces_c (c : Color) : Bitboard := byColorBB pos c.
Definition pieces_c_pt (c : Color) (pt : PieceType) : Bitboard :=
  Z.land (byColorBB pos c) (byTypeBB pos pt).
Definition pieces_c_pt2 (c : Color) (pt1 pt2 : PieceType) : Bitboard :=
  Z.land (byColorBB pos c) (Z.lor (byTypeBB pos pt1) (byTypeBB pos pt2)).

Definition count (c : Color) (pt : PieceType) : Z := pieceCount pos c pt.
Definition count_both (pt : PieceType) : Z :=
  pieceCount pos WHITE pt + pieceCount pos BLACK pt.
Definition squares (c : Color) (pt : PieceType) : list Square := pieceList pos c pt.
(** [square<Pt>(c)] is [pieceList[make_piece(c, Pt)][0]]; the array ends
    with the terminator [SQ_NONE], which an empty list leaves at index 0. *)
Definition square (c : Color) (pt : PieceType) : Square :=
  hd SQ_NONE (pieceList pos c pt).

Definition attacks_from (c : Color) (pt : PieceType) (s : Square) : Bitboard :=
  attacks_bb c pt s (byTypeBB pos ALL_PIECES).
Definition moves_from (c : Color) (pt : PieceType) (s : Square) : Bitboard :=
  moves_bb c pt s (byTypeBB pos ALL_PIECES).

Definition blockers_for_king (c : Color) : Bitboard := blockersForKing (st pos) c.

Definition pawn_passed (c : Color) (s : Square) : bool :=
  negb (nonzero (Z.land (pieces_c_pt (opp c) PAWN) (passed_pawn_mask c s))).

Definition opposite_bishops : bool :=
  (pieceCount pos WHITE BISHOP =? 1) && (pieceCount pos BLACK BISHOP =? 1)
  && opposite_colors (square WHITE BISHOP) (square BLACK BISHOP).

Definition psq_score : Score := psq (st pos).
Definition non_pawn_material_c (c : Color) : Value := nonPawnMaterial (st pos) c.
Definition non_pawn_material : Value :=
  nonPawnMaterial (st pos) WHITE + nonPawnMaterial (st pos) BLACK.

End Accessors.

(** ** Constants of [evaluate.cpp] *)

Section Constants.
Context {BH : BitboardH}.
Local Notation "'S(' a , b ')'" := (make_score a b) (at level 0, a at level 200, b at level 200).

Definition QueenSide : Bitboard := Z.lor (Z.lor (Z.lor FileABB FileBBB) FileCBB) FileDBB.
Definition CenterFiles : Bitboard := Z.lor (Z.lor (Z.lor FileCBB FileDBB) FileEBB) FileFBB.
Definition KingSide : Bitboard := Z.lor (Z.lor (Z.lor FileEBB FileFBB) FileGBB) FileHBB.

Definition KingFlank (f : File) : Bitboard :=
  nth (Z.to_nat f)
      [QueenSide; QueenSide; QueenSide; CenterFiles; CenterFiles; KingSide; KingSide; KingSide]
      0.

Definition KingAttackWeights : list Z := [0; 0; 77; 55; 44; 10].

Definition QueenSafeCheck : Z := 780.
Definition RookSafeCheck : Z := 880.
Definition BishopSafeCheck : Z := 435.
Definition KnightSafeCheck : Z := 790.
Definition OtherSafeCheck : Z := 600.

Definition MobilityBonus : list (list Score) :=
  [ [ S(-75,-76); S(-57,-54); S( -9,-28); S( -2,-10); S(  6,  5); S( 14, 12);
      S( 22, 26); S( 29, 29); S( 36, 29) ];
    [ S(-48,-59); S(-20,-23); S( 16, -3); S( 26, 13); S( 38, 24); S( 51, 42);
      S( 55, 54); S( 63, 57); S( 63, 65); S( 68, 73); S( 81, 78); S( 81, 86);
      S( 91, 88); S( 98, 97) ];
    [ S(-58,-76); S(-27,-18); S(-15, 28); S(-10, 55); S( -5, 69); S( -2, 82);
      S(  9,112); S( 16,118); S( 30,132); S( 29,142); S( 32,155); S( 38,165);
      S( 46,166); S( 48,169); S( 58,171) ];
    [ S(-39,-36); S(-21,-15); S(  3,  8); S(  3, 18); S( 14, 34); S( 22, 54);
      S( 28, 61); S( 41, 73); S( 43, 79); S( 48, 92); S( 56, 94); S( 60,104);
      S( 60,113); S( 66,120); S( 67,123); S( 70,126); S( 71,133); S( 73,136);
      S( 79,140); S( 88,143); S( 88,148); S( 99,166); S(102,170); S(102,175);
      S(106,184); S(109,191); S(113,206); S(116,212) ] ].
Definition MaxMobility : Score := S(300, 300).
Definition DropMobility : Score := S(10, 10).

Definition PassedRank : list Score :=
  [ S(0, 0); S(5, 7); S(5, 13); S(18, 23); S(74, 58); S(164, 166); S(268, 243) ].
Definition PassedFile : list Score :=
  [ S( 15,  7); S(-5, 14); S( 1, -5); S(-22,-11);
    S(-22,-11); S( 1, -5); S(-5, 14); S( 15,  7) ].
Definition PassedDanger : list Z := [ 0; 0; 0; 3; 6; 12; 21 ].

Definition CloseEnemies : Score := S(  7,  0).
Definition HinderPassedPawn : Score := S(  8,  1).
Definition PawnlessFlank : Score := S( 20, 80).

End Constants.

(** ** The working tables of [class Evaluation] *)

(** [kingAttackersWeight] and [kingAttacksCount] are written by
    [initialize] on one branch only; [None] is an element that no statement
    has written yet. *)
Record Evaluation : Type := {
  mobilityArea : Color -> Bitboard;
  mobility : Color -> Score;
  attackedBy : Color -> PieceType -> Bitboard;
  attackedBy2 : Color -> Bitboard;
  kingRing : Color -> Bitboard;
  kingAttackersCount : Color -> Z;
  kingAttackersWeight : Color -> option Z;
  kingAttacksCount : Color -> option Z
}.

(** A freshly constructed object: [mobility] has an initialiser, the two
    conditionally written counters are unwritten, and the members that
    [initialize] always overwrites start from whatever [e0] holds. *)
Definition Evaluation_new (e0 : Evaluation) : Evaluation :=
  {| mobilityArea := mobilityArea e0;
     mobility := fun _ => SCORE_ZERO;
     attackedBy := attackedBy e0;
     attackedBy2 := attackedBy2 e0;
     kingRing := kingRing e0;
     kingAttackersCount := kingAttackersCount e0;
     kingAttackersWeight := fun _ => None;
     kingAttacksCount := fun _ => None |}.

Definition upd2 (f : Color -> PieceType -> Bitboard) (c : Color) (pt : PieceType)
  (v : Bitboard) : Color -> PieceType -> Bitboard :=
  upd f c (updT (f c) pt v).

(** [x += d] on a counter: an unwritten element stays unwritten. *)
Definition bump (x : option Z) (d : Z) : option Z :=
  match x with Some v => Some (v + d) | None => None end.

Definition set_mobilityArea (e : Evaluation) (v : Color -> Bitboard) : Evaluation :=
  {| mobilityArea := v; mobility := mobility e; attackedBy := attackedBy e;
     attackedBy2 := attackedBy2 e; kingRing := kingRing e;
     kingAttackersCount := kingAttackersCount e;
     kingAttackersWeight := kingAttackersWeight e;
     kingAttacksCount := kingAttacksCount e |}.

Definition set_mobility (e : Evaluation) (v : Color -> Score) : Evaluation :=
  {| mobilityArea := mobilityArea e; mobility := v; attackedBy := attackedBy e;
     attackedBy2 := attackedBy2 e; kingRing := kingRing e;
     kingAttackersCount := kingAttackersCount e;
     kingAttackersWeight := kingAttackersWeight e;
     kingAttacksCount := kingAttacksCount e |}.

Definition set_attacks (e : Evaluation) (v : Color -> PieceType -> Bitboard)
  (v2 : Color -> Bitboard) : Evaluation :=
  {| mobilityArea := mobilityArea e; mobility := mobility e; attackedBy := v;
     attackedBy2 := v2; kingRing := kingRing e;
     kingAttackersCount := kingAttackersCount e;
     kingAttackersWeight := kingAttackersWeight e;
     kingAttacksCount := kingAttacksCount e |}.

Definition set_kingRing (e : Evaluation) (v : Color -> Bitboard) : Evaluation :=
  {| mobilityArea := mobilityArea e; mobility := mobility e; attackedBy := attackedBy e;
     attackedBy2 := attackedBy2 e; kingRing := v;
     kingAttackersCount := kingAttackersCount e;
     kingAttackersWeight := kingAttackersWeight e;
     kingAttacksCount := kingAttacksCount e |}.

Definition set_counters (e : Evaluation) (n : Color -> Z) (w a : Color -> option Z)
  : Evaluation :=
  {| mobilityArea := mobilityArea e; mobility := mobility e; attackedBy := attackedBy e;
     attackedBy2 := attackedBy2 e; kingRing := kingRing e;
     kingAttackersCount := n;
     kingAttackersWeight := w;
     kingAttacksCount := a |}.

(** The piece types [lo <= pt < hi], in the order of a [for (pt = lo; pt < hi; ++pt)]. *)
Definition pt_range (lo hi : PieceType) : list PieceType :=
  map (fun k => lo + Z.of_nat k) (seq 0 (Z.to_nat (hi - lo))).

Section Eval.
Context {TH : TypesH} {BH : BitboardH}.
Variable pos : Position.
Variable pe : PawnsEntry.

(** The per-piece bonuses of [pieces()] (promotion, king protector, outposts,
    bishop, rook and queen terms, lines 353 to 442) only add to the local
    [score]; they are kept as one function of the piece, its attack set [b]
    and its mobility count. *)
Variable piece_terms : Evaluation -> Color -> PieceType -> Square -> Bitboard -> Z -> Score.

(** *** [Evaluation::initialize<Us>] *)

Definition Up (Us : Color) : Direction := match Us with WHITE => NORTH | BLACK => SOUTH end.
Definition Down (Us : Color) : Direction := match Us with WHITE => SOUTH | BLACK => NORTH end.

Definition LowRanks (Us : Color) : Bitboard :=
  Z.lor (rank_bb (relative_rank Us RANK_2 (max_rank pos)))
        (rank_bb (relative_rank Us RANK_3 (max_rank pos))).

(** Our pawns that are blocked or on the low ranks (the local [b]). *)
Definition low_or_blocked_pawns (Us : Color) : Bitboard :=
  Z.land (pieces_c_pt pos Us PAWN) (Z.lor (shift (Down Us) (pieces pos)) (LowRanks Us)).

(** The condition under which the king safety tables are initialised. *)
Definition king_safety_used (Us : Color) : bool :=
  (negb (count pos Us KING =? 0)
   && (RookValueMg + KnightValueMg <=? non_pawn_material_c pos (opp Us)))
  || captures_to_hand pos.

Definition initialize (Us : Color) (e : Evaluation) : Evaluation :=
  let Them := opp Us in
  let b := low_or_blocked_pawns Us in
  let area :=
    if must_capture pos then AllSquares
    else bb_not (Z.lor (Z.lor (Z.lor b (pieces_c_pt2 pos Us KING QUEEN))
                              (pawn_attacks pe Them))
                       (shift (Down Us) (pieces_c_pt pos Them SHOGI_PAWN))) in
  let e := set_mobilityArea e (upd (mobilityArea e) Us area) in
  let aK := if negb (count pos Us KING =? 0)
            then attacks_from pos Us KING (square pos Us KING) else 0 in
  let aP := pawn_attacks pe Us in
  let ab := upd2 (attackedBy e) Us KING aK in
  let ab := upd2 ab Us PAWN aP in
  let ab := upd2 ab Us ALL_PIECES (Z.lor (ab Us KING) (ab Us PAWN)) in
  let e := set_attacks e ab (upd (attackedBy2 e) Us (Z.land (ab Us KING) (ab Us PAWN))) in
  if king_safety_used Us then
    let kr := attackedBy e Us KING in
    let kr := if relative_rank Us (rank_of (square pos Us KING)) (max_rank pos) =? RANK_1
              then Z.lor kr (shift (Up Us) kr) else kr in
    let kr := if file_of (square pos Us KING) =? max_file pos
              then Z.lor kr (shift WEST kr)
              else if file_of (square pos Us KING) =? FILE_A
                   then Z.lor kr (shift EAST kr) else kr in
    let kr := Z.land kr (board_bb pos) in
    let e := set_kingRing e (upd (kingRing e) Us kr) in
    set_counters e
      (upd (kingAttackersCount e) Them (popcount (Z.land kr (pawn_attacks pe Them))))
      (upd (kingAttackersWeight e) Them (Some 0))
      (upd (kingAttacksCount e) Them (Some 0))
  else
    let e := set_kingRing e (upd (kingRing e) Us 0) in
    set_counters e (upd (kingAttackersCount e) Them 0)
      (kingAttackersWeight e) (kingAttacksCount e).

(** *** [Evaluation::pieces<Us>(Pt)] *)

(** The occupancy handed to the slider lookup of a bishop or a rook. *)
Definition xray_occupancy (Us : Color) (Pt : PieceType) : Bitboard :=
  if Pt =? BISHOP then Z.lxor (pieces pos) (pieces_pt pos QUEEN)
  else Z.lxor (Z.lxor (pieces pos) (pieces_pt pos QUEEN)) (pieces_c_pt pos Us ROOK).

(** The attack set [b] of the piece of type [Pt] on [s] (lines 323 to 333). *)
Definition piece_attacks (Us : Color) (Pt : PieceType) (s : Square) : Bitboard :=
  let b :=
    if Pt =? BISHOP then slider_attacks_bb BISHOP s (xray_occupancy Us Pt)
    else if Pt =? ROOK then slider_attacks_bb ROOK s (xray_occupancy Us Pt)
    else Z.lor (Z.land (attacks_from pos Us Pt s) (pieces pos))
               (Z.land (moves_from pos Us Pt s) (bb_not (pieces pos))) in
  let b := Z.land b (board_bb pos) in
  if nonzero (Z.land (blockers_for_king pos Us) (SquareBB s))
  then Z.land b (LineBB (square pos Us KING) s)
  else b.

Definition mobility_bonus (Pt : PieceType) (mob : Z) : Score :=
  if Pt <=? QUEEN
  then nth_score (nth (Z.to_nat (Pt - 2)) MobilityBonus []) mob
  else ((MaxMobility * (mob - 1)) / (10 + mob))%S.

(** One iteration of the loop over the piece list. *)
Definition pieces_step (Us : Color) (Pt : PieceType) (acc : Score * Evaluation)
  (s : Square) : Score * Evaluation :=
  let (score, e) := acc in
  let Them := opp Us in
  let b := piece_attacks Us Pt s in
  let a2 := upd (attackedBy2 e) Us
                (Z.lor (attackedBy2 e Us) (Z.land (attackedBy e Us ALL_PIECES) b)) in
  let ab := upd2 (attackedBy e) Us Pt (Z.lor (attackedBy e Us Pt) b) in
  let ab := upd2 ab Us ALL_PIECES (Z.lor (ab Us ALL_PIECES) b) in
  let e := set_attacks e ab a2 in
  let e :=
    if nonzero (Z.land b (kingRing e Them)) then
      set_counters e
        (upd (kingAttackersCount e) Us (kingAttackersCount e Us + 1))
        (upd (kingAttackersWeight e) Us
             (bump (kingAttackersWeight e Us) (nth_int KingAttackWeights (Z.min Pt QUEEN))))
        (upd (kingAttacksCount e) Us
             (bump (kingAttacksCount e Us) (popcount (Z.land b (attackedBy e Them KING)))))
    else e in
  let mob := popcount (Z.land b (mobilityArea e Us)) in
  let e := set_mobility e (upd (mobility e) Us (mobility e Us + mobility_bonus Pt mob)%S) in
  ((score + piece_terms e Us Pt s b mob)%S, e).

Definition Evaluation_pieces (Us : Color) (Pt : PieceType) (e : Evaluation) : Score * Evaluation :=
  let e := set_attacks e (upd2 (attackedBy e) Us Pt 0) (attackedBy2 e) in
  fold_left (pieces_step Us Pt) (squares pos Us Pt) (SCORE_ZERO, e).

(** *** [Evaluation::hand<Us>(pt)] *)

Definition hand (Us : Color) (pt : PieceType) (e : Evaluation) : Score * Evaluation :=
  let Them := opp Us in
  let score := SCORE_ZERO in
  if negb (count_in_hand pos Us pt =? 0) then
    let b := Z.land (Z.land (drop_region pos Us pt) (bb_not (pieces pos)))
                    (Z.lor (bb_not (attackedBy2 e Them)) (attackedBy e Us ALL_PIECES)) in
    let e :=
      if nonzero (Z.land b (kingRing e Them)) && negb (pt =? SHOGI_PAWN) then
        set_counters e
          (upd (kingAttackersCount e) Us (kingAttackersCount e Us + count_in_hand pos Us pt))
          (upd (kingAttackersWeight e) Us
               (bump (kingAttackersWeight e Us)
                     (nth_int KingAttackWeights (Z.min pt QUEEN) * count_in_hand pos Us pt)))
          (upd (kingAttacksCount e) Us
               (bump (kingAttacksCount e Us) (popcount (Z.land b (attackedBy e Them KING)))))
      else e in
    let theirHalf :=
      Z.land (board_bb pos)
             (bb_not (forward_ranks_bb Them
                        (relative_rank Them (Z.quot (max_rank pos - 1) 2) (max_rank pos)))) in
    let e := set_mobility e
               (upd (mobility e) Us
                    (mobility e Us
                     + DropMobility
                       * popcount (Z.land (Z.land b theirHalf)
                                          (bb_not (attackedBy e Them ALL_PIECES))))%S) in
    (score, e)
  else (score, e).

End Eval.

(** *** [Evaluation::king<Us>] *)

Section King.
Context {TH : TypesH} {BH : BitboardH}.
Variable pos : Position.
Variable pe : PawnsEntry.
Variable e : Evaluation.
Variable Us : Color.

Let Them := opp Us.

(** [1 + pos.captures_to_hand() + !!pos.max_check_count()] *)
Definition attack_scale : Z :=
  1 + Z.b2z (captures_to_hand pos) + Z.b2z (negb (max_check_count pos =? 0)).

(** The condition of the main king safety evaluation (line 492). *)
Definition king_danger_guard : bool :=
  (1 - count pos Them QUEEN <? kingAttackersCount e Them) || captures_to_hand pos.

(** Attacked squares defended at most once by our queen or king. *)
Definition king_weak : Bitboard :=
  Z.land (Z.land (attackedBy e Them ALL_PIECES) (bb_not (attackedBy2 e Us)))
         (Z.lor (Z.lor (bb_not (attackedBy e Us ALL_PIECES)) (attackedBy e Us KING))
                (attackedBy e Us QUEEN)).

Definition king_safe : Bitboard :=
  Z.land (bb_not (pieces_c pos Them))
         (Z.lor (bb_not (attackedBy e Us ALL_PIECES))
                (Z.land king_weak (attackedBy2 e Them))).

Definition get_attacks (c : Color) (pt : PieceType) : Bitboard :=
  Z.lor (attackedBy e c pt)
        (if captures_to_hand pos && negb (count_in_hand pos c pt =? 0)
         then bb_not (pieces pos) else 0).

(** The body of the loop over [pos.piece_types()]: the [switch] on the piece
    type, acting on the pair ([kingDanger], [unsafeChecks]). *)
Definition check_step (ksq : Square) (acc : Z * Bitboard) (pt : PieceType) : Z * Bitboard :=
  let (kingDanger, unsafeChecks) := acc in
  let safe := king_safe in
  let occ := Z.lxor (pieces pos) (pieces_c_pt pos Us QUEEN) in
  if pt =? QUEEN then
    let b := Z.land (Z.land (Z.land (Z.land (attacks_bb Us pt ksq occ) (get_attacks Them pt)) safe)
                            (bb_not (attackedBy e Us QUEEN)))
                    (board_bb pos) in
    if nonzero b then (kingDanger + QueenSafeCheck, unsafeChecks)
    else (kingDanger, unsafeChecks)
  else if (pt =? ROOK) || (pt =? BISHOP) || (pt =? KNIGHT) then
    let b := Z.land (Z.land (attacks_bb Us pt ksq occ) (get_attacks Them pt)) (board_bb pos) in
    if nonzero (Z.land b safe)
    then (kingDanger + (if pt =? ROOK then RookSafeCheck
                        else if pt =? BISHOP then BishopSafeCheck
                        else KnightSafeCheck), unsafeChecks)
    else (kingDanger, Z.lor unsafeChecks b)
  else if pt =? PAWN then
    if captures_to_hand pos && negb (count_in_hand pos Them pt =? 0) then
      let b := Z.land (Z.land (attacks_bb Us pt ksq (pieces pos)) (bb_not (pieces pos)))
                      (board_bb pos) in
      if nonzero (Z.land b safe) then (kingDanger + OtherSafeCheck, unsafeChecks)
      else (kingDanger, Z.lor unsafeChecks b)
    else (kingDanger, unsafeChecks)
  else if (pt =? SHOGI_PAWN) || (pt =? KING) then (kingDanger, unsafeChecks)
  else
    let b := Z.land (Z.land (attacks_bb Us pt ksq (pieces pos)) (get_attacks Them pt))
                    (board_bb pos) in
    if nonzero (Z.land b safe) then (kingDanger + OtherSafeCheck, unsafeChecks)
    else (kingDanger, Z.lor unsafeChecks b).

(** [kingDanger] as it stands before the test [kingDanger > 0] (lines 494 to
    564); [weight] and [attacks] are the values read from
    [kingAttackersWeight[Them]] and [kingAttacksCount[Them]]. *)
Definition king_danger_units (ksq : Square) (score : Score) (weight attacks : Z) : Z :=
  let '(kingDanger, unsafeChecks) := fold_left (check_step ksq) (piece_types pos) (0, 0) in
  let kingDanger := if negb (max_check_count pos =? 0) then kingDanger * 2 else kingDanger in
  let unsafeChecks := Z.land unsafeChecks (mobilityArea e Them) in
  kingDanger
  + kingAttackersCount e Them * weight
  + 102 * attacks * attack_scale
  + 191 * popcount (Z.land (kingRing e Us) king_weak) * attack_scale
  + 143 * popcount (Z.lor (blockers_for_king pos Us) unsafeChecks)
  - Z.quot (848 * Z.b2z (negb (negb (count pos Them QUEEN =? 0) || captures_to_hand pos)))
           (1 + Z.b2z (negb (max_check_count pos =? 0)))
  - Z.quot (9 * mg_value score) 8
  + 40.

(** Lines 566 to 572: the danger units turned into a score. *)
Definition king_danger_penalty (score : Score) (kingDanger : Z) : Score :=
  if 0 <? kingDanger then
    let mobilityDanger := mg_value (mobility e Them - mobility e Us)%S in
    let kingDanger := Z.max 0 (kingDanger + mobilityDanger) in
    (score - make_score (Z.min (Z.quot (kingDanger * kingDanger) 4096) 3000)
                        (Z.quot kingDanger 16))%S
  else score.

(** Lines 575 to 588: pawnless flank and king tropism. *)
Definition king_tropism (ksq : Square) (score : Score) : Score :=
  let r := relative_rank Us (Z.min (Z.quot (max_rank pos - 1) 2 + 1) (max_rank pos))
                         (max_rank pos) in
  let Camp := Z.lxor AllSquares (forward_ranks_bb Us r) in
  let f := Z.max (Z.min (file_of ksq) (max_file pos - 1)) FILE_B in
  let kf := if max_file pos =? FILE_H then KingFlank f
            else Z.lor (file_bb f) (adjacent_files_bb f) in
  let score := if negb (nonzero (Z.land (pieces_pt pos PAWN) kf))
               then (score - PawnlessFlank)%S else score in
  let b1 := Z.land (Z.land (attackedBy e Them ALL_PIECES) kf) Camp in
  let b2 := Z.land (Z.land b1 (attackedBy2 e Them))
                   (bb_not (Z.lor (attackedBy e Us PAWN) (attackedBy e Us SHOGI_PAWN))) in
  (score - (CloseEnemies * (popcount b1 + popcount b2)) * attack_scale)%S.

(** Lines 590 to 592: for drop games the score no longer depends on the phase. *)
Definition king_drop_collapse (score : Score) : Score :=
  if captures_to_hand pos
  then (make_score (mg_value score) (mg_value score)
        / (1 + 2 * Z.b2z (negb (shogi_doubled_pawn pos))))%S
  else score.

Definition king_flank (ksq : Square) (score : Score) : Score :=
  king_drop_collapse (king_tropism ksq score).

(** The whole function.  The result is [None] when the danger branch reads a
    counter that no statement has written. *)
Definition king : option Score :=
  if (count pos Us KING =? 0) || negb (checking_permitted pos) then Some SCORE_ZERO
  else
    let ksq := square pos Us KING in
    let score := king_safety pe Us ksq in
    if king_danger_guard then
      match kingAttackersWeight e Them, kingAttacksCount e Them with
      | Some weight, Some attacks =>
          Some (king_flank ksq
                  (king_danger_penalty score (king_danger_units ksq score weight attacks)))
      | _, _ => None
      end
    else Some (king_flank ksq score).

(** The result of [king] when the danger branch is skipped. *)
Definition king_without_danger : Score :=
  if (count pos Us KING =? 0) || negb (checking_permitted pos) then SCORE_ZERO
  else king_flank (square pos Us KING)
                  (king_safety pe Us (square pos Us KING)).

End King.

(** *** [Evaluation::passed<Us>] *)

(** The squares of a bitboard in the order in which [pop_lsb] yields them. *)
Definition bb_squares (b : Bitboard) : list Square :=
  filter (Z.testbit b) (map Z.of_nat (seq 0 64)).

Section Passed.
Context {TH : TypesH} {BH : BitboardH}.
Variable pos : Position.
Variable pe : PawnsEntry.
Variable e : Evaluation.
Variable Us : Color.

Let Them := opp Us.

Definition king_proximity (c : Color) (s : Square) : Z :=
  if negb (count pos c KING =? 0) then Z.min (distance (square pos c KING) s) 5 else 5.

(** The bonus of the passed pawn on [s] as accumulated up to the end of the
    [if (w)] block (lines 758 to 811). *)
Definition passed_bonus (s : Square) : Score :=
  let r := relative_rank Us (rank_of s) (max_rank pos) in
  let w := nth_int PassedDanger r in
  let bonus := nth_score PassedRank r in
  if negb (w =? 0) then
    let blockSq := s + Up Us in
    let bonus :=
      if negb (extinction_value pos =? VALUE_MATE) then
        let bonus := (bonus + make_score 0 ((king_proximity Them blockSq * 5
                                             - king_proximity Us blockSq * 2) * w))%S in
        if negb (r =? RANK_7)
        then (bonus - make_score 0 (king_proximity Us (blockSq + Up Us)%Z * w))%S
        else bonus
      else bonus in
    if empty pos blockSq then
      let squaresToQueen := forward_file_bb Us s in
      let bb := Z.land (Z.land (forward_file_bb Them s) (pieces_pt2 pos ROOK QUEEN))
                       (attacks_from pos Us ROOK s) in
      let defendedSquares :=
        if negb (nonzero (Z.land (pieces_c pos Us) bb))
        then Z.land squaresToQueen (attackedBy e Us ALL_PIECES) else squaresToQueen in
      let unsafeSquares :=
        if negb (nonzero (Z.land (pieces_c pos Them) bb))
        then Z.land squaresToQueen (Z.lor (attackedBy e Them ALL_PIECES) (pieces_c pos Them))
        else squaresToQueen in
      let k := if negb (nonzero unsafeSquares) then 20
               else if negb (nonzero (Z.land unsafeSquares (SquareBB blockSq))) then 9
               else 0 in
      let k := if defendedSquares =? squaresToQueen then k + 6
               else if nonzero (Z.land defendedSquares (SquareBB blockSq)) then k + 4
               else k in
      (bonus + make_score (k * w) (k * w))%S
    else if nonzero (Z.land (pieces_c pos Us) (SquareBB blockSq))
    then (bonus + make_score (w + r * 2) (w + r * 2))%S
    else bonus
  else bonus.

(** The condition of lines 815 and 816. *)
Definition passed_scaled_down (s : Square) : bool :=
  negb (pawn_passed pos Us (s + Up Us))
  || nonzero (Z.land (pieces_pt pos PAWN) (forward_file_bb Us s)).

(** The bonus of the pawn on [s] after lines 813 to 817. *)
Definition passed_final_bonus (s : Square) : Score :=
  if passed_scaled_down s then (passed_bonus s / 2)%S else passed_bonus s.

(** One iteration of the loop over the passed pawns. *)
Definition passed_step (score : Score) (s : Square) : Score :=
  let bb := Z.land (forward_file_bb Us s)
                   (Z.lor (attackedBy e Them ALL_PIECES) (pieces_c pos Them)) in
  let score := (score - HinderPassedPawn * popcount bb)%S in
  (score + (passed_final_bonus s + nth_score PassedFile (file_of s)))%S.

(** The running maxima start from [VALUE_ZERO], which is 0. *)
Definition passed : Score :=
  let score := fold_left passed_step (bb_squares (passed_pawns pe Us)) SCORE_ZERO in
  let maxMg := fold_left (fun m pt => Z.max m (PieceValueMg pt)) (promotion_piece_types pos) 0 in
  let maxEg := fold_left (fun m pt => Z.max m (PieceValueEg pt)) (promotion_piece_types pos) 0 in
  make_score (Z.quot (mg_value score * maxMg) QueenValueMg)
             (Z.quot (eg_value score * maxEg) QueenValueEg).

End Passed.

(** *** [Evaluation::initiative], [Evaluation::scale_factor], [Eval::tempo_value] *)

Section Aggregate.
Context {TH : TypesH} {BH : BitboardH}.
Variable pos : Position.
Variable me : MaterialEntry.
Variable pe : PawnsEntry.

Definition initiative_complexity : Z :=
  let outflanking :=
    if (count pos WHITE KING =? 0) || (count pos BLACK KING =? 0) then 0
    else distance_File (square pos WHITE KING) (square pos BLACK KING)
         - distance_Rank (square pos WHITE KING) (square pos BLACK KING) in
  let pawnsOnBothFlanks :=
    nonzero (Z.land (pieces_pt pos PAWN) QueenSide)
    && nonzero (Z.land (pieces_pt pos PAWN) KingSide) in
  8 * outflanking
  + 8 * pawn_asymmetry pe
  + 12 * count_both pos PAWN
  + 16 * Z.b2z pawnsOnBothFlanks
  + 48 * Z.b2z (non_pawn_material pos =? 0)
  - 136.

(** The variants for which no initiative is computed (line 961). *)
Definition initiative_skipped : bool :=
  negb (extinction_value pos =? VALUE_NONE) || captures_to_hand pos
  || negb (connect_n pos =? 0).

Definition initiative (eg : Value) : Score :=
  if initiative_skipped then SCORE_ZERO
  else
    let v := (Z.b2z (0 <? eg) - Z.b2z (eg <? 0))
             * Z.max initiative_complexity (- Z.abs eg) in
    make_score 0 v.

(** [VALUE_DRAW] is 0. *)
Definition scale_factor (eg : Value) : Z :=
  let strongSide := if 0 <? eg then WHITE else BLACK in
  let sf := me_scale_factor me strongSide in
  if (sf =? SCALE_FACTOR_NORMAL) && negb (captures_to_hand pos) then
    if opposite_bishops pos then
      if (non_pawn_material_c pos WHITE =? BishopValueMg)
         && (non_pawn_material_c pos BLACK =? BishopValueMg)
      then 31 else 46
    else Z.min (40 + 7 * count pos strongSide PAWN) sf
  else sf.

Definition tempo_value : Value :=
  Tempo * (1 + 4 * Z.b2z (captures_to_hand pos)).

(** The terms that [value()] adds up, per colour.  [tm_pieces] and [tm_hand]
    are the sums over the piece types of the two loops. *)
Record Terms : Type := {
  tm_pieces : Color -> Score;
  tm_hand : Color -> Score;
  tm_mobility : Color -> Score;
  tm_king : Color -> Score;
  tm_threats : Color -> Score;
  tm_passed : Color -> Score;
  tm_space : Color -> Score;
  tm_variant : Color -> Score
}.

Definition diff (t : Color -> Score) : Score := (t WHITE - t BLACK)%S.

(** The score from White's point of view before the initiative correction
    (lines 1043 to 1073). *)
Definition white_score (t : Terms) : Score :=
  let score := psq_score pos in
  let score := (score + (imbalance me + contempt pos))%S in
  let score := (score + (pawn_score pe WHITE - pawn_score pe BLACK))%S in
  let score := (score + diff (tm_pieces t))%S in
  let score := (score + diff (tm_hand t))%S in
  let score := (score + diff (tm_mobility t)
                        * (1 + Z.b2z (captures_to_hand pos) + Z.b2z (must_capture pos)))%S in
  (score + ((((diff (tm_king t) + diff (tm_threats t)) + diff (tm_passed t))
             + diff (tm_space t)) + diff (tm_variant t)))%S.

(** The interpolated value [v] from White's point of view (lines 1075 to 1082). *)
Definition white_value (t : Terms) : Value :=
  let score := white_score t in
  let score := (score + initiative (eg_value score))%S in
  let sf := scale_factor (eg_value score) in
  let v := mg_value score * game_phase me
           + Z.quot (eg_value score * (PHASE_MIDGAME - game_phase me) * sf)
                    SCALE_FACTOR_NORMAL in
  Z.quot v PHASE_MIDGAME.

(** The end of [value()] when no specialized evaluation exists (lines 1093
    and 1094). *)
Definition value_of_terms (t : Terms) : Value :=
  let v := white_value t in
  (match side_to_move pos with WHITE => v | BLACK => - v end) + tempo_value.

End Aggregate.

(** *** [Evaluation::value] *)

Section Value.
Context {TH : TypesH} {BH : BitboardH}.
Variable pos : Position.
Variable me : MaterialEntry.
Variable pe : PawnsEntry.
Variable piece_terms : Evaluation -> Color -> PieceType -> Square -> Bitboard -> Z -> Score.
(** [threats<Us>()], [space<Us>()] and [variant<Us>()] read the finished
    tables and return a score; they are taken as given. *)
Variable threats space variant : Evaluation -> Color -> Score.

Definition add_to (t : Color -> Score) (w b : Score) : Color -> Score :=
  fun c => (t c + match c with WHITE => w | BLACK => b end)%S.

(** [score += pieces<WHITE>(pt) - pieces<BLACK>(pt)] *)
Definition pieces_round (acc : (Color -> Score) * Evaluation) (pt : PieceType)
  : (Color -> Score) * Evaluation :=
  let (t, e) := acc in
  let (w, e) := Evaluation_pieces pos piece_terms WHITE pt e in
  let (b, e) := Evaluation_pieces pos piece_terms BLACK pt e in
  (add_to t w b, e).

(** [score += hand<WHITE>(pt) - hand<BLACK>(pt)] *)
Definition hand_round (acc : (Color -> Score) * Evaluation) (pt : PieceType)
  : (Color -> Score) * Evaluation :=
  let (t, e) := acc in
  let (w, e) := hand pos WHITE pt e in
  let (b, e) := hand pos BLACK pt e in
  (add_to t w b, e).

(** The tables once both loops have run (lines 1054 to 1065), with the sums
    of the scores that [pieces] and [hand] returned. *)
Definition evaluation_tables (e0 : Evaluation)
  : (Color -> Score) * (Color -> Score) * Evaluation :=
  let e := initialize pos pe WHITE (Evaluation_new e0) in
  let e := initialize pos pe BLACK e in
  let (tp, e) := fold_left pieces_round (pt_range KNIGHT KING) (fun _ => SCORE_ZERO, e) in
  let (th, e) :=
    if piece_drops pos
    then fold_left hand_round (pt_range PAWN KING) (fun _ => SCORE_ZERO, e)
    else (fun _ => SCORE_ZERO, e) in
  (tp, th, e).

Definition evaluation_terms (e0 : Evaluation) : option Terms :=
  let '(tp, th, e) := evaluation_tables e0 in
  match king pos pe e WHITE, king pos pe e BLACK with
  | Some kw, Some kb =>
      Some {| tm_pieces := tp;
              tm_hand := th;
              tm_mobility := mobility e;
              tm_king := fun c => match c with WHITE => kw | BLACK => kb end;
              tm_threats := threats e;
              tm_passed := passed pos pe e;
              tm_space := space e;
              tm_variant := variant e |}
  | _, _ => None
  end.

(** [value()]: the specialized evaluation of the material entry when there
    is one, the sum of the terms otherwise; [None] when [king] read an
    unwritten counter. *)
Definition value (e0 : Evaluation) : option Value :=
  match specialized_eval me with
  | Some v => Some v
  | None =>
      match evaluation_terms e0 with
      | Some t => Some (value_of_terms pos me pe t)
      | None => None
      end
  end.

End Value.

(** ** Invariants of the tables *)

Section Invariants.
Context {TH : TypesH} {BH : BitboardH}.
Variable pos : Position.

(** What [set_state] guarantees of the non-pawn material, as far as king
    safety is concerned: a side with two queens or more has at least the
    material of a rook and a knight. *)
Definition material_consistent : Prop :=
  forall c, 2 <= count pos c QUEEN ->
            RookValueMg + KnightValueMg <= non_pawn_material_c pos c.

(** The two conditionally written counters of colour [c] hold a value. *)
Definition counters_written (e : Evaluation) (c : Color) : Prop :=
  kingAttackersWeight e c <> None /\ kingAttacksCount e c <> None.

(** The state in which [initialize<Us>] leaves the king safety tables of
    [Us]: either the counters of the attacker are written, or the king ring
    is empty and no attacker is counted. *)
Definition king_tables_inv (Us : Color) (e : Evaluation) : Prop :=
  if king_safety_used pos Us then counters_written e (opp Us)
  else kingRing e Us = 0 /\ kingAttackersCount e (opp Us) = 0.

End Invariants.

(** ** Colour mirroring, on the inputs of [value()] *)

Section Mirror.
Context {TH : TypesH} {BH : BitboardH}.

(** Modelled from the spec: [mirror_color] is not a function of the sources
    at hand ([Position::flip] is declared only).  Two evaluations are colour
    mirrors of each other when every quantity that [value()] reads for a
    colour is read for the other colour in the mirror image, the scores kept
    from White's point of view change sign, and what does not depend on
    colour is the same: the side to move, the rule flags, the game phase,
    the complexity of the initiative and the contempt of the thread that
    evaluates. *)
Record color_mirrored (p q : Position) (mp mq : MaterialEntry) (pp pq : PawnsEntry)
  (tp tq : Terms) : Prop := {
  cm_side : side_to_move q = side_to_move p;
  cm_drops : captures_to_hand q = captures_to_hand p;
  cm_capture : must_capture q = must_capture p;
  cm_contempt : contempt q = contempt p;
  cm_psq : psq_score q = score_neg (psq_score p);
  cm_imbalance : imbalance mq = score_neg (imbalance mp);
  cm_pawn_score : forall c, pawn_score pq c = pawn_score pp (opp c);
  cm_pieces : forall c, tm_pieces tq c = tm_pieces tp (opp c);
  cm_hand : forall c, tm_hand tq c = tm_hand tp (opp c);
  cm_mobility : forall c, tm_mobility tq c = tm_mobility tp (opp c);
  cm_king : forall c, tm_king tq c = tm_king tp (opp c);
  cm_threats : forall c, tm_threats tq c = tm_threats tp (opp c);
  cm_passed : forall c, tm_passed tq c = tm_passed tp (opp c);
  cm_space : forall c, tm_space tq c = tm_space tp (opp c);
  cm_variant : forall c, tm_variant tq c = tm_variant tp (opp c);
  cm_phase : game_phase mq = game_phase mp;
  cm_skipped : initiative_skipped q = initiative_skipped p;
  cm_complexity : initiative_complexity q pq = initiative_complexity p pp;
  cm_scale : forall c, me_scale_factor mq c = me_scale_factor mp (opp c);
  cm_bishops : opposite_bishops q = opposite_bishops p;
  cm_material : forall c, non_pawn_material_c q c = non_pawn_material_c p (opp c);
  cm_pawn_count : forall c, count q c PAWN = count p (opp c) PAWN
}.

End Mirror.

(** ** An instance of the headers: the 8x8 board of chess

    Squares are numbered [file + 8 * rank] from a1 = 0 to h8 = 63, bit [s]
    of a bitboard stands for square [s], and the piece types are the six of
    chess followed by the shogi pawn and the king. *)

Module Chess.

Definition file_of (s : Square) : File := Z.land s 7.
Definition rank_of (s : Square) : Rank := Z.shiftr s 3.
Definition on_board (f r : Z) : bool := (0 <=? f) && (f <? 8) && (0 <=? r) && (r <? 8).
Definition make_square (f r : Z) : Square := f + 8 * r.
Definition bit (f r : Z) : Bitboard := if on_board f r then Z.shiftl 1 (make_square f r) else 0.

Definition SquareBB (s : Square) : Bitboard :=
  if (0 <=? s) && (s <? 64) then Z.shiftl 1 s else 0.

Definition Rank1BB : Bitboard := 255.
Definition FileABB : Bitboard := 72340172838076673.
Definition rank_bb (r : Rank) : Bitboard := Z.land (Z.shiftl Rank1BB (8 * r)) AllSquares.
Definition file_bb (f : File) : Bitboard := Z.land (Z.shiftl FileABB f) AllSquares.

Definition adjacent_files_bb (f : File) : Bitboard :=
  Z.lor (if 0 <? f then file_bb (f - 1) else 0) (if f <? 7 then file_bb (f + 1) else 0).

Definition ranks_where (p : Rank -> bool) : Bitboard :=
  fold_left (fun acc r => if p r then Z.lor acc (rank_bb r) else acc)
            (map Z.of_nat (seq 0 8)) 0.

Definition forward_ranks_bb (c : Color) (r : Rank) : Bitboard :=
  match c with
  | WHITE => ranks_where (fun r' => r <? r')
  | BLACK => ranks_where (fun r' => r' <? r)
  end.

Definition forward_file_bb (c : Color) (s : Square) : Bitboard :=
  Z.land (forward_ranks_bb c (rank_of s)) (file_bb (file_of s)).

Definition passed_pawn_mask (c : Color) (s : Square) : Bitboard :=
  Z.land (forward_ranks_bb c (rank_of s))
         (Z.lor (file_bb (file_of s)) (adjacent_files_bb (file_of s))).

Definition board_size_bb (f : File) (r : Rank) : Bitboard :=
  Z.land (fold_left (fun acc f' => if f' <=? f then Z.lor acc (file_bb f') else acc)
                    (map Z.of_nat (seq 0 8)) 0)
         (ranks_where (fun r' => r' <=? r)).

Definition shift (d : Direction) (b : Bitboard) : Bitboard :=
  let notA := bb_not (file_bb 0) in
  let notH := bb_not (file_bb 7) in
  if d =? 8 then Z.land (Z.shiftl b 8) AllSquares
  else if d =? -8 then Z.shiftr b 8
  else if d =? 1 then Z.land (Z.shiftl (Z.land b notH) 1) AllSquares
  else if d =? -1 then Z.shiftr (Z.land b notA) 1
  else if d =? 9 then Z.land (Z.shiftl (Z.land b notH) 9) AllSquares
  else if d =? 7 then Z.land (Z.shiftl (Z.land b notA) 7) AllSquares
  else if d =? -7 then Z.shiftr (Z.land b notH) 7
  else if d =? -9 then Z.shiftr (Z.land b notA) 9
  else 0.

(** The squares seen from ([f], [r]) in direction ([df], [dr]), up to and
    including the first occupied one. *)
Fixpoint ray (fuel : nat) (f r df dr : Z) (occ : Bitboard) : Bitboard :=
  match fuel with
  | O => 0
  | S n =>
      let f' := f + df in
      let r' := r + dr in
      if on_board f' r' then
        if Z.testbit occ (make_square f' r') then bit f' r'
        else Z.lor (bit f' r') (ray n f' r' df dr occ)
      else 0
  end.

Definition rays (dirs : list (Z * Z)) (s : Square) (occ : Bitboard) : Bitboard :=
  fold_left (fun acc d => Z.lor acc (ray 7 (file_of s) (rank_of s) (fst d) (snd d) occ)) dirs 0.

Definition leaps (steps : list (Z * Z)) (s : Square) : Bitboard :=
  fold_left (fun acc d => Z.lor acc (bit (file_of s + fst d) (rank_of s + snd d))) steps 0.

Definition diagonals : list (Z * Z) := [(1, 1); (1, -1); (-1, 1); (-1, -1)].
Definition orthogonals : list (Z * Z) := [(1, 0); (-1, 0); (0, 1); (0, -1)].
Definition knight_steps : list (Z * Z) :=
  [(1, 2); (2, 1); (2, -1); (1, -2); (-1, -2); (-2, -1); (-2, 1); (-1, 2)].

Definition SHOGI_PAWN : PieceType := 6.
Definition KING : PieceType := 7.

Definition slider_attacks_bb (pt : PieceType) (s : Square) (occ : Bitboard) : Bitboard :=
  if pt =? BISHOP then rays diagonals s occ
  else if pt =? ROOK then rays orthogonals s occ
  else 0.

Definition forward (c : Color) : Z := match c with WHITE => 1 | BLACK => -1 end.

Definition attacks_bb (c : Color) (pt : PieceType) (s : Square) (occ : Bitboard) : Bitboard :=
  if pt =? PAWN then leaps [(1, forward c); (-1, forward c)] s
  else if pt =? KNIGHT then leaps knight_steps s
  else if pt =? BISHOP then rays diagonals s occ
  else if pt =? ROOK then rays orthogonals s occ
  else if pt =? QUEEN then Z.lor (rays diagonals s occ) (rays orthogonals s occ)
  else if pt =? SHOGI_PAWN then leaps [(0, forward c)] s
  else if pt =? KING then leaps (diagonals ++ orthogonals) s
  else 0.

Definition moves_bb (c : Color) (pt : PieceType) (s : Square) (occ : Bitboard) : Bitboard :=
  if pt =? PAWN then leaps [(0, forward c)] s else attacks_bb c pt s occ.

Definition distance_File (a b : Square) : Z := Z.abs (file_of a - file_of b).
Definition distance_Rank (a b : Square) : Z := Z.abs (rank_of a - rank_of b).
Definition distance (a b : Square) : Z := Z.max (distance_File a b) (distance_Rank a b).

Definition LineBB (a b : Square) : Bitboard :=
  if nonzero (Z.land (rays diagonals a 0) (SquareBB b))
  then Z.lor (Z.lor (Z.land (rays diagonals a 0) (rays diagonals b 0)) (SquareBB a)) (SquareBB b)
  else if nonzero (Z.land (rays orthogonals a 0) (SquareBB b))
  then Z.lor (Z.lor (Z.land (rays orthogonals a 0) (rays orthogonals b 0)) (SquareBB a)) (SquareBB b)
  else 0.

Definition opposite_colors (a b : Square) : bool :=
  negb (Bool.eqb (Z.even (file_of a + rank_of a)) (Z.even (file_of b + rank_of b))).

Definition relative_rank (c : Color) (r maxRank : Rank) : Rank :=
  match c with WHITE => r | BLACK => maxRank - r end.

Definition PieceValueMg (pt : PieceType) : Value :=
  nth_int [0; 171; 764; 826; 1282; 2526] pt.
Definition PieceValueEg (pt : PieceType) : Value :=
  nth_int [0; 240; 848; 891; 1373; 2646] pt.

Definition convert_mate_value (v : Value) (ply : Z) : Value :=
  if v =? 32000 then 32000 - ply
  else if v =? -32000 then -32000 + ply
  else v.

(** The fields in the order of the class: piece types, piece values,
    [VALUE_MATE], [VALUE_NONE], [PHASE_MIDGAME], [SCALE_FACTOR_NORMAL],
    [Tempo], [convert_mate_value], [SQ_NONE], the directions, files and
    ranks, and the square arithmetic. *)
Definition types : TypesH :=
  Build_TypesH SHOGI_PAWN KING PieceValueMg PieceValueEg
    764 826 1282 2526 2646
    32000 32002 128 64 20 convert_mate_value
    64
    8 (-8) 1 (-1)
    0 1 4 7
    0 1 2 4 6
    file_of rank_of relative_rank.

Definition bitboards : BitboardH :=
  Build_BitboardH SquareBB shift rank_bb file_bb adjacent_files_bb
    forward_ranks_bb forward_file_bb passed_pawn_mask board_size_bb
    (file_bb 0) (file_bb 1) (file_bb 2) (file_bb 3)
    (file_bb 4) (file_bb 5) (file_bb 6) (file_bb 7)
    opposite_colors LineBB distance distance_File distance_Rank
    slider_attacks_bb attacks_bb moves_bb.

End Chess.

(** ** Example positions on the 8x8 board *)

Module Examples.

Definition placement := (Square * (Color * PieceType))%type.

Definition squares_of (pcs : list placement) (p : Color -> PieceType -> bool) : list Square :=
  map fst (filter (fun x => p (fst (snd x)) (snd (snd x))) pcs).

Definition bb_of (l : list Square) : Bitboard :=
  fold_left (fun acc s => Z.lor acc (Chess.SquareBB s)) l 0.

(** Non-pawn material: the middlegame values of the pieces other than
    pawns, shogi pawns and kings. *)
Definition npm_of (pcs : list placement) (c : Color) : Value :=
  fold_left (fun acc x =>
               if Color_eqb (fst (snd x)) c
                  && negb (snd (snd x) =? PAWN)
                  && negb (snd (snd x) =? Chess.SHOGI_PAWN)
                  && negb (snd (snd x) =? Chess.KING)
               then acc + Chess.PieceValueMg (snd (snd x)) else acc) pcs 0.

(** The material part of the incrementally updated score, from White's
    point of view. *)
Definition material_of (pcs : list placement) : Score :=
  fold_left (fun acc x =>
               let v := make_score (Chess.PieceValueMg (snd (snd x)))
                                   (Chess.PieceValueEg (snd (snd x))) in
               match fst (snd x) with
               | WHITE => (acc + v)%S
               | BLACK => (acc - v)%S
               end) pcs SCORE_ZERO.

(** A position set up from a list of pieces, as repeated [put_piece] leaves
    it; the pinned pieces [blockers], the hands and the thread's contempt
    are given, and [psq] is the material balance. *)
Definition setup (v : Variant) (stm : Color) (pcs : list placement)
  (blockers : Color -> Bitboard) (inHand : Color -> PieceType -> Z) (ct : Score)
  : Position :=
  {| board := fun s => match find (fun x => fst x =? s) pcs with
                       | Some x => Some (snd x)
                       | None => None
                       end;
     byTypeBB := fun pt =>
       if pt =? ALL_PIECES then bb_of (map fst pcs)
       else bb_of (squares_of pcs (fun _ pt' => pt' =? pt));
     byColorBB := fun c => bb_of (squares_of pcs (fun c' _ => Color_eqb c' c));
     pieceCount := fun c pt =>
       if pt =? ALL_PIECES
       then Z.of_nat (length (squares_of pcs (fun c' _ => Color_eqb c' c)))
       else Z.of_nat (length (squares_of pcs (fun c' pt' => Color_eqb c' c && (pt' =? pt))));
     pieceList := fun c pt => squares_of pcs (fun c' pt' => Color_eqb c' c && (pt' =? pt));
     pieceCountInHand := inHand;
     sideToMove := stm;
     contempt := ct;
     st := {| nonPawnMaterial := npm_of pcs;
              checksGiven := fun _ => 0;
              psq := material_of pcs;
              blockersForKing := blockers |};
     var := v |}.

Definition chess : Variant :=
  {| maxRank := 7; maxFile := 7;
     pieceTypes := [PAWN; KNIGHT; BISHOP; ROOK; QUEEN; Chess.KING];
     promotionPieceTypes := [QUEEN; ROOK; BISHOP; KNIGHT];
     checking := true; mustCapture := false; pieceDrops := false;
     capturesToHand := false; shogiDoubledPawn := true;
     extinctionValue := 32002; maxCheckCount := 0; connectN := 0;
     dropRegion := fun _ _ => AllSquares |}.

(** Chess with drops of the captured pieces. *)
Definition crazyhouse : Variant :=
  {| maxRank := 7; maxFile := 7;
     pieceTypes := [PAWN; KNIGHT; BISHOP; ROOK; QUEEN; Chess.KING];
     promotionPieceTypes := [QUEEN; ROOK; BISHOP; KNIGHT];
     checking := true; mustCapture := false; pieceDrops := true;
     capturesToHand := true; shogiDoubledPawn := true;
     extinctionValue := 32002; maxCheckCount := 0; connectN := 0;
     dropRegion := fun _ _ => AllSquares |}.

(** Chess in which a capture must be made when there is one. *)
Definition losers : Variant :=
  {| maxRank := 7; maxFile := 7;
     pieceTypes := [PAWN; KNIGHT; BISHOP; ROOK; QUEEN; Chess.KING];
     promotionPieceTypes := [QUEEN; ROOK; BISHOP; KNIGHT];
     checking := true; mustCapture := true; pieceDrops := false;
     capturesToHand := false; shogiDoubledPawn := true;
     extinctionValue := 32002; maxCheckCount := 0; connectN := 0;
     dropRegion := fun _ _ => AllSquares |}.

Definition no_blockers : Color -> Bitboard := fun _ => 0.
Definition empty_hands : Color -> PieceType -> Z := fun _ _ => 0.

(** A pawn entry for a list of pieces: the pawn attacks are computed, the
    cached scores are zero. *)
Definition pawns_entry (pcs : list placement) (passedW passedB : Bitboard) : PawnsEntry :=
  {| pawn_score := fun _ => SCORE_ZERO;
     pawn_attacks := fun c =>
       fold_left (fun acc s => Z.lor acc (Chess.attacks_bb c PAWN s 0))
                 (squares_of pcs (fun c' pt => Color_eqb c' c && (pt =? PAWN))) 0;
     passed_pawns := fun c => match c with WHITE => passedW | BLACK => passedB end;
     king_safety := fun _ _ => SCORE_ZERO;
     pawn_asymmetry := 0;
     open_files := 0 |}.

Definition blank : Evaluation :=
  {| mobilityArea := fun _ => 0; mobility := fun _ => SCORE_ZERO;
     attackedBy := fun _ _ => 0; attackedBy2 := fun _ => 0;
     kingRing := fun _ => 0; kingAttackersCount := fun _ => 0;
     kingAttackersWeight := fun _ => None; kingAttacksCount := fun _ => None |}.

(** The pieces of the initial position of chess. *)
Definition back_rank : list PieceType :=
  [ROOK; KNIGHT; BISHOP; QUEEN; Chess.KING; BISHOP; KNIGHT; ROOK].

Definition initial_pieces : list placement :=
  map (fun k => (Z.of_nat k, (WHITE, nth k back_rank 0))) (seq 0 8)
  ++ map (fun k => (8 + Z.of_nat k, (WHITE, PAWN))) (seq 0 8)
  ++ map (fun k => (48 + Z.of_nat k, (BLACK, PAWN))) (seq 0 8)
  ++ map (fun k => (56 + Z.of_nat k, (BLACK, nth k back_rank 0))) (seq 0 8).

(** The initial position of chess, and the same pieces under the rules of
    losers chess. *)
Definition start_chess : Position :=
  setup chess WHITE initial_pieces no_blockers empty_hands SCORE_ZERO.
Definition start_losers : Position :=
  setup losers WHITE initial_pieces no_blockers empty_hands SCORE_ZERO.
Definition start_pawns : PawnsEntry := pawns_entry initial_pieces 0 0.

(** Drop chess in which two pawns of a side may not share a file
    ([shogiDoubledPawn] is off). *)
Definition shogi_like : Variant :=
  {| maxRank := 7; maxFile := 7;
     pieceTypes := [PAWN; KNIGHT; BISHOP; ROOK; QUEEN; Chess.KING];
     promotionPieceTypes := [QUEEN; ROOK; BISHOP; KNIGHT];
     checking := true; mustCapture := false; pieceDrops := true;
     capturesToHand := true; shogiDoubledPawn := false;
     extinctionValue := 32002; maxCheckCount := 0; connectN := 0;
     dropRegion := fun _ _ => AllSquares |}.

Definition no_piece_terms
  : Evaluation -> Color -> PieceType -> Square -> Bitboard -> Z -> Score :=
  fun _ _ _ _ _ _ => SCORE_ZERO.

(** The tables after [initialize], [pieces] and [hand] have run. *)
Definition tables (p : Position) (pe : PawnsEntry) : Evaluation :=
  snd (evaluation_tables (TH := Chess.types) (BH := Chess.bitboards)
         p pe no_piece_terms blank).

(** White: Ke1.  Black: Ke8.  Nothing in hand. *)
Definition bare_kings : list placement :=
  [ (4, (WHITE, Chess.KING)); (60, (BLACK, Chess.KING)) ].
Definition bare_kings_crazyhouse : Position :=
  setup crazyhouse WHITE bare_kings no_blockers empty_hands SCORE_ZERO.
Definition bare_kings_shogi_like : Position :=
  setup shogi_like WHITE bare_kings no_blockers empty_hands SCORE_ZERO.
Definition bare_kings_pawns : PawnsEntry := pawns_entry bare_kings 0 0.

(** White: Kg1, pawns a2, b2, f2, g2, h2.  Black: Kg8, Qa3.  The pawn
    entry reports a shelter of S(80, 0) for the white king. *)
Definition queen_raid_pieces : list placement :=
  [ (6, (WHITE, Chess.KING)); (8, (WHITE, PAWN)); (9, (WHITE, PAWN));
    (13, (WHITE, PAWN)); (14, (WHITE, PAWN)); (15, (WHITE, PAWN));
    (62, (BLACK, Chess.KING)); (16, (BLACK, QUEEN)) ].
Definition queen_raid : Position :=
  setup chess WHITE queen_raid_pieces no_blockers empty_hands SCORE_ZERO.
Definition queen_raid_pawns : PawnsEntry :=
  {| pawn_score := fun _ => SCORE_ZERO;
     pawn_attacks := pawn_attacks (pawns_entry queen_raid_pieces 0 0);
     passed_pawns := fun _ => 0;
     king_safety := fun c _ => match c with WHITE => make_score 80 0 | BLACK => SCORE_ZERO end;
     pawn_asymmetry := 0;
     open_files := 0 |}.

(** The same position with a broken shelter, S(-80, 0). *)
Definition queen_raid_exposed : PawnsEntry :=
  {| pawn_score := fun _ => SCORE_ZERO;
     pawn_attacks := pawn_attacks (pawns_entry queen_raid_pieces 0 0);
     passed_pawns := fun _ => 0;
     king_safety := fun c _ => match c with WHITE => make_score (-80) 0 | BLACK => SCORE_ZERO end;
     pawn_asymmetry := 0;
     open_files := 0 |}.

(** White: Kg1, pawns f2, g2, h2.  Black: Kg8, pawns f7, g7, h7. *)
Definition castled_pawns_pieces : list placement :=
  [ (6, (WHITE, Chess.KING)); (13, (WHITE, PAWN)); (14, (WHITE, PAWN)); (15, (WHITE, PAWN));
    (62, (BLACK, Chess.KING)); (53, (BLACK, PAWN)); (54, (BLACK, PAWN)); (55, (BLACK, PAWN)) ].
Definition castled_pawns : Position :=
  setup chess WHITE castled_pawns_pieces no_blockers empty_hands SCORE_ZERO.
Definition castled_pawns_entry : PawnsEntry := pawns_entry castled_pawns_pieces 0 0.

(** White: Kg1, pawns d4, e5.  Black: Kg8, pawn e6.  The pawn on e5, held
    up by the pawn on e6 only and supported from d4, is reported as passed
    by the pawn entry. *)
Definition blocked_candidate_pieces : list placement :=
  [ (6, (WHITE, Chess.KING)); (36, (WHITE, PAWN)); (27, (WHITE, PAWN));
    (62, (BLACK, Chess.KING)); (44, (BLACK, PAWN)) ].
Definition blocked_candidate : Position :=
  setup chess WHITE blocked_candidate_pieces no_blockers empty_hands SCORE_ZERO.
Definition blocked_candidate_pawns : PawnsEntry :=
  pawns_entry blocked_candidate_pieces (Chess.SquareBB 36) 0.

(** White: Ka1.  Black: Kh8, Qh4, Qh5.  Neither queen attacks the ring of
    the white king. *)
Definition two_queens_pieces : list placement :=
  [ (0, (WHITE, Chess.KING));
    (63, (BLACK, Chess.KING)); (31, (BLACK, QUEEN)); (39, (BLACK, QUEEN)) ].
Definition two_queens : Position :=
  setup chess WHITE two_queens_pieces no_blockers empty_hands SCORE_ZERO.
Definition two_queens_pawns : PawnsEntry := pawns_entry two_queens_pieces 0 0.

(** The mirror image of a set of pieces: colours exchanged, ranks flipped. *)
Definition mirror_pieces (pcs : list placement) : list placement :=
  map (fun x => (Z.lxor (fst x) 56, (opp (fst (snd x)), snd (snd x)))) pcs.

Definition mirror_pawns (pcs : list placement) (pe : PawnsEntry) : PawnsEntry :=
  {| pawn_score := fun c => pawn_score pe (opp c);
     pawn_attacks := pawn_attacks (pawns_entry (mirror_pieces pcs) 0 0);
     passed_pawns := fun _ => 0;
     king_safety := fun c s => king_safety pe (opp c) (Z.lxor s 56);
     pawn_asymmetry := pawn_asymmetry pe;
     open_files := open_files pe |}.

Definition plain_material : MaterialEntry :=
  {| specialized_eval := None; imbalance := SCORE_ZERO;
     game_phase := 64; me_scale_factor := fun _ => 64 |}.

Definition no_term : Evaluation -> Color -> Score := fun _ _ => SCORE_ZERO.

(** The queen raid and its mirror image (White: Kg1, Qa6; Black: Kg8, pawns
    a7, b7, f7, g7, h7), both with White to move, evaluated by a thread
    without contempt and by a thread whose contempt is S(10, 5). *)
Definition raid (ct : Score) : Position :=
  setup chess WHITE queen_raid_pieces no_blockers empty_hands ct.
Definition raid_mirror (ct : Score) : Position :=
  setup chess WHITE (mirror_pieces queen_raid_pieces) no_blockers empty_hands ct.
Definition raid_mirror_pawns : PawnsEntry := mirror_pawns queen_raid_pieces queen_raid_pawns.

Definition terms_of (p : Position) (pe : PawnsEntry) : option Terms :=
  evaluation_terms (TH := Chess.types) (BH := Chess.bitboards)
    p pe no_piece_terms no_term no_term no_term blank.

Definition value_of (p : Position) (pe : PawnsEntry) : option Value :=
  value (TH := Chess.types) (BH := Chess.bitboards)
    p plain_material pe no_piece_terms no_term no_term no_term blank.

Definition zero_terms : Terms :=
  {| tm_pieces := fun _ => SCORE_ZERO; tm_hand := fun _ => SCORE_ZERO;
     tm_mobility := fun _ => SCORE_ZERO; tm_king := fun _ => SCORE_ZERO;
     tm_threats := fun _ => SCORE_ZERO; tm_passed := fun _ => SCORE_ZERO;
     tm_space := fun _ => SCORE_ZERO; tm_variant := fun _ => SCORE_ZERO |}.

Definition the_terms (p : Position) (pe : PawnsEntry) : Terms :=
  match terms_of p pe with Some t => t | None => zero_terms end.

End Examples.

(** What [put_piece] and [remove_piece] maintain of the type bitboards, as
    far as the x-ray occupancy is concerned: queens and rooks are pieces,
    and no square holds both a queen and a rook. *)
Definition types_consistent (pos : Position) : Prop :=
  Z.land (pieces_pt pos QUEEN) (pieces pos) = pieces_pt pos QUEEN
  /\ Z.land (pieces_pt pos ROOK) (pieces pos) = pieces_pt pos ROOK
  /\ Z.land (pieces_pt pos QUEEN) (pieces_pt pos ROOK) = 0.

(** ** Further notions used in the properties of the tables *)

(** [a] is a subset of [b]. *)
Definition bb_subset (a b : Bitboard) : Prop := Z.land a b = a.

(** ** The meaning of the attack tables *)

(** The two tables of a colour that count its attackers. *)
Definition tables_of (e : Evaluation) (c : Color) : Bitboard * Bitboard :=
  (attackedBy e c ALL_PIECES, attackedBy2 e c).

(** One step of the bookkeeping that [pieces] does with an attack set [b]:
    the pair is ([attackedBy[Us][ALL_PIECES]], [attackedBy2[Us]]). *)
Definition attack_step (acc : Bitboard * Bitboard) (b : Bitboard) : Bitboard * Bitboard :=
  (Z.lor (fst acc) b, Z.lor (snd acc) (Z.land (fst acc) b)).

(** Square [n] is attacked by some set of the list. *)
Definition attacked_once (l : list Bitboard) (n : Z) : bool :=
  existsb (fun b => Z.testbit b n) l.

(** Square [n] is attacked by two sets at different places of the list. *)
Fixpoint attacked_twice (l : list Bitboard) (n : Z) : bool :=
  match l with
  | [] => false
  | b :: l' => (Z.testbit b n && attacked_once l' n) || attacked_twice l' n
  end.

Section AttackSources.
Context {TH : TypesH} {BH : BitboardH}.
Variable pos : Position.
Variable pe : PawnsEntry.

(** The attack sets of the pieces of one type, in the order of the piece list. *)
Definition type_attacks (c : Color) (pt : PieceType) : list Bitboard :=
  map (piece_attacks pos c pt) (squares pos c pt).

(** The attack sets of the pieces from the knight up to the king excluded. *)
Definition piece_sources (c : Color) : list Bitboard :=
  flat_map (type_attacks c) (pt_range KNIGHT KING).

(** The attackers of a colour as the tables see them: the king, all the
    pawns together, then every other piece. *)
Definition attack_sources (c : Color) : list Bitboard :=
  (if negb (count pos c KING =? 0) then attacks_from pos c KING (square pos c KING) else 0)
  :: pawn_attacks pe c
  :: piece_sources c.

End AttackSources.

(** ** The meaning of the king attack counters *)

(** The two counters of a colour that [initialize] and [pieces] write. *)
Definition counters_of (e : Evaluation) (c : Color) : Z * option Z :=
  (kingAttackersCount e c, kingAttackersWeight e c).

(** The number of attack sets of a list that meet [ring]. *)
Definition ring_attacker_count (ring : Bitboard) (l : list Bitboard) : Z :=
  Z.of_nat (length (filter (fun b => nonzero (Z.land b ring)) l)).

Section RingAttackers.
Context {TH : TypesH} {BH : BitboardH}.
Variable pos : Position.

(** The weights of the pieces of [c] whose attack set meets [ring], summed
    over the piece types from the knight up to the king excluded. *)
Definition ring_attacker_weight (c : Color) (ring : Bitboard) : Z :=
  fold_left (fun w pt => w + nth_int KingAttackWeights (Z.min pt QUEEN)
                             * ring_attacker_count ring (type_attacks pos c pt))
            (pt_range KNIGHT KING) 0.

End RingAttackers.

(** What one attack set adds to the pair ([kingAttackersCount[Us]],
    [kingAttackersWeight[Us]]). *)
Definition count_step (ring : Bitboard) (pt : PieceType) (acc : Z * option Z) (b : Bitboard)
  : Z * option Z :=
  if nonzero (Z.land b ring)
  then (fst acc + 1, bump (snd acc) (nth_int KingAttackWeights (Z.min pt QUEEN)))
  else acc.

(** What one attack set adds to [kingAttacksCount[Us]]: the number of
    squares next to the enemy king that it attacks, when it meets the ring. *)
Definition attacks_step (ring kingAttacks : Bitboard) (acc : option Z) (b : Bitboard)
  : option Z :=
  if nonzero (Z.land b ring) then bump acc (popcount (Z.land b kingAttacks)) else acc.

Definition ring_attacks_count (ring kingAttacks : Bitboard) (l : list Bitboard) : option Z :=
  fold_left (attacks_step ring kingAttacks) l (Some 0).

(** ** Placing, removing and moving pieces ([position.h], lines 815 to 886)

    The members of [Position] that these helpers write: here [pieceList] is
    the array itself, indexed by a position in the list, and [index] is the
    array that records where in its list the piece of a square stands.  A
    piece handed to a helper is a colour and a type. *)

Module Mutable.

Record Pieces : Type := {
  board : Square -> Piece;
  byTypeBB : PieceType -> Bitboard;
  byColorBB : Color -> Bitboard;
  pieceCount : Color -> PieceType -> Z;
  pieceList : Color -> PieceType -> Z -> Square;
  index : Square -> Z;
  pieceCountInHand : Color -> PieceType -> Z
}.

(** Arrays indexed by a square or by a position in a list. *)
Definition updZ {A : Type} (f : Z -> A) (k : Z) (v : A) : Z -> A :=
  fun k' => if k' =? k then v else f k'.

(** [pieceList[make_piece(c, pt)][k] = v] *)
Definition updList (f : Color -> PieceType -> Z -> Square) (c : Color) (pt : PieceType)
  (k : Z) (v : Square) : Color -> PieceType -> Z -> Square :=
  upd f c (updT (f c) pt (updZ (f c pt) k v)).

Section Helpers.
Context {TH : TypesH} {BH : BitboardH}.

Definition put_piece (pc : Color * PieceType) (s : Square) (t : Pieces) : Pieces :=
  let c := fst pc in
  let pt := snd pc in
  let board1 := updZ (board t) s (Some pc) in
  let byType1 := updT (byTypeBB t) ALL_PIECES (Z.lor (byTypeBB t ALL_PIECES) (SquareBB s)) in
  let byType2 := updT byType1 pt (Z.lor (byType1 pt) (SquareBB s)) in
  let byColor1 := upd (byColorBB t) c (Z.lor (byColorBB t c) (SquareBB s)) in
  let index1 := updZ (index t) s (pieceCount t c pt) in
  let count1 := upd2 (pieceCount t) c pt (pieceCount t c pt + 1) in
  let list1 := updList (pieceList t) c pt (index1 s) s in
  let count2 := upd2 count1 c ALL_PIECES (count1 c ALL_PIECES + 1) in
  {| board := board1; byTypeBB := byType2; byColorBB := byColor1;
     pieceCount := count2; pieceList := list1; index := index1;
     pieceCountInHand := pieceCountInHand t |}.

(** [board[s]] is left as it is: the capturing piece overwrites it. *)
Definition remove_piece (pc : Color * PieceType) (s : Square) (t : Pieces) : Pieces :=
  let c := fst pc in
  let pt := snd pc in
  let byType1 := updT (byTypeBB t) ALL_PIECES (Z.lxor (byTypeBB t ALL_PIECES) (SquareBB s)) in
  let byType2 := updT byType1 pt (Z.lxor (byType1 pt) (SquareBB s)) in
  let byColor1 := upd (byColorBB t) c (Z.lxor (byColorBB t c) (SquareBB s)) in
  let count1 := upd2 (pieceCount t) c pt (pieceCount t c pt - 1) in
  let lastSquare := pieceList t c pt (count1 c pt) in
  let index1 := updZ (index t) lastSquare (index t s) in
  let list1 := updList (pieceList t) c pt (index1 lastSquare) lastSquare in
  let list2 := updList list1 c pt (count1 c pt) SQ_NONE in
  let count2 := upd2 count1 c ALL_PIECES (count1 c ALL_PIECES - 1) in
  {| board := board t; byTypeBB := byType2; byColorBB := byColor1;
     pieceCount := count2; pieceList := list2; index := index1;
     pieceCountInHand := pieceCountInHand t |}.

(** [index[from]] is not updated and becomes stale. *)
Definition move_piece (pc : Color * PieceType) (from to : Square) (t : Pieces) : Pieces :=
  let c := fst pc in
  let pt := snd pc in
  let fromTo := Z.lxor (SquareBB from) (SquareBB to) in
  let byType1 := updT (byTypeBB t) ALL_PIECES (Z.lxor (byTypeBB t ALL_PIECES) fromTo) in
  let byType2 := updT byType1 pt (Z.lxor (byType1 pt) fromTo) in
  let byColor1 := upd (byColorBB t) c (Z.lxor (byColorBB t c) fromTo) in
  let board1 := updZ (board t) from NO_PIECE in
  let board2 := updZ board1 to (Some pc) in
  let index1 := updZ (index t) to (index t from) in
  let list1 := updList (pieceList t) c pt (index1 to) to in
  {| board := board2; byTypeBB := byType2; byColorBB := byColor1;
     pieceCount := pieceCount t; pieceList := list1; index := index1;
     pieceCountInHand := pieceCountInHand t |}.

Definition set_hand (t : Pieces) (h : Color -> PieceType -> Z) : Pieces :=
  {| board := board t; byTypeBB := byTypeBB t; byColorBB := byColorBB t;
     pieceCount := pieceCount t; pieceList := pieceList t; index := index t;
     pieceCountInHand := h |}.

Definition set_board (t : Pieces) (b : Square -> Piece) : Pieces :=
  {| board := b; byTypeBB := byTypeBB t; byColorBB := byColorBB t;
     pieceCount := pieceCount t; pieceList := pieceList t; index := index t;
     pieceCountInHand := pieceCountInHand t |}.

Definition add_to_hand (c : Color) (pt : PieceType) (t : Pieces) : Pieces :=
  let h1 := upd2 (pieceCountInHand t) c pt (pieceCountInHand t c pt + 1) in
  set_hand t (upd2 h1 c ALL_PIECES (h1 c ALL_PIECES + 1)).

Definition remove_from_hand (c : Color) (pt : PieceType) (t : Pieces) : Pieces :=
  let h1 := upd2 (pieceCountInHand t) c pt (pieceCountInHand t c pt - 1) in
  set_hand t (upd2 h1 c ALL_PIECES (h1 c ALL_PIECES - 1)).

(** The assertion that the piece is in hand is a debug check only. *)
Definition drop_piece (pc_hand pc_drop : Color * PieceType) (s : Square) (t : Pieces)
  : Pieces :=
  remove_from_hand (fst pc_hand) (snd pc_hand) (put_piece pc_drop s t).

Definition undrop_piece (pc_hand pc_drop : Color * PieceType) (s : Square) (t : Pieces)
  : Pieces :=
  let t := remove_piece pc_drop s t in
  let t := set_board t (updZ (board t) s NO_PIECE) in
  add_to_hand (fst pc_hand) (snd pc_hand) t.

End Helpers.

(** The entries of the lists agree with [index] and [board]: the piece at
    place [i] of the list of ([c], [pt]) stands on a square whose index is
    [i] and whose board entry is that piece. *)
Definition lists_ok (t : Pieces) : Prop :=
  forall c pt i, pt <> ALL_PIECES -> 0 <= i < pieceCount t c pt ->
                 index t (pieceList t c pt i) = i
                 /\ board t (pieceList t c pt i) = Some (c, pt).

(** Square [s] stands in some list. *)
Definition listed (t : Pieces) (s : Square) : Prop :=
  exists c pt i, pt <> ALL_PIECES /\ 0 <= i < pieceCount t c pt /\ pieceList t c pt i = s.

(** The piece ([c], [pt]) on [s] stands in its list at the place [index[s]]. *)
Definition stands (t : Pieces) (c : Color) (pt : PieceType) (s : Square) : Prop :=
  0 <= index t s < pieceCount t c pt /\ pieceList t c pt (index t s) = s.

(** The bitboards agree with each other: every type bitboard lies within
    the one of all pieces, two different types share no square, nor do the
    two colours, and the colours together make up all pieces. *)
Definition bitboards_ok (t : Pieces) : Prop :=
  (forall pt, Z.land (byTypeBB t pt) (byTypeBB t ALL_PIECES) = byTypeBB t pt)
  /\ (forall p1 p2, p1 <> ALL_PIECES -> p2 <> ALL_PIECES -> p1 <> p2 ->
                    Z.land (byTypeBB t p1) (byTypeBB t p2) = 0)
  /\ Z.land (byColorBB t WHITE) (byColorBB t BLACK) = 0
  /\ Z.lor (byColorBB t WHITE) (byColorBB t BLACK) = byTypeBB t ALL_PIECES.

(** Two states that differ at most in [index] at the square [s]. *)
Definition same_but_index (s : Square) (t t' : Pieces) : Prop :=
  (forall s', board t' s' = board t s')
  /\ (forall p, byTypeBB t' p = byTypeBB t p)
  /\ (forall c, byColorBB t' c = byColorBB t c)
  /\ (forall c pt, pieceCount t' c pt = pieceCount t c pt)
  /\ (forall c pt i, pieceList t' c pt i = pieceList t c pt i)
  /\ (forall s', s' <> s -> index t' s' = index t s')
  /\ (forall c pt, pieceCountInHand t' c pt = pieceCountInHand t c pt).


End Mutable.

(** The position that the evaluation reads, with the piece members taken
    from [t]: a piece list is the part of the array before its count. *)
Definition position_with (t : Mutable.Pieces) (p : Position) : Position :=
  {| board := Mutable.board t;
     byTypeBB := Mutable.byTypeBB t;
     byColorBB := Mutable.byColorBB t;
     pieceCount := Mutable.pieceCount t;
     pieceList := fun c pt =>
       map (fun k => Mutable.pieceList t c pt (Z.of_nat k))
           (seq 0 (Z.to_nat (Mutable.pieceCount t c pt)));
     pieceCountInHand := Mutable.pieceCountInHand t;
     sideToMove := sideToMove p;
     contempt := contempt p; st := st p; var := var p |}.

(** ** [Evaluation::threats], [Evaluation::space] and [Evaluation::variant] *)

(** [bitboard.h] and [types.h]: the rank masks, the diagonal directions and
    the pawn attacks of a set of pawns, which these three functions use
    beyond the items of [TypesH] and [BitboardH]. *)
Class BoardH : Type := {
  Rank2BB : Bitboard;
  Rank3BB : Bitboard;
  Rank4BB : Bitboard;
  Rank5BB : Bitboard;
  Rank6BB : Bitboard;
  Rank7BB : Bitboard;
  NORTH_EAST : Direction;
  SOUTH_EAST : Direction;
  SOUTH_WEST : Direction;
  NORTH_WEST : Direction;
  (** [pawn_attacks_bb<C>(b)] *)
  pawn_attacks_bb : Color -> Bitboard -> Bitboard
}.

(** [variant.h]: the flag rule of a variant. *)
Record FlagRule : Type := {
  flagPiece : PieceType;
  whiteFlag : Bitboard;
  blackFlag : Bitboard
}.

(** [b << k] on a 64-bit word. *)
Definition bb_shl (b : Bitboard) (k : Z) : Bitboard := Z.land (Z.shiftl b k) AllSquares.

(** Both halves of a score are at least zero, or at most those of another
    score. *)
Definition score_nonneg (s : Score) : Prop := 0 <= mg_value s /\ 0 <= eg_value s.
Definition score_le (a b : Score) : Prop :=
  mg_value a <= mg_value b /\ eg_value a <= eg_value b.

Module Threats.

Local Notation "'S(' a , b ')'" := (make_score a b) (at level 0, a at level 200, b at level 200).

Definition ThreatByMinor : list Score :=
  [ S(0, 0); S(0, 31); S(39, 42); S(57, 44); S(68, 112); S(47, 120) ].
Definition ThreatByRook : list Score :=
  [ S(0, 0); S(0, 24); S(38, 71); S(38, 61); S(0, 38); S(36, 38) ].
Definition ThreatByKing : list Score := [ S(3, 65); S(9, 145) ].

Definition Connectivity : Score := S(  3,  1).
Definition Hanging : Score := S( 52, 30).
Definition KnightOnQueen : Score := S( 21, 11).
Definition Overload : Score := S( 10,  5).
Definition SliderOnQueen : Score := S( 42, 21).
Definition ThreatByPawnPush : Score := S( 47, 26).
Definition ThreatByRank : Score := S( 16,  3).
Definition ThreatBySafePawn : Score := S(175,168).
Definition WeakUnopposedPawn : Score := S(  5, 25).

Section Body.
Context {TH : TypesH} {BH : BitboardH} {RH : BoardH}.
Variable pos : Position.
(** [pe->weak_unopposed(c)], a member of the pawn entry. *)
Variable weak_unopposed : Color -> Z.
Variable e : Evaluation.
Variable Us : Color.

Definition TRank3BB : Bitboard := match Us with WHITE => Rank3BB | BLACK => Rank6BB end.

(** [type_of(pos.piece_on(s))] *)
Definition type_on (s : Square) : PieceType := type_of (piece_on pos s).

(** The squares our pieces other than the king can move to (lines 621 to
    627); [pop_lsb] takes the squares in ascending order. *)
Definition capture_moves : Bitboard :=
  fold_left (fun moves s =>
               if negb (type_on s =? KING)
               then Z.lor moves (moves_from pos Us (type_on s) s)
               else moves)
            (bb_squares (pieces_c pos Us)) 0.

(** The part for variants with mandatory captures (lines 614 to 630). *)
Definition must_capture_part (score : Score) : Score :=
  if must_capture pos then
    let score :=
      (score - S(100, 100) * popcount (Z.land (attackedBy e Us ALL_PIECES)
                                               (pieces_c pos (opp Us))))%S in
    let moves := capture_moves in
    let score :=
      (score + S(200, 200)
               * popcount (Z.land (Z.land (attackedBy e (opp Us) ALL_PIECES) moves)
                                  (bb_not (pieces pos))))%S in
    (score + S(200, 200)
             * popcount (Z.land (Z.land (Z.land (attackedBy e (opp Us) ALL_PIECES) moves)
                                        (bb_not (pieces pos)))
                                (bb_not (attackedBy2 e Us))))%S
  else score.

Definition nonPawnEnemies : Bitboard :=
  Z.lxor (pieces_c pos (opp Us)) (pieces_c_pt2 pos (opp Us) PAWN SHOGI_PAWN).

Definition stronglyProtected : Bitboard :=
  Z.lor (attackedBy e (opp Us) PAWN)
        (Z.land (attackedBy2 e (opp Us)) (bb_not (attackedBy2 e Us))).

Definition defended : Bitboard := Z.land nonPawnEnemies stronglyProtected.

Definition weak : Bitboard :=
  Z.land (Z.land (pieces_c pos (opp Us)) (bb_not stronglyProtected))
         (attackedBy e Us ALL_PIECES).

(** The body of the loops over the pieces that a minor or a rook attacks. *)
Definition threat_step (table : list Score) (score : Score) (s : Square) : Score :=
  let score := (score + nth_score table (type_on s))%S in
  if negb (type_on s =? PAWN) && negb (type_on s =? SHOGI_PAWN)
  then (score + ThreatByRank * relative_rank (opp Us) (rank_of s) (max_rank pos))%S
  else score.

(** The bonuses by the kind of the attacking piece (lines 646 to 678). *)
Definition attacked_part (score : Score) : Score :=
  if nonzero (Z.lor defended weak) then
    let b := Z.land (Z.lor defended weak)
                    (Z.lor (attackedBy e Us KNIGHT) (attackedBy e Us BISHOP)) in
    let score := fold_left (threat_step ThreatByMinor) (bb_squares b) score in
    let b := Z.land (Z.lor (pieces_c_pt pos (opp Us) QUEEN) weak) (attackedBy e Us ROOK) in
    let score := fold_left (threat_step ThreatByRook) (bb_squares b) score in
    let b := Z.land weak (attackedBy e Us KING) in
    let score :=
      if nonzero b then (score + nth_score ThreatByKing (Z.b2z (more_than_one b)))%S
      else score in
    let score :=
      (score + Hanging * popcount (Z.land weak (bb_not (attackedBy e (opp Us) ALL_PIECES))))%S in
    let b := Z.land (Z.land (Z.land (Z.land nonPawnEnemies (attackedBy e Us ALL_PIECES))
                                    (bb_not (attackedBy2 e Us)))
                            (attackedBy e (opp Us) ALL_PIECES))
                    (bb_not (attackedBy2 e (opp Us))) in
    (score + Overload * popcount b)%S
  else score.

(** The pawn threats (lines 680 to 704). *)
Definition pawn_part (score : Score) : Score :=
  let score :=
    if nonzero (pieces_c_pt2 pos Us ROOK QUEEN)
    then (score + WeakUnopposedPawn * weak_unopposed (opp Us))%S
    else score in
  let b := Z.land (pieces_c_pt pos Us PAWN)
                  (Z.lor (bb_not (attackedBy e (opp Us) ALL_PIECES))
                         (attackedBy e Us ALL_PIECES)) in
  let safeThreats :=
    Z.land (Z.lor (pawn_attacks_bb Us b) (shift (Up Us) (pieces_c_pt pos Us SHOGI_PAWN)))
           nonPawnEnemies in
  let score := (score + ThreatBySafePawn * popcount safeThreats)%S in
  let b := Z.land (shift (Up Us) (pieces_c_pt pos Us PAWN)) (bb_not (pieces pos)) in
  let b := Z.lor b (Z.land (shift (Up Us) (Z.land b TRank3BB)) (bb_not (pieces pos))) in
  let b := Z.land b (Z.land (bb_not (attackedBy e (opp Us) PAWN))
                            (Z.lor (attackedBy e Us ALL_PIECES)
                                   (bb_not (attackedBy e (opp Us) ALL_PIECES)))) in
  let b := Z.land (Z.land (pawn_attacks_bb Us b) (pieces_c pos (opp Us)))
                  (bb_not (attackedBy e Us PAWN)) in
  (score + ThreatByPawnPush * popcount b)%S.

(** The threats against the enemy queen (lines 706 to 720). *)
Definition queen_part (score : Score) : Score :=
  if count pos (opp Us) QUEEN =? 1 then
    let s := square pos (opp Us) QUEEN in
    let safeThreats := Z.land (mobilityArea e Us) (bb_not stronglyProtected) in
    let b := Z.land (attackedBy e Us KNIGHT) (attacks_from pos Us KNIGHT s) in
    let score := (score + KnightOnQueen * popcount (Z.land b safeThreats))%S in
    let b := Z.lor (Z.land (attackedBy e Us BISHOP) (attacks_from pos Us BISHOP s))
                   (Z.land (attackedBy e Us ROOK) (attacks_from pos Us ROOK s)) in
    (score + SliderOnQueen
             * popcount (Z.land (Z.land b safeThreats) (attackedBy2 e Us)))%S
  else score.

(** The connectivity bonus (lines 722 and 723). *)
Definition connectivity_part (score : Score) : Score :=
  let b := Z.land (Z.lxor (Z.lxor (pieces_c pos Us) (pieces_c_pt2 pos Us PAWN KING))
                          (pieces_c_pt pos Us SHOGI_PAWN))
                  (attackedBy e Us ALL_PIECES) in
  (score + Connectivity * popcount b * (1 + 2 * Z.b2z (captures_to_hand pos)))%S.

Definition threats : Score :=
  connectivity_part
    (queen_part (pawn_part (attacked_part (must_capture_part SCORE_ZERO)))).

End Body.

End Threats.

Module Space.

Definition SpaceThreshold : Value := 12222.

Section Body.
Context {TH : TypesH} {BH : BitboardH} {RH : BoardH}.
Variable pos : Position.
Variable pe : PawnsEntry.
Variable e : Evaluation.
Variable Us : Color.

Definition SpaceMask : Bitboard :=
  match Us with
  | WHITE => Z.land CenterFiles (Z.lor (Z.lor Rank2BB Rank3BB) Rank4BB)
  | BLACK => Z.land CenterFiles (Z.lor (Z.lor Rank7BB Rank6BB) Rank5BB)
  end.

Definition pawnsOnly : bool :=
  negb (nonzero (Z.lxor (pieces_c pos Us) (pieces_c_pt pos Us PAWN))).

(** The available squares inside the area of [SpaceMask], or for a side
    with pawns only its pawns that are not attacked. *)
Definition safe : Bitboard :=
  let safe :=
    Z.land (Z.land (Z.land SpaceMask (bb_not (pieces_c_pt2 pos Us PAWN SHOGI_PAWN)))
                   (bb_not (attackedBy e (opp Us) PAWN)))
           (bb_not (attackedBy e (opp Us) SHOGI_PAWN)) in
  if pawnsOnly
  then Z.land (pieces_c_pt pos Us PAWN) (bb_not (attackedBy e (opp Us) ALL_PIECES))
  else safe.

(** The squares at most three squares behind a pawn of ours. *)
Definition behind : Bitboard :=
  let behind := pieces_c_pt2 pos Us PAWN SHOGI_PAWN in
  let behind :=
    Z.lor behind (match Us with
                  | WHITE => Z.shiftr behind NORTH
                  | BLACK => bb_shl behind NORTH
                  end) in
  Z.lor behind (match Us with
                | WHITE => Z.shiftr behind (2 * NORTH)
                | BLACK => bb_shl behind (2 * NORTH)
                end).

Definition space : Score :=
  if (non_pawn_material pos <? SpaceThreshold) && negb (captures_to_hand pos)
     && negb pawnsOnly
  then SCORE_ZERO
  else
    let bonus := popcount safe + popcount (Z.land behind safe) in
    let weight := count pos Us ALL_PIECES - 2 * open_files pe in
    make_score (Z.quot (bonus * weight * weight) 16) 0.

End Body.

End Space.

Module VariantTerm.

Local Notation "'S(' a , b ')'" := (make_score a b) (at level 0, a at level 200, b at level 200).

Section Body.
Context {TH : TypesH} {BH : BitboardH} {RH : BoardH}.
Variable pos : Position.
Variable flag : FlagRule.
(** [pos.attackers_to(s)], computed in [position.cpp]. *)
Variable attackers_to : Square -> Bitboard.
Variable Us : Color.

Definition capture_the_flag_piece : PieceType := flagPiece flag.
Definition capture_the_flag (c : Color) : Bitboard :=
  match c with WHITE => whiteFlag flag | BLACK => blackFlag flag end.

(** The bonus for one piece on [s1] and one target square [s2]. *)
Definition flag_bonus (s1 s2 : Square) : Score :=
  let isKingCTF := capture_the_flag_piece =? KING in
  let scale := count pos Us capture_the_flag_piece in
  let dist :=
    distance s1 s2
    + (if isKingCTF then popcount (Z.land (attackers_to s2) (pieces_c pos (opp Us))) else 0)
    + Z.b2z (nonzero (Z.land (pieces_c pos Us) (SquareBB s2))) in
  (S(2500, 2500)
   / (1 + scale * dist * (if negb isKingCTF || checking_permitted pos then dist else 1)))%S.

Definition flag_part (score : Score) : Score :=
  if nonzero (capture_the_flag Us) then
    fold_left (fun score s1 =>
                 fold_left (fun score s2 => (score + flag_bonus s1 s2)%S)
                           (bb_squares (capture_the_flag Us)) score)
              (bb_squares (pieces_c_pt pos Us capture_the_flag_piece)) score
  else score.

Definition check_part (score : Score) : Score :=
  if negb (max_check_count pos =? 0) then
    let remainingChecks := max_check_count pos - checks_given pos Us in
    (score + S(3000, 1000) / (remainingChecks * remainingChecks))%S
  else score.

(** One turn of a loop [for (int i = 1; i < pos.connect_n() && b; i++)]:
    once [b] is empty the loop is left, and nothing changes any more. *)
Definition row_step (unit : Score) (next : Bitboard -> Bitboard)
  (acc : Score * Bitboard) (i : Z) : Score * Bitboard :=
  let (score, b) := acc in
  if nonzero b
  then ((score + unit * popcount b * i * i / (connect_n pos - i))%S, Z.land b (next b))
  else acc.

(** The values [1], ..., [connect_n - 1] of the loop counter. *)
Definition row_lengths : list Z :=
  map (fun k => Z.of_nat k) (seq 1 (Z.to_nat (connect_n pos - 1))).

Definition uninterrupted (d : Direction) (b : Bitboard) : Bitboard :=
  shift (- d) (Z.land (Z.land (shift d (shift d b)) (bb_not (pieces_c pos (opp Us))))
                      (board_bb pos)).

Definition with_holes (d : Direction) (b : Bitboard) : Bitboard :=
  Z.lor (uninterrupted d b) (shift d (Z.land (shift d b) (bb_not (pieces pos)))).

Definition direction_step (score : Score) (d : Direction) : Score :=
  let score :=
    fst (fold_left (row_step S(100, 100) (uninterrupted d)) row_lengths
                   (score, pieces_c pos Us)) in
  fst (fold_left (row_step S(50, 50) (with_holes d)) row_lengths
                 (score, pieces_c pos Us)).

Definition connect_part (score : Score) : Score :=
  if 0 <? connect_n pos then
    fold_left direction_step
              [NORTH; NORTH_EAST; EAST; SOUTH_EAST; SOUTH; SOUTH_WEST; WEST; NORTH_WEST]
              score
  else score.

Definition variant : Score :=
  connect_part (check_part (flag_part SCORE_ZERO)).

End Body.

End VariantTerm.

(** ** The meaning of the mobility score *)

Section MobilitySum.
Context {TH : TypesH} {BH : BitboardH}.
Variable pos : Position.

(** What the piece on [s] adds to [mobility[c]], for the mobility area [area]. *)
Definition mobility_step (area : Bitboard) (c : Color) (pt : PieceType) (acc : Score)
  (s : Square) : Score :=
  (acc + mobility_bonus pt (popcount (Z.land (piece_attacks pos c pt s) area)))%S.

(** The mobility bonuses of the pieces of [c] from the knight up to the
    king excluded, added up in the order of the piece lists. *)
Definition mobility_sum (area : Bitboard) (c : Color) : Score :=
  fold_left (fun acc pt => fold_left (mobility_step area c pt) (squares pos c pt) acc)
            (pt_range KNIGHT KING) SCORE_ZERO.

End MobilitySum.

(** ** Further examples on the 8x8 board *)

Module MoreExamples.

Definition board8 : BoardH :=
  {| Rank2BB := Chess.rank_bb 1; Rank3BB := Chess.rank_bb 2; Rank4BB := Chess.rank_bb 3;
     Rank5BB := Chess.rank_bb 4; Rank6BB := Chess.rank_bb 5; Rank7BB := Chess.rank_bb 6;
     NORTH_EAST := 9; SOUTH_EAST := -7; SOUTH_WEST := -9; NORTH_WEST := 7;
     pawn_attacks_bb := fun c b =>
       match c with
       | WHITE => Z.lor (Chess.shift 7 b) (Chess.shift 9 b)
       | BLACK => Z.lor (Chess.shift (-9) b) (Chess.shift (-7) b)
       end |}.

(** No flag rule, and no attackers reported. *)
Definition no_flag : FlagRule := {| flagPiece := NO_PIECE_TYPE; whiteFlag := 0; blackFlag := 0 |}.
Definition no_attackers : Square -> Bitboard := fun _ => 0.
Definition no_weak_pawns : Color -> Z := fun _ => 0.

(** Chess that is won by the third check. *)
Definition three_check : Variant :=
  {| maxRank := 7; maxFile := 7;
     pieceTypes := [PAWN; KNIGHT; BISHOP; ROOK; QUEEN; Chess.KING];
     promotionPieceTypes := [QUEEN; ROOK; BISHOP; KNIGHT];
     checking := true; mustCapture := false; pieceDrops := false;
     capturesToHand := false; shogiDoubledPawn := true;
     extinctionValue := 32002; maxCheckCount := 3; connectN := 0;
     dropRegion := fun _ _ => AllSquares |}.

(** The bare kings of three-check chess after White has given [n] checks. *)
Definition after_checks (n : Z) : Position :=
  let p := Examples.setup three_check WHITE Examples.bare_kings Examples.no_blockers
                          Examples.empty_hands SCORE_ZERO in
  {| board := board p; byTypeBB := byTypeBB p; byColorBB := byColorBB p;
     pieceCount := pieceCount p; pieceList := pieceList p;
     pieceCountInHand := pieceCountInHand p;
     sideToMove := sideToMove p; contempt := contempt p;
     st := {| nonPawnMaterial := nonPawnMaterial (st p);
              checksGiven := fun c => match c with WHITE => n | BLACK => 0 end;
              psq := psq (st p);
              blockersForKing := blockersForKing (st p) |};
     var := var p |}.

(** The finished tables of the queen raid. *)
Definition raid_tables : Evaluation :=
  snd (evaluation_tables (TH := Chess.types) (BH := Chess.bitboards)
         Examples.queen_raid Examples.queen_raid_pawns Examples.no_piece_terms
         Examples.blank).

(** An empty board, and a white knight put on e2. *)
Definition no_pieces : Mutable.Pieces :=
  {| Mutable.board := fun _ => NO_PIECE;
     Mutable.byTypeBB := fun _ => 0;
     Mutable.byColorBB := fun _ => 0;
     Mutable.pieceCount := fun _ _ => 0;
     Mutable.pieceList := fun _ _ _ => 64;
     Mutable.index := fun _ => 0;
     Mutable.pieceCountInHand := fun _ _ => 0 |}.

Definition knight_e2 : Mutable.Pieces :=
  Mutable.put_piece (BH := Chess.bitboards) (WHITE, KNIGHT) 12 no_pieces.

(** White: Ke1, Qe2, Ra2.  Black: Kh8, Re8.  The white queen is pinned on
    the e-file, and stands between the white rook and the squares f2 to h2. *)
Definition battery_pieces : list Examples.placement :=
  [ (4, (WHITE, Chess.KING)); (12, (WHITE, QUEEN)); (8, (WHITE, ROOK));
    (63, (BLACK, Chess.KING)); (60, (BLACK, ROOK)) ].
Definition battery : Position :=
  Examples.setup Examples.chess WHITE battery_pieces
        (fun c => match c with WHITE => Chess.SquareBB 12 | BLACK => 0 end)
        Examples.empty_hands SCORE_ZERO.

End MoreExamples.

(** * Properties *)

(** ** Bitboard algebra *)

Ltac bitwise :=
  apply Z.bits_inj'; intros ?n ?Hn;
  unfold bb_not;
  repeat (rewrite ?Z.land_spec, ?Z.lor_spec, ?Z.lxor_spec, ?Z.lnot_spec, ?Z.bits_0
            by assumption);
  repeat match goal with
         | |- context [Z.testbit ?x ?k] => destruct (Z.testbit x k)
         end;
  reflexivity.

Lemma bb_not_lor_l (a b : Bitboard) : Z.land (bb_not (Z.lor a b)) a = 0.
Proof. bitwise. Qed.

Lemma bb_not_lor_r (a b : Bitboard) : Z.land (bb_not (Z.lor a b)) b = 0.
Proof. bitwise. Qed.

Lemma land_0_mono (a b c : Bitboard) : Z.land a b = 0 -> Z.land a (Z.land b c) = 0.
Proof.
  intros H. rewrite Z.land_assoc, H. apply Z.land_0_l.
Qed.

Lemma testbit_of_land_0 (a b : Bitboard) (n : Z) :
  Z.land a b = 0 -> Z.testbit b n = true -> Z.testbit a n = false.
Proof.
  intros H Hb.
  assert (Hn : Z.testbit (Z.land a b) n = false) by (rewrite H; apply Z.bits_0).
  rewrite Z.land_spec, Hb, andb_true_r in Hn. exact Hn.
Qed.

Lemma upd_same {A : Type} (f : Color -> A) (c : Color) (v : A) : upd f c v c = v.
Proof. unfold upd. destruct c; reflexivity. Qed.

Lemma upd_other {A : Type} (f : Color -> A) (c : Color) (v : A) : upd f c v (opp c) = f (opp c).
Proof. unfold upd. destruct c; reflexivity. Qed.

Lemma upd_opp {A : Type} (f : Color -> A) (c : Color) (v : A) : upd f (opp c) v c = f c.
Proof. unfold upd. destruct c; reflexivity. Qed.

Lemma opp_involutive (c : Color) : opp (opp c) = c.
Proof. destruct c; reflexivity. Qed.

(** ** The attack tables: [initialize] *)

Section InitializeFacts.
Context {TH : TypesH} {BH : BitboardH}.
Variable pos : Position.
Variable pe : PawnsEntry.

(** The mobility area that [initialize<Us>] stores. *)
Lemma initialize_mobilityArea (Us : Color) (e : Evaluation) :
  mobilityArea (initialize pos pe Us e) Us =
  if must_capture pos then AllSquares
  else bb_not (Z.lor (Z.lor (Z.lor (low_or_blocked_pawns pos Us)
                                   (pieces_c_pt2 pos Us KING QUEEN))
                            (pawn_attacks pe (opp Us)))
                     (shift (Down Us) (pieces_c_pt pos (opp Us) SHOGI_PAWN))).
Proof.
  unfold initialize. destruct (king_safety_used pos Us); cbn; apply upd_same.
Qed.

(** C7, as amended: in a variant without mandatory captures, the mobility
    area that [initialize<Us>] computes contains no square of our king or
    queen and no square of a pawn of ours that is blocked or stands on the
    ranks of [LowRanks]. *)
Theorem mobility_area_excludes_own (Us : Color) (e : Evaluation) :
  must_capture pos = false ->
  Z.land (mobilityArea (initialize pos pe Us e) Us) (pieces_c_pt2 pos Us KING QUEEN) = 0
  /\ Z.land (mobilityArea (initialize pos pe Us e) Us) (low_or_blocked_pawns pos Us) = 0
  /\ (forall s, Z.testbit (pieces_c_pt2 pos Us KING QUEEN) s = true
                \/ Z.testbit (low_or_blocked_pawns pos Us) s = true ->
                Z.testbit (mobilityArea (initialize pos pe Us e) Us) s = false).
Proof.
  intros Hmc.
  assert (Hkq : Z.land (mobilityArea (initialize pos pe Us e) Us)
                       (pieces_c_pt2 pos Us KING QUEEN) = 0).
  { rewrite initialize_mobilityArea, Hmc. bitwise. }
  assert (Hpw : Z.land (mobilityArea (initialize pos pe Us e) Us)
                       (low_or_blocked_pawns pos Us) = 0).
  { rewrite initialize_mobilityArea, Hmc. bitwise. }
  split; [exact Hkq|]. split; [exact Hpw|].
  intros s [Hs | Hs].
  - exact (testbit_of_land_0 _ _ s Hkq Hs).
  - exact (testbit_of_land_0 _ _ s Hpw Hs).
Qed.

(** With mandatory captures the area is the whole board. *)
Lemma mobility_area_must_capture (Us : Color) (e : Evaluation) :
  must_capture pos = true ->
  mobilityArea (initialize pos pe Us e) Us = AllSquares.
Proof.
  intros Hmc. rewrite initialize_mobilityArea, Hmc. reflexivity.
Qed.

End InitializeFacts.

(** C7, instance: the initial position of chess. *)
Lemma mobility_area_excludes_own_witness :
  must_capture Examples.start_chess = false
  /\ Z.land (mobilityArea
               (initialize (TH := Chess.types) (BH := Chess.bitboards)
                           Examples.start_chess Examples.start_pawns WHITE Examples.blank)
               WHITE)
            (pieces_c_pt2 Examples.start_chess WHITE Chess.KING QUEEN) = 0.
Proof.
  split; [reflexivity|].
  apply (mobility_area_excludes_own (TH := Chess.types) (BH := Chess.bitboards)
           Examples.start_chess Examples.start_pawns WHITE Examples.blank).
  reflexivity.
Defined.

(** C7, as stated, fails where captures are mandatory: in the initial
    position of losers chess the mobility area of White is the whole board
    and contains e1 and d1, the squares of the white king and queen. *)
Lemma mobility_area_must_capture_counterexample :
  must_capture Examples.start_losers = true
  /\ Z.land (mobilityArea
               (initialize (TH := Chess.types) (BH := Chess.bitboards)
                           Examples.start_losers Examples.start_pawns WHITE Examples.blank)
               WHITE)
            (pieces_c_pt2 Examples.start_losers WHITE Chess.KING QUEEN) = 24
  /\ Z.testbit (mobilityArea
                  (initialize (TH := Chess.types) (BH := Chess.bitboards)
                              Examples.start_losers Examples.start_pawns WHITE Examples.blank)
                  WHITE) 4 = true.
Proof. vm_compute. repeat split. Qed.

(** ** The attack set of a piece: [pieces] *)

Ltac bit_of H n :=
  let Hb := fresh "Hb" in
  pose proof (f_equal (fun z => Z.testbit z n) H) as Hb; cbv beta in Hb;
  repeat (rewrite ?Z.land_spec, ?Z.lor_spec, ?Z.lxor_spec, ?Z.ldiff_spec, ?Z.bits_0 in Hb).

Ltac bit_cases :=
  repeat (rewrite ?Z.land_spec, ?Z.lor_spec, ?Z.lxor_spec, ?Z.ldiff_spec, ?Z.bits_0);
  repeat match goal with
         | H : context [Z.testbit ?x ?k] |- _ => destruct (Z.testbit x k)
         | |- context [Z.testbit ?x ?k] => destruct (Z.testbit x k)
         end;
  cbn in *; try reflexivity; try discriminate.

Section PiecesFacts.
Context {TH : TypesH} {BH : BitboardH}.
Variable pos : Position.

Lemma xray_occupancy_bishop (Us : Color) :
  types_consistent pos ->
  xray_occupancy pos Us BISHOP = Z.ldiff (pieces pos) (pieces_pt pos QUEEN).
Proof.
  unfold types_consistent, xray_occupancy, pieces_c_pt, pieces_pt, pieces.
  intros (Hq & _ & _). cbn.
  apply Z.bits_inj'; intros n Hn. bit_of Hq n. bit_cases.
Qed.

Lemma xray_occupancy_rook (Us : Color) :
  types_consistent pos ->
  xray_occupancy pos Us ROOK =
  Z.ldiff (Z.ldiff (pieces pos) (pieces_pt pos QUEEN)) (pieces_c_pt pos Us ROOK).
Proof.
  unfold types_consistent, xray_occupancy, pieces_c_pt, pieces_pt, pieces.
  intros (Hq & Hr & Hqr). cbn.
  apply Z.bits_inj'; intros n Hn. bit_of Hq n. bit_of Hr n. bit_of Hqr n. bit_cases.
Qed.

(** C5: the bishop's lookup is made at the occupancy [pieces()] without the
    queens, the rook's at that occupancy without the own rooks as well, so
    that neither holds a queen of the own colour; a piece of another type
    takes its attacks on occupied and its moves on empty squares; the attack
    set is cut to the board, and for a piece of any type among the blockers
    for the own king it is further cut to [LineBB] of the king's square and
    its own. *)
Theorem xray_attacks_and_pin (Us : Color) (Pt : PieceType) (s : Square) :
  types_consistent pos ->
  let pinned := nonzero (Z.land (blockers_for_king pos Us) (SquareBB s)) in
  let restricted (b : Bitboard) :=
    if pinned
    then Z.land (Z.land b (board_bb pos)) (LineBB (square pos Us KING) s)
    else Z.land b (board_bb pos) in
  (forall q, Z.testbit (xray_occupancy pos Us BISHOP) q
             = Z.testbit (pieces pos) q && negb (Z.testbit (pieces_pt pos QUEEN) q))
  /\ (forall q, Z.testbit (xray_occupancy pos Us ROOK) q
                = Z.testbit (pieces pos) q && negb (Z.testbit (pieces_pt pos QUEEN) q)
                  && negb (Z.testbit (pieces_c_pt pos Us ROOK) q))
  /\ (forall q, Z.testbit (pieces_c_pt pos Us QUEEN) q = true ->
                Z.testbit (xray_occupancy pos Us BISHOP) q = false
                /\ Z.testbit (xray_occupancy pos Us ROOK) q = false)
  /\ (Pt = BISHOP ->
      piece_attacks pos Us Pt s
      = restricted (slider_attacks_bb BISHOP s
                      (Z.ldiff (pieces pos) (pieces_pt pos QUEEN))))
  /\ (Pt = ROOK ->
      piece_attacks pos Us Pt s
      = restricted (slider_attacks_bb ROOK s
                      (Z.ldiff (Z.ldiff (pieces pos) (pieces_pt pos QUEEN))
                               (pieces_c_pt pos Us ROOK))))
  /\ (Pt <> BISHOP -> Pt <> ROOK ->
      piece_attacks pos Us Pt s
      = restricted (Z.lor (Z.land (attacks_from pos Us Pt s) (pieces pos))
                          (Z.land (moves_from pos Us Pt s) (bb_not (pieces pos)))))
  /\ (pinned = true ->
      Z.land (piece_attacks pos Us Pt s) (LineBB (square pos Us KING) s)
      = piece_attacks pos Us Pt s).
Proof.
  intros Hc pinned restricted.
  assert (Hb : forall q, Z.testbit (xray_occupancy pos Us BISHOP) q
                 = Z.testbit (pieces pos) q && negb (Z.testbit (pieces_pt pos QUEEN) q)).
  { intros q. rewrite xray_occupancy_bishop by exact Hc. apply Z.ldiff_spec. }
  assert (Hr : forall q, Z.testbit (xray_occupancy pos Us ROOK) q
                 = Z.testbit (pieces pos) q && negb (Z.testbit (pieces_pt pos QUEEN) q)
                   && negb (Z.testbit (pieces_c_pt pos Us ROOK) q)).
  { intros q. rewrite xray_occupancy_rook by exact Hc. rewrite !Z.ldiff_spec. reflexivity. }
  split; [exact Hb|]. split; [exact Hr|].
  split.
  { intros q Hq. rewrite Hb, Hr.
    assert (Hqq : Z.testbit (pieces_pt pos QUEEN) q = true).
    { unfold pieces_c_pt in Hq. rewrite Z.land_spec in Hq.
      apply andb_true_iff in Hq. apply Hq. }
    rewrite Hqq. cbn. rewrite !andb_false_r. split; reflexivity. }
  split.
  { intros ->. unfold piece_attacks, restricted, pinned.
    rewrite Z.eqb_refl, (xray_occupancy_bishop Us Hc). reflexivity. }
  split.
  { intros ->. unfold piece_attacks, restricted, pinned.
    change (ROOK =? BISHOP) with false. cbv iota.
    rewrite Z.eqb_refl, (xray_occupancy_rook Us Hc). reflexivity. }
  split.
  { intros HnB HnR. unfold piece_attacks, restricted, pinned.
    apply Z.eqb_neq in HnB, HnR. rewrite HnB, HnR. reflexivity. }
  intros Hpin. unfold piece_attacks. fold pinned. rewrite Hpin.
  apply Z.bits_inj'; intros n Hn. bit_cases.
Qed.

End PiecesFacts.

Lemma start_chess_consistent : types_consistent Examples.start_chess.
Proof. unfold types_consistent. vm_compute. repeat split. Qed.

Lemma battery_consistent : types_consistent MoreExamples.battery.
Proof. unfold types_consistent. vm_compute. repeat split. Qed.

(** C5, instance: the white rook on a2 sees through the white queen on e2
    as far as h2, and the queen, pinned by the rook on e8 to the king on e1,
    attacks the squares of the e-file only. *)
Lemma xray_attacks_and_pin_witness :
  types_consistent MoreExamples.battery
  /\ Z.testbit (pieces_c_pt MoreExamples.battery WHITE QUEEN) 12 = true
  /\ Z.testbit (xray_occupancy MoreExamples.battery WHITE ROOK) 12 = false
  /\ piece_attacks (TH := Chess.types) (BH := Chess.bitboards)
       MoreExamples.battery WHITE ROOK 8
     = Z.land (slider_attacks_bb (BitboardH := Chess.bitboards) ROOK 8
                 (Z.ldiff (Z.ldiff (pieces MoreExamples.battery)
                                   (pieces_pt MoreExamples.battery QUEEN))
                          (pieces_c_pt MoreExamples.battery WHITE ROOK)))
              (board_bb (BH := Chess.bitboards) MoreExamples.battery)
  /\ Z.testbit (piece_attacks (TH := Chess.types) (BH := Chess.bitboards)
                  MoreExamples.battery WHITE ROOK 8) 15 = true
  /\ nonzero (Z.land (blockers_for_king MoreExamples.battery WHITE)
                     (SquareBB (BitboardH := Chess.bitboards) 12)) = true
  /\ Z.land (piece_attacks (TH := Chess.types) (BH := Chess.bitboards)
                           MoreExamples.battery WHITE QUEEN 12)
            (LineBB (BitboardH := Chess.bitboards) 4 12)
     = piece_attacks (TH := Chess.types) (BH := Chess.bitboards)
                     MoreExamples.battery WHITE QUEEN 12.
Proof.
  assert (Hc : types_consistent MoreExamples.battery)
    by (unfold types_consistent; vm_compute; repeat split).
  destruct (xray_attacks_and_pin (TH := Chess.types) (BH := Chess.bitboards)
              MoreExamples.battery WHITE ROOK 8 Hc)
    as (_ & _ & Hqueen & _ & Hrook & _ & _).
  destruct (xray_attacks_and_pin (TH := Chess.types) (BH := Chess.bitboards)
              MoreExamples.battery WHITE QUEEN 12 Hc)
    as (_ & _ & _ & _ & _ & _ & Hpin).
  split; [exact Hc|].
  split; [reflexivity|].
  split; [apply (Hqueen 12); reflexivity|].
  split; [exact (Hrook eq_refl)|].
  split; [vm_compute; reflexivity|].
  split; [reflexivity|].
  apply Hpin. reflexivity.
Defined.

(** ** King safety: [king] *)

Section KingFacts.
Context {TH : TypesH} {BH : BitboardH}.
Variable pos : Position.
Variable pe : PawnsEntry.
Variable e : Evaluation.
Variable Us : Color.

Lemma king_danger_guard_spec :
  king_danger_guard pos e Us = true <->
  (1 - count pos (opp Us) QUEEN < kingAttackersCount e (opp Us)
   \/ captures_to_hand pos = true).
Proof.
  unfold king_danger_guard. rewrite orb_true_iff, Z.ltb_lt. reflexivity.
Qed.

(** C8: the danger branch runs exactly when the attacker count exceeds
    [1 - count<QUEEN>(Them)] or captures go to hand; hence, without drops
    and with an attacker count at or below that threshold, [king] returns
    the shelter score with the flank terms only and reads no counter; in a
    position without queens the threshold is 1. *)
Theorem king_danger_branch_guard :
  (king_danger_guard pos e Us = true <->
   (kingAttackersCount e (opp Us) > 1 - count pos (opp Us) QUEEN
    \/ captures_to_hand pos = true))
  /\ (captures_to_hand pos = false ->
      kingAttackersCount e (opp Us) <= 1 - count pos (opp Us) QUEEN ->
      king_danger_guard pos e Us = false
      /\ king pos pe e Us = Some (king_without_danger pos pe e Us))
  /\ ((forall c pt, pt <> ALL_PIECES -> pt <> PAWN -> pt <> KING -> count pos c pt = 0) ->
      QUEEN <> KING ->
      captures_to_hand pos = false ->
      kingAttackersCount e (opp Us) <= 1 ->
      king_danger_guard pos e Us = false
      /\ king pos pe e Us = Some (king_without_danger pos pe e Us)).
Proof.
  assert (Hoff : captures_to_hand pos = false ->
                 kingAttackersCount e (opp Us) <= 1 - count pos (opp Us) QUEEN ->
                 king_danger_guard pos e Us = false
                 /\ king pos pe e Us = Some (king_without_danger pos pe e Us)).
  { intros Hc Hle.
    assert (Hg : king_danger_guard pos e Us = false).
    { unfold king_danger_guard. rewrite Hc, orb_false_r. apply Z.ltb_ge. lia. }
    split; [exact Hg|].
    unfold king, king_without_danger. rewrite Hg.
    destruct ((count pos Us KING =? 0) || negb (checking_permitted pos)); reflexivity. }
  split.
  - rewrite king_danger_guard_spec. split; intros [H | H]; auto; left; lia.
  - split; [exact Hoff|].
    intros Honly Hqk Hc Hle. apply Hoff; [exact Hc|].
    rewrite (Honly (opp Us) QUEEN) by (try exact Hqk; discriminate). lia.
Qed.

(** C2, as amended: when the danger branch runs, the mobility difference is
    added only if the accumulated [kingDanger] is already positive; the sum
    is clamped at 0 and the score loses [min(kingDanger^2 / 4096, 3000)] in
    the middlegame and [kingDanger / 16] in the endgame.  A [kingDanger]
    that is not positive leaves the score as it is. *)
Theorem king_danger_penalty_formula (weight attacks : Z) :
  count pos Us KING <> 0 ->
  checking_permitted pos = true ->
  king_danger_guard pos e Us = true ->
  kingAttackersWeight e (opp Us) = Some weight ->
  kingAttacksCount e (opp Us) = Some attacks ->
  let ksq := square pos Us KING in
  let score := king_safety pe Us ksq in
  let units := king_danger_units pos e Us ksq score weight attacks in
  let kingDanger :=
    Z.max 0 (units + (mg_value (mobility e (opp Us)) - mg_value (mobility e Us))) in
  king pos pe e Us =
  Some (king_flank pos e Us ksq
          (if 0 <? units
           then make_score (mg_value score - Z.min (kingDanger ^ 2 / 4096) 3000)
                           (eg_value score - kingDanger / 16)
           else score))
  /\ 0 <= Z.min (kingDanger ^ 2 / 4096) 3000 <= 3000
  /\ 0 <= kingDanger / 16.
Proof.
  intros Hk Hchk Hg Hw Ha ksq score units kingDanger.
  assert (Hkd : 0 <= kingDanger) by (unfold kingDanger; lia).
  split.
  - unfold king. apply Z.eqb_neq in Hk. rewrite Hk, Hchk, Hg, Hw, Ha. cbn [orb negb].
    fold ksq. fold score. fold units. unfold king_danger_penalty.
    destruct (0 <? units); [|reflexivity].
    cbn [score_sub mg_value eg_value]. fold kingDanger.
    rewrite !Z.quot_div_nonneg by nia.
    replace (kingDanger ^ 2) with (kingDanger * kingDanger) by ring.
    reflexivity.
  - assert (0 <= kingDanger ^ 2 / 4096) by (apply Z.div_pos; nia).
    assert (0 <= kingDanger / 16) by (apply Z.div_pos; lia).
    lia.
Qed.

(** C3, as amended: with captures going to hand the score of [king] has
    equal halves, both the middlegame value of the score reached before;
    that value is kept when [shogi_doubled_pawn()] holds and divided by 3,
    truncating, when it does not. *)
Theorem king_drop_score_collapsed :
  captures_to_hand pos = true ->
  (forall s, king pos pe e Us = Some s -> mg_value s = eg_value s)
  /\ (forall score,
       king_drop_collapse pos score =
       make_score (Z.quot (mg_value score) (if shogi_doubled_pawn pos then 1 else 3))
                  (Z.quot (mg_value score) (if shogi_doubled_pawn pos then 1 else 3)))
  /\ (forall weight attacks,
       count pos Us KING <> 0 ->
       checking_permitted pos = true ->
       kingAttackersWeight e (opp Us) = Some weight ->
       kingAttacksCount e (opp Us) = Some attacks ->
       king pos pe e Us =
       Some (king_drop_collapse pos
               (king_tropism pos e Us (square pos Us KING)
                  (king_danger_penalty e Us (king_safety pe Us (square pos Us KING))
                     (king_danger_units pos e Us (square pos Us KING)
                        (king_safety pe Us (square pos Us KING)) weight attacks))))).
Proof.
  intros Hc.
  assert (Hcol : forall score,
             king_drop_collapse pos score =
             make_score (Z.quot (mg_value score) (if shogi_doubled_pawn pos then 1 else 3))
                        (Z.quot (mg_value score) (if shogi_doubled_pawn pos then 1 else 3))).
  { intros score. unfold king_drop_collapse, score_div. rewrite Hc.
    destruct (shogi_doubled_pawn pos); reflexivity. }
  assert (Hg : king_danger_guard pos e Us = true).
  { unfold king_danger_guard. rewrite Hc. apply orb_true_r. }
  split; [|split; [exact Hcol|]].
  - intros s. unfold king. rewrite Hg.
    destruct ((count pos Us KING =? 0) || negb (checking_permitted pos)).
    + intros [= <-]. reflexivity.
    + destruct (kingAttackersWeight e (opp Us)); [|discriminate].
      destruct (kingAttacksCount e (opp Us)); [|discriminate].
      intros [= <-]. unfold king_flank. rewrite Hcol. reflexivity.
  - intros weight attacks Hk Hchk Hw Ha.
    unfold king. apply Z.eqb_neq in Hk. rewrite Hk, Hchk, Hg, Hw, Ha. reflexivity.
Qed.

End KingFacts.

Lemma castled_pawns_only_kings_and_pawns (c : Color) (pt : PieceType) :
  pt <> ALL_PIECES -> pt <> PAWN -> pt <> Chess.KING ->
  count Examples.castled_pawns c pt = 0.
Proof.
  unfold ALL_PIECES, PAWN, Chess.KING. intros H0 H1 H7.
  unfold count, Examples.castled_pawns, Examples.setup, pieceCount, ALL_PIECES.
  apply Z.eqb_neq in H0. rewrite H0.
  assert (E1 : (1 =? pt) = false) by (apply Z.eqb_neq; lia).
  assert (E7 : (7 =? pt) = false) by (apply Z.eqb_neq; lia).
  unfold Examples.squares_of, Examples.castled_pawns_pieces, PAWN, Chess.KING.
  cbn [filter fst snd Color_eqb andb]. rewrite E1, E7.
  destruct c; reflexivity.
Defined.

(** C8, instance: kings and pawns only, no attacker of either king ring. *)
Lemma king_danger_branch_guard_witness :
  captures_to_hand Examples.castled_pawns = false
  /\ kingAttackersCount (Examples.tables Examples.castled_pawns Examples.castled_pawns_entry) BLACK <= 1
  /\ king_danger_guard Examples.castled_pawns
       (Examples.tables Examples.castled_pawns Examples.castled_pawns_entry) WHITE = false
  /\ king (TH := Chess.types) (BH := Chess.bitboards)
          Examples.castled_pawns Examples.castled_pawns_entry
          (Examples.tables Examples.castled_pawns Examples.castled_pawns_entry) WHITE
     = Some (king_without_danger (TH := Chess.types) (BH := Chess.bitboards)
               Examples.castled_pawns Examples.castled_pawns_entry
               (Examples.tables Examples.castled_pawns Examples.castled_pawns_entry) WHITE).
Proof.
  assert (Hle : kingAttackersCount
                  (Examples.tables Examples.castled_pawns Examples.castled_pawns_entry)
                  (opp WHITE) <= 1)
    by (apply Z.leb_le; vm_compute; reflexivity).
  split; [reflexivity|]. split; [exact Hle|].
  apply (proj2 (proj2 (king_danger_branch_guard (TH := Chess.types) (BH := Chess.bitboards)
                         Examples.castled_pawns Examples.castled_pawns_entry
                         (Examples.tables Examples.castled_pawns Examples.castled_pawns_entry)
                         WHITE))).
  - exact castled_pawns_only_kings_and_pawns.
  - discriminate.
  - reflexivity.
  - exact Hle.
Defined.

(** C2, instance: the queen on a3 attacks the ring of the king on g1, whose
    shelter is broken; [kingDanger] is 140 before and 206 after the mobility
    difference of 66, and the score loses S(10, 12). *)
Lemma king_danger_penalty_formula_witness :
  king_danger_guard Examples.queen_raid
    (Examples.tables Examples.queen_raid Examples.queen_raid_exposed) WHITE = true
  /\ king_danger_units (TH := Chess.types) (BH := Chess.bitboards) Examples.queen_raid
       (Examples.tables Examples.queen_raid Examples.queen_raid_exposed) WHITE 6
       (make_score (-80) 0) 10 0 = 140
  /\ king (TH := Chess.types) (BH := Chess.bitboards)
          Examples.queen_raid Examples.queen_raid_exposed
          (Examples.tables Examples.queen_raid Examples.queen_raid_exposed) WHITE
     = Some (king_flank (TH := Chess.types) (BH := Chess.bitboards) Examples.queen_raid
               (Examples.tables Examples.queen_raid Examples.queen_raid_exposed) WHITE 6
               (make_score (-80 - 10) (0 - 12))).
Proof.
  split; [reflexivity|]. split; [vm_compute; reflexivity|].
  etransitivity.
  - apply (king_danger_penalty_formula (TH := Chess.types) (BH := Chess.bitboards)
             Examples.queen_raid Examples.queen_raid_exposed
             (Examples.tables Examples.queen_raid Examples.queen_raid_exposed) WHITE 10 0).
    + discriminate.
    + reflexivity.
    + reflexivity.
    + vm_compute; reflexivity.
    + vm_compute; reflexivity.
  - vm_compute; reflexivity.
Defined.

(** C2, as stated, fails when [kingDanger] is not positive before the
    mobility difference is added: with the shelter S(80, 0) the units are
    -40 and the mobility difference is 66; the code leaves the score alone
    and [king] returns S(52, 0), whereas adding first and testing the sum 26
    would take 26 / 16 = 1 from the endgame value. *)
Lemma king_danger_order_counterexample :
  king_danger_guard Examples.queen_raid
    (Examples.tables Examples.queen_raid Examples.queen_raid_pawns) WHITE = true
  /\ king_danger_units (TH := Chess.types) (BH := Chess.bitboards) Examples.queen_raid
       (Examples.tables Examples.queen_raid Examples.queen_raid_pawns) WHITE 6
       (make_score 80 0) 10 0 = -40
  /\ mg_value (mobility (Examples.tables Examples.queen_raid Examples.queen_raid_pawns) BLACK
               - mobility (Examples.tables Examples.queen_raid Examples.queen_raid_pawns) WHITE)%S
     = 66
  /\ king (TH := Chess.types) (BH := Chess.bitboards)
          Examples.queen_raid Examples.queen_raid_pawns
          (Examples.tables Examples.queen_raid Examples.queen_raid_pawns) WHITE
     = Some (make_score 52 0)
  /\ king_flank (TH := Chess.types) (BH := Chess.bitboards) Examples.queen_raid
       (Examples.tables Examples.queen_raid Examples.queen_raid_pawns) WHITE 6
       (make_score 80 0
        - make_score (Z.min (Z.max 0 (-40 + 66) ^ 2 / 4096) 3000)
                     (Z.max 0 (-40 + 66) / 16))%S
     = make_score 52 (-1).
Proof. vm_compute. repeat split. Qed.

(** C3, instance: bare kings under drop rules without doubled pawns. *)
Lemma king_drop_score_collapsed_witness :
  captures_to_hand Examples.bare_kings_shogi_like = true
  /\ (forall s,
       king (TH := Chess.types) (BH := Chess.bitboards)
            Examples.bare_kings_shogi_like Examples.bare_kings_pawns
            (Examples.tables Examples.bare_kings_shogi_like Examples.bare_kings_pawns) WHITE
       = Some s -> mg_value s = eg_value s).
Proof.
  split; [reflexivity|].
  apply (king_drop_score_collapsed (TH := Chess.types) (BH := Chess.bitboards)
           Examples.bare_kings_shogi_like Examples.bare_kings_pawns
           (Examples.tables Examples.bare_kings_shogi_like Examples.bare_kings_pawns) WHITE).
  reflexivity.
Defined.

(** C3, as stated, fails: the score is never halved.  With bare kings the
    score before the collapse is S(-20, -82).  Where doubled pawns are
    allowed ([shogi_doubled_pawn()] holds) [king] returns S(-20, -20), and
    where they are not it returns S(-6, -6), a third of -20; half of -20
    is -10. *)
Lemma king_drop_halving_counterexample :
  captures_to_hand Examples.bare_kings_crazyhouse = true
  /\ shogi_doubled_pawn Examples.bare_kings_crazyhouse = true
  /\ king_tropism (TH := Chess.types) (BH := Chess.bitboards) Examples.bare_kings_crazyhouse
       (Examples.tables Examples.bare_kings_crazyhouse Examples.bare_kings_pawns) WHITE 4
       (king_danger_penalty
          (Examples.tables Examples.bare_kings_crazyhouse Examples.bare_kings_pawns) WHITE
          SCORE_ZERO 40) = make_score (-20) (-82)
  /\ king (TH := Chess.types) (BH := Chess.bitboards)
          Examples.bare_kings_crazyhouse Examples.bare_kings_pawns
          (Examples.tables Examples.bare_kings_crazyhouse Examples.bare_kings_pawns) WHITE
     = Some (make_score (-20) (-20))
  /\ captures_to_hand Examples.bare_kings_shogi_like = true
  /\ shogi_doubled_pawn Examples.bare_kings_shogi_like = false
  /\ king (TH := Chess.types) (BH := Chess.bitboards)
          Examples.bare_kings_shogi_like Examples.bare_kings_pawns
          (Examples.tables Examples.bare_kings_shogi_like Examples.bare_kings_pawns) WHITE
     = Some (make_score (-6) (-6))
  /\ Z.quot (-20) 2 = -10.
Proof. vm_compute. repeat split. Qed.

(** ** Passed pawns: [passed] *)

Section PassedFacts.
Context {TH : TypesH} {BH : BitboardH}.
Variable pos : Position.
Variable pe : PawnsEntry.
Variable e : Evaluation.
Variable Us : Color.

(** C6, as amended: in the iteration of [passed] for the pawn on [s], after
    the penalty for the hindered squares, the bonus of the pawn is added
    halved (each half truncated) exactly when the pawn is not passed on the
    square in front of it, or a pawn of either colour stands on its file
    ahead of it, and is added as it is otherwise, with the bonus of the file
    in both cases; [passed] is the scaled sum of these iterations, so that
    for a single passed pawn it is the scaled iteration from [SCORE_ZERO]. *)
Theorem passed_bonus_scaled_down (score : Score) (s : Square) :
  let scaled_down :=
    pawn_passed pos Us (s + Up Us) = false
    \/ Z.land (pieces_pt pos PAWN) (forward_file_bb Us s) <> 0 in
  let hindered :=
    (score - HinderPassedPawn
             * popcount (Z.land (forward_file_bb Us s)
                                (Z.lor (attackedBy e (opp Us) ALL_PIECES)
                                       (pieces_c pos (opp Us)))))%S in
  let scaled (x : Score) :=
    make_score
      (Z.quot (mg_value x
               * fold_left (fun m pt => Z.max m (PieceValueMg pt))
                           (promotion_piece_types pos) 0) QueenValueMg)
      (Z.quot (eg_value x
               * fold_left (fun m pt => Z.max m (PieceValueEg pt))
                           (promotion_piece_types pos) 0) QueenValueEg) in
  (scaled_down ->
   passed_step pos e Us score s
   = (hindered
      + (make_score (Z.quot (mg_value (passed_bonus pos e Us s)) 2)
                    (Z.quot (eg_value (passed_bonus pos e Us s)) 2)
         + nth_score PassedFile (file_of s)))%S)
  /\ (~ scaled_down ->
      passed_step pos e Us score s
      = (hindered + (passed_bonus pos e Us s + nth_score PassedFile (file_of s)))%S)
  /\ (passed_scaled_down pos Us s = true <-> scaled_down)
  /\ (bb_squares (passed_pawns pe Us) = [s] ->
      passed pos pe e Us = scaled (passed_step pos e Us SCORE_ZERO s)).
Proof.
  intros scaled_down hindered scaled.
  assert (Hiff : passed_scaled_down pos Us s = true <-> scaled_down).
  { unfold scaled_down, passed_scaled_down, nonzero.
    rewrite orb_true_iff, !negb_true_iff, Z.eqb_neq. reflexivity. }
  split; [|split; [|split; [exact Hiff|]]].
  - intros H. apply Hiff in H.
    unfold passed_step, passed_final_bonus. rewrite H. reflexivity.
  - intros H.
    assert (Hf : passed_scaled_down pos Us s = false).
    { destruct (passed_scaled_down pos Us s); [|reflexivity].
      exfalso. apply H, Hiff. reflexivity. }
    unfold passed_step, passed_final_bonus. rewrite Hf. reflexivity.
  - intros Hl. unfold passed. rewrite Hl. reflexivity.
Qed.

End PassedFacts.

(** C6, instance: the white pawn on e5 with the black pawn on e6 in front is
    the one passed pawn of the pawn entry; its bonus S(74, 28) is added as
    S(37, 14), with S(-22, -11) for the e-file and after S(8, 1) for the
    hindered square e6, and [passed] returns S(7, 2). *)
Lemma passed_bonus_scaled_down_witness :
  Z.land (pieces_pt Examples.blocked_candidate PAWN)
         (forward_file_bb (BitboardH := Chess.bitboards) WHITE 36) <> 0
  /\ passed_step (TH := Chess.types) (BH := Chess.bitboards) Examples.blocked_candidate
       (Examples.tables Examples.blocked_candidate Examples.blocked_candidate_pawns)
       WHITE SCORE_ZERO 36
     = ((SCORE_ZERO
         - HinderPassedPawn
           * popcount (Z.land (forward_file_bb (BitboardH := Chess.bitboards) WHITE 36)
                              (Z.lor (attackedBy
                                        (Examples.tables Examples.blocked_candidate
                                           Examples.blocked_candidate_pawns)
                                        BLACK ALL_PIECES)
                                     (pieces_c Examples.blocked_candidate BLACK))))
        + (make_score
             (Z.quot (mg_value (passed_bonus (TH := Chess.types) (BH := Chess.bitboards)
                                  Examples.blocked_candidate
                                  (Examples.tables Examples.blocked_candidate
                                     Examples.blocked_candidate_pawns) WHITE 36)) 2)
             (Z.quot (eg_value (passed_bonus (TH := Chess.types) (BH := Chess.bitboards)
                                  Examples.blocked_candidate
                                  (Examples.tables Examples.blocked_candidate
                                     Examples.blocked_candidate_pawns) WHITE 36)) 2)
           + nth_score PassedFile (file_of (TypesH := Chess.types) 36)))%S
  /\ passed (TH := Chess.types) (BH := Chess.bitboards) Examples.blocked_candidate
       Examples.blocked_candidate_pawns
       (Examples.tables Examples.blocked_candidate Examples.blocked_candidate_pawns) WHITE
     = make_score 7 2.
Proof.
  assert (Hahead : Z.land (pieces_pt Examples.blocked_candidate PAWN)
                          (forward_file_bb (BitboardH := Chess.bitboards) WHITE 36) <> 0)
    by (vm_compute; discriminate).
  split; [exact Hahead|].
  split.
  - destruct (passed_bonus_scaled_down (TH := Chess.types) (BH := Chess.bitboards)
                Examples.blocked_candidate Examples.blocked_candidate_pawns
                (Examples.tables Examples.blocked_candidate Examples.blocked_candidate_pawns)
                WHITE SCORE_ZERO 36) as (Hhalf & _).
    apply Hhalf. right. exact Hahead.
  - vm_compute. reflexivity.
Defined.

(** C6, as stated, fails when the pawn ahead is an enemy pawn: the pawn on
    e5 is passed on e6 in the sense of [pawn_passed] and has no white pawn
    ahead of it on the e-file, yet its bonus S(74, 28) is halved to
    S(37, 14) because of the black pawn on e6: the iteration of [passed]
    adds S(7, 2) and not the S(44, 16) of the whole bonus, and [passed]
    returns S(7, 2). *)
Lemma passed_enemy_pawn_ahead_counterexample :
  bb_squares (passed_pawns Examples.blocked_candidate_pawns WHITE) = [36]
  /\ pawn_passed (BH := Chess.bitboards) Examples.blocked_candidate WHITE (36 + 8) = true
  /\ Z.land (pieces_c_pt Examples.blocked_candidate WHITE PAWN)
            (forward_file_bb (BitboardH := Chess.bitboards) WHITE 36) = 0
  /\ passed_bonus (TH := Chess.types) (BH := Chess.bitboards) Examples.blocked_candidate
       (Examples.tables Examples.blocked_candidate Examples.blocked_candidate_pawns) WHITE 36
     = make_score 74 28
  /\ passed_step (TH := Chess.types) (BH := Chess.bitboards) Examples.blocked_candidate
       (Examples.tables Examples.blocked_candidate Examples.blocked_candidate_pawns)
       WHITE SCORE_ZERO 36
     = make_score 7 2
  /\ passed_step (TH := Chess.types) (BH := Chess.bitboards) Examples.blocked_candidate
       (Examples.tables Examples.blocked_candidate Examples.blocked_candidate_pawns)
       WHITE SCORE_ZERO 36
     <> make_score (74 - 22 - 8) (28 - 11 - 1)
  /\ passed (TH := Chess.types) (BH := Chess.bitboards) Examples.blocked_candidate
       Examples.blocked_candidate_pawns
       (Examples.tables Examples.blocked_candidate Examples.blocked_candidate_pawns) WHITE
     = make_score 7 2.
Proof. vm_compute. repeat split. discriminate. Qed.

(** ** Initiative, tempo and the final value *)

Section AggregateFacts.
Context {TH : TypesH} {BH : BitboardH}.
Variable pos : Position.
Variable me : MaterialEntry.
Variable pe : PawnsEntry.

(** The initiative never outweighs the endgame value it corrects. *)
Lemma initiative_bounded (eg : Value) :
  (0 < eg -> - eg <= eg_value (initiative pos pe eg))
  /\ (eg < 0 -> eg_value (initiative pos pe eg) <= - eg)
  /\ (eg = 0 -> eg_value (initiative pos pe eg) = 0).
Proof.
  unfold initiative. destruct (initiative_skipped pos); cbn [eg_value SCORE_ZERO].
  - lia.
  - repeat split; intros H.
    + assert ((0 <? eg) = true) as -> by (apply Z.ltb_lt; lia).
      assert ((eg <? 0) = false) as -> by (apply Z.ltb_ge; lia).
      cbn [Z.b2z]. lia.
    + assert ((0 <? eg) = false) as -> by (apply Z.ltb_ge; lia).
      assert ((eg <? 0) = true) as -> by (apply Z.ltb_lt; lia).
      cbn [Z.b2z]. lia.
    + subst eg. reflexivity.
Qed.

(** C9: the initiative has no middlegame part; it is [SCORE_ZERO] when the
    variant has an extinction value, sends captures to hand or is a
    connect-n game; and its endgame part [v] never flips the sign of the
    endgame value: [eg + v] has the sign of [eg] or is zero. *)
Theorem initiative_keeps_sign (eg : Value) :
  mg_value (initiative pos pe eg) = 0
  /\ (extinction_value pos <> VALUE_NONE -> initiative pos pe eg = SCORE_ZERO)
  /\ (captures_to_hand pos = true -> initiative pos pe eg = SCORE_ZERO)
  /\ (connect_n pos <> 0 -> initiative pos pe eg = SCORE_ZERO)
  /\ (Z.sgn (eg + eg_value (initiative pos pe eg)) = Z.sgn eg
      \/ eg + eg_value (initiative pos pe eg) = 0).
Proof.
  split; [|split; [|split; [|split]]].
  - unfold initiative. destruct (initiative_skipped pos); reflexivity.
  - intros H. unfold initiative, initiative_skipped.
    apply Z.eqb_neq in H. rewrite H. reflexivity.
  - intros H. unfold initiative, initiative_skipped.
    rewrite H, orb_true_r. reflexivity.
  - intros H. unfold initiative, initiative_skipped.
    apply Z.eqb_neq in H. rewrite H, orb_true_r. reflexivity.
  - destruct (initiative_bounded eg) as (Hp & Hn & Hz).
    destruct (Z.lt_trichotomy eg 0) as [Hlt | [Heq | Hgt]].
    + specialize (Hn Hlt).
      destruct (Z.eq_dec (eg + eg_value (initiative pos pe eg)) 0) as [E | E];
        [right; exact E | left].
      rewrite !Z.sgn_neg by lia. reflexivity.
    + right. rewrite (Hz Heq). lia.
    + specialize (Hp Hgt).
      destruct (Z.eq_dec (eg + eg_value (initiative pos pe eg)) 0) as [E | E];
        [right; exact E | left].
      rewrite !Z.sgn_pos by lia. reflexivity.
Qed.

(** C4, as amended: the tempo bonus is [Tempo * (1 + 4 * flag)] with the
    flag [captures_to_hand()], that is [Tempo] without drops and five times
    [Tempo] with them, and where no specialized evaluation exists it is
    added to the value after the sign flip for the side to move. *)
Theorem tempo_added_after_flip (t : Terms) :
  tempo_value pos = Tempo * (1 + 4 * Z.b2z (captures_to_hand pos))
  /\ (captures_to_hand pos = true -> tempo_value pos = 5 * Tempo)
  /\ (captures_to_hand pos = false -> tempo_value pos = Tempo)
  /\ value_of_terms pos me pe t - tempo_value pos =
     match side_to_move pos with
     | WHITE => white_value pos me pe t
     | BLACK => - white_value pos me pe t
     end
  /\ (forall piece_terms threats space variant e0 v,
        specialized_eval me = None ->
        value pos me pe piece_terms threats space variant e0 = Some v ->
        exists t',
          evaluation_terms pos pe piece_terms threats space variant e0 = Some t'
          /\ v = match side_to_move pos with
                 | WHITE => white_value pos me pe t'
                 | BLACK => - white_value pos me pe t'
                 end + tempo_value pos).
Proof.
  split; [reflexivity|]. split; [|split; [|split]].
  - intros H. unfold tempo_value. rewrite H. cbn [Z.b2z]. lia.
  - intros H. unfold tempo_value. rewrite H. cbn [Z.b2z]. lia.
  - unfold value_of_terms. lia.
  - intros piece_terms threats space variant e0 v Hs. unfold value. rewrite Hs.
    destruct (evaluation_terms pos pe piece_terms threats space variant e0) as [t'|];
      [|discriminate].
    intros [= <-]. exists t'. split; reflexivity.
Qed.

End AggregateFacts.

(** C9, instance: a drop variant has no initiative term. *)
Lemma initiative_keeps_sign_witness :
  captures_to_hand Examples.bare_kings_crazyhouse = true
  /\ initiative (TH := Chess.types) (BH := Chess.bitboards)
       Examples.bare_kings_crazyhouse Examples.bare_kings_pawns 100 = SCORE_ZERO.
Proof.
  split; [reflexivity|].
  destruct (initiative_keeps_sign (TH := Chess.types) (BH := Chess.bitboards)
              Examples.bare_kings_crazyhouse Examples.bare_kings_pawns 100)
    as (_ & _ & Hdrop & _).
  apply Hdrop. reflexivity.
Defined.

(** C4, instance: five times the tempo under drop rules. *)
Lemma tempo_added_after_flip_witness :
  captures_to_hand Examples.bare_kings_crazyhouse = true
  /\ tempo_value (TH := Chess.types) Examples.bare_kings_crazyhouse = 5 * 20.
Proof.
  split; [reflexivity|].
  destruct (tempo_added_after_flip (TH := Chess.types) (BH := Chess.bitboards)
              Examples.bare_kings_crazyhouse
              {| specialized_eval := None; imbalance := SCORE_ZERO;
                 game_phase := 128; me_scale_factor := fun _ => 64 |}
              Examples.bare_kings_pawns
              {| tm_pieces := fun _ => SCORE_ZERO; tm_hand := fun _ => SCORE_ZERO;
                 tm_mobility := fun _ => SCORE_ZERO; tm_king := fun _ => SCORE_ZERO;
                 tm_threats := fun _ => SCORE_ZERO; tm_passed := fun _ => SCORE_ZERO;
                 tm_space := fun _ => SCORE_ZERO; tm_variant := fun _ => SCORE_ZERO |})
    as (_ & Hdrop & _).
  apply Hdrop. reflexivity.
Defined.

(** C4, as stated, fails: under drop rules the bonus is not three times the
    flat one.  With [Tempo] = 20 it is 100, not 60. *)
Lemma tempo_not_tripled_counterexample :
  captures_to_hand Examples.bare_kings_crazyhouse = true
  /\ tempo_value (TH := Chess.types) Examples.bare_kings_crazyhouse = 100
  /\ tempo_value (TH := Chess.types) Examples.bare_kings_crazyhouse
     <> 3 * Tempo (TypesH := Chess.types).
Proof.
  split; [reflexivity|]. split; [reflexivity|].
  vm_compute. discriminate.
Qed.

(** ** The king safety counters across [initialize], [pieces] and [hand] *)

Lemma bump_written (x : option Z) (d : Z) : x <> None -> bump x d <> None.
Proof. destruct x; [discriminate | intros H; exact H]. Qed.

Lemma nonzero_land_0 (b : Bitboard) : nonzero (Z.land b 0) = false.
Proof. rewrite Z.land_0_r. reflexivity. Qed.

Section TablesFacts.
Context {TH : TypesH} {BH : BitboardH}.
Variable pos : Position.
Variable pe : PawnsEntry.
Variable piece_terms : Evaluation -> Color -> PieceType -> Square -> Bitboard -> Z -> Score.

(** [initialize<Us>] writes the two counters of the attacker on its first
    branch and leaves them alone on the other. *)
Lemma initialize_counters (Us : Color) (e : Evaluation) :
  (king_safety_used pos Us = true ->
   kingAttackersWeight (initialize pos pe Us e) (opp Us) = Some 0
   /\ kingAttacksCount (initialize pos pe Us e) (opp Us) = Some 0)
  /\ (king_safety_used pos Us = false ->
      kingAttackersWeight (initialize pos pe Us e) = kingAttackersWeight e
      /\ kingAttacksCount (initialize pos pe Us e) = kingAttacksCount e
      /\ kingRing (initialize pos pe Us e) Us = 0
      /\ kingAttackersCount (initialize pos pe Us e) (opp Us) = 0).
Proof.
  unfold initialize. split; intros H; rewrite H; cbn.
  - split; apply upd_same.
  - repeat split; try reflexivity; apply upd_same.
Qed.

Lemma initialize_establishes (Us : Color) (e : Evaluation) :
  king_tables_inv pos Us (initialize pos pe Us e).
Proof.
  unfold king_tables_inv, counters_written.
  destruct (initialize_counters Us e) as [Hyes Hno].
  destruct (king_safety_used pos Us).
  - destruct (Hyes eq_refl) as [-> ->]. split; discriminate.
  - destruct (Hno eq_refl) as (_ & _ & Hr & Hc). split; assumption.
Qed.

Lemma initialize_keeps_other (Us : Color) (e : Evaluation) :
  king_tables_inv pos Us e -> king_tables_inv pos Us (initialize pos pe (opp Us) e).
Proof.
  unfold king_tables_inv, counters_written, initialize.
  destruct (king_safety_used pos Us); destruct (king_safety_used pos (opp Us));
    destruct Us; cbn; intros H; exact H.
Qed.

(** A step of [pieces] or [hand] for any colour keeps the invariant of [Us]. *)
Lemma pieces_step_inv (Us C : Color) (Pt : PieceType) (acc : Score * Evaluation) (s : Square) :
  king_tables_inv pos Us (snd acc) ->
  king_tables_inv pos Us (snd (pieces_step pos piece_terms C Pt acc s)).
Proof.
  destruct acc as [score e]. unfold pieces_step. cbn [snd].
  unfold king_tables_inv, counters_written.
  destruct (king_safety_used pos Us).
  - intros [Hw Ha].
    destruct (nonzero (Z.land (piece_attacks pos C Pt s) (kingRing _ (opp C))));
      destruct Us, C; cbn; split; try assumption; apply bump_written; assumption.
  - intros [Hr Hc].
    destruct Us, C; cbn in *; rewrite ?Hr, ?nonzero_land_0;
      try (split; assumption);
      destruct (nonzero _); cbn; split; assumption.
Qed.

Lemma pieces_fold_inv (Us C : Color) (Pt : PieceType) (l : list Square)
  (acc : Score * Evaluation) :
  king_tables_inv pos Us (snd acc) ->
  king_tables_inv pos Us (snd (fold_left (pieces_step pos piece_terms C Pt) l acc)).
Proof.
  revert acc. induction l as [|s l IH]; intros acc H; cbn [fold_left].
  - exact H.
  - apply IH. apply pieces_step_inv. exact H.
Qed.

Lemma Evaluation_pieces_inv (Us C : Color) (Pt : PieceType) (e : Evaluation) :
  king_tables_inv pos Us e ->
  king_tables_inv pos Us (snd (Evaluation_pieces pos piece_terms C Pt e)).
Proof.
  intros H. unfold Evaluation_pieces. apply pieces_fold_inv. exact H.
Qed.

Lemma hand_inv (Us C : Color) (pt : PieceType) (e : Evaluation) :
  king_tables_inv pos Us e ->
  king_tables_inv pos Us (snd (hand pos C pt e)).
Proof.
  unfold hand.
  destruct (negb (count_in_hand pos C pt =? 0)); [|intros H; exact H].
  cbn [snd]. unfold king_tables_inv, counters_written.
  destruct (king_safety_used pos Us).
  - intros [Hw Ha].
    destruct (nonzero _ && negb (pt =? SHOGI_PAWN));
      destruct Us, C; cbn; split; try assumption; apply bump_written; assumption.
  - intros [Hr Hc].
    destruct Us, C; cbn in *; rewrite ?Hr, ?nonzero_land_0; cbn;
      try (split; assumption);
      destruct (nonzero _ && negb (pt =? SHOGI_PAWN)); cbn; split; assumption.
Qed.

Lemma pieces_round_inv (Us : Color) (acc : (Color -> Score) * Evaluation) (pt : PieceType) :
  king_tables_inv pos Us (snd acc) ->
  king_tables_inv pos Us (snd (pieces_round pos piece_terms acc pt)).
Proof.
  destruct acc as [t e]. unfold pieces_round. cbn [snd]. intros H.
  pose proof (Evaluation_pieces_inv Us WHITE pt e H) as Hw.
  destruct (Evaluation_pieces pos piece_terms WHITE pt e) as [w e1]. cbn [snd] in Hw.
  pose proof (Evaluation_pieces_inv Us BLACK pt e1 Hw) as Hb.
  destruct (Evaluation_pieces pos piece_terms BLACK pt e1) as [b e2]. exact Hb.
Qed.

Lemma hand_round_inv (Us : Color) (acc : (Color -> Score) * Evaluation) (pt : PieceType) :
  king_tables_inv pos Us (snd acc) ->
  king_tables_inv pos Us (snd (hand_round pos acc pt)).
Proof.
  destruct acc as [t e]. unfold hand_round. cbn [snd]. intros H.
  pose proof (hand_inv Us WHITE pt e H) as Hw.
  destruct (hand pos WHITE pt e) as [w e1]. cbn [snd] in Hw.
  pose proof (hand_inv Us BLACK pt e1 Hw) as Hb.
  destruct (hand pos BLACK pt e1) as [b e2]. exact Hb.
Qed.

Lemma fold_round_inv (Us : Color)
  (round : (Color -> Score) * Evaluation -> PieceType -> (Color -> Score) * Evaluation)
  (Hround : forall acc pt, king_tables_inv pos Us (snd acc) ->
                           king_tables_inv pos Us (snd (round acc pt)))
  (l : list PieceType) (acc : (Color -> Score) * Evaluation) :
  king_tables_inv pos Us (snd acc) ->
  king_tables_inv pos Us (snd (fold_left round l acc)).
Proof.
  revert acc. induction l as [|pt l IH]; intros acc H; cbn [fold_left].
  - exact H.
  - apply IH. apply Hround. exact H.
Qed.

(** The invariant holds for both colours once the tables are complete. *)
Lemma evaluation_tables_inv (e0 : Evaluation) (Us : Color) :
  king_tables_inv pos Us (snd (evaluation_tables pos pe piece_terms e0)).
Proof.
  unfold evaluation_tables.
  set (e2 := initialize pos pe BLACK (initialize pos pe WHITE (Evaluation_new e0))).
  assert (H2 : king_tables_inv pos Us e2).
  { unfold e2. destruct Us.
    - apply (initialize_keeps_other WHITE). apply initialize_establishes.
    - apply initialize_establishes. }
  pose proof (fold_round_inv Us _ (pieces_round_inv Us) (pt_range KNIGHT KING)
                (fun _ => SCORE_ZERO, e2) H2) as H3.
  destruct (fold_left (pieces_round pos piece_terms) (pt_range KNIGHT KING)
                      (fun _ => SCORE_ZERO, e2)) as [tp e3].
  cbn [snd] in H3.
  destruct (piece_drops pos).
  - pose proof (fold_round_inv Us _ (hand_round_inv Us) (pt_range PAWN KING)
                  (fun _ => SCORE_ZERO, e3) H3) as H4.
    destruct (fold_left (hand_round pos) (pt_range PAWN KING) (fun _ => SCORE_ZERO, e3))
      as [th e4].
    exact H4.
  - exact H3.
Qed.

End TablesFacts.

Section CounterSafety.
Context {TH : TypesH} {BH : BitboardH}.
Variable pos : Position.
Variable pe : PawnsEntry.
Variable piece_terms : Evaluation -> Color -> PieceType -> Square -> Bitboard -> Z -> Score.

(** On the finished tables the guard of the danger branch implies the
    condition under which [initialize] prepared the king safety tables. *)
Lemma guard_implies_king_safety_used (e0 : Evaluation) (Us : Color) :
  material_consistent pos ->
  count pos Us KING <> 0 ->
  king_danger_guard pos (snd (evaluation_tables pos pe piece_terms e0)) Us = true ->
  king_safety_used pos Us = true.
Proof.
  intros Hmat Hking Hguard.
  pose proof (evaluation_tables_inv pos pe piece_terms e0 Us) as Hinv.
  unfold king_tables_inv in Hinv.
  destruct (king_safety_used pos Us) eqn:Hu; [reflexivity|].
  destruct Hinv as [_ Hcount].
  apply king_danger_guard_spec in Hguard.
  unfold king_safety_used in Hu. apply orb_false_iff in Hu. destruct Hu as [Hu Hdrop].
  destruct Hguard as [Hlt | Hc]; [|congruence].
  rewrite Hcount in Hlt.
  assert (Hq : 2 <= count pos (opp Us) QUEEN) by lia.
  specialize (Hmat (opp Us) Hq).
  apply andb_false_iff in Hu. destruct Hu as [Hu | Hu].
  - apply negb_false_iff, Z.eqb_eq in Hu. contradiction.
  - apply Z.leb_gt in Hu. lia.
Qed.

Lemma guard_implies_counters_written (e0 : Evaluation) (Us : Color) :
  material_consistent pos ->
  count pos Us KING <> 0 ->
  king_danger_guard pos (snd (evaluation_tables pos pe piece_terms e0)) Us = true ->
  counters_written (snd (evaluation_tables pos pe piece_terms e0)) (opp Us).
Proof.
  intros Hmat Hking Hguard.
  pose proof (evaluation_tables_inv pos pe piece_terms e0 Us) as Hinv.
  unfold king_tables_inv in Hinv.
  rewrite (guard_implies_king_safety_used e0 Us Hmat Hking Hguard) in Hinv.
  exact Hinv.
Qed.

(** [king] returns a score on the finished tables, for either colour. *)
Lemma king_defined (e0 : Evaluation) (Us : Color) :
  material_consistent pos ->
  king pos pe (snd (evaluation_tables pos pe piece_terms e0)) Us <> None.
Proof.
  intros Hmat. unfold king.
  destruct (count pos Us KING =? 0) eqn:Hk; [discriminate|]. cbn [orb].
  destruct (negb (checking_permitted pos)); [discriminate|].
  destruct (king_danger_guard pos (snd (evaluation_tables pos pe piece_terms e0)) Us)
    eqn:Hg; [|discriminate].
  apply Z.eqb_neq in Hk.
  destruct (guard_implies_counters_written e0 Us Hmat Hk Hg) as [Hw Ha].
  destruct (kingAttackersWeight _ (opp Us)); [|contradiction].
  destruct (kingAttacksCount _ (opp Us)); [|contradiction].
  discriminate.
Qed.

(** [value()] returns a value: no counter is read before it is written. *)
Lemma value_defined (me : MaterialEntry) (threats space variant : Evaluation -> Color -> Score)
  (e0 : Evaluation) :
  material_consistent pos ->
  value pos me pe piece_terms threats space variant e0 <> None.
Proof.
  intros Hmat. unfold value. destruct (specialized_eval me); [discriminate|].
  unfold evaluation_terms.
  pose proof (king_defined e0 WHITE Hmat) as Hw.
  pose proof (king_defined e0 BLACK Hmat) as Hb.
  destruct (evaluation_tables pos pe piece_terms e0) as [[tp th] e]. cbn [snd] in Hw, Hb.
  destruct (king pos pe e WHITE); [|contradiction].
  destruct (king pos pe e BLACK); [|contradiction].
  discriminate.
Qed.

(** C10: [initialize<Us>] writes [kingAttackersWeight[Them]] and
    [kingAttacksCount[Them]] exactly when its king safety condition holds;
    and in a position with consistent material, whenever [king<Us>] gets
    past its early return and the guard of the danger branch holds on the
    finished tables, that condition held, both counters have been written,
    and [king<Us>] returns a score. *)
Theorem danger_branch_counters_written (e0 : Evaluation) (Us : Color) :
  (forall e,
      (king_safety_used pos Us = true ->
       kingAttackersWeight (initialize pos pe Us e) (opp Us) = Some 0
       /\ kingAttacksCount (initialize pos pe Us e) (opp Us) = Some 0)
      /\ (king_safety_used pos Us = false ->
          kingAttackersWeight (initialize pos pe Us e) = kingAttackersWeight e
          /\ kingAttacksCount (initialize pos pe Us e) = kingAttacksCount e))
  /\ (material_consistent pos ->
      count pos Us KING <> 0 ->
      king_danger_guard pos (snd (evaluation_tables pos pe piece_terms e0)) Us = true ->
      king_safety_used pos Us = true
      /\ (exists weight attacks,
            kingAttackersWeight (snd (evaluation_tables pos pe piece_terms e0)) (opp Us)
            = Some weight
            /\ kingAttacksCount (snd (evaluation_tables pos pe piece_terms e0)) (opp Us)
               = Some attacks)
      /\ king pos pe (snd (evaluation_tables pos pe piece_terms e0)) Us <> None).
Proof.
  split.
  - intros e'. destruct (initialize_counters pos pe Us e') as [Hyes Hno].
    split; [exact Hyes|].
    intros Hu. destruct (Hno Hu) as (Hw & Ha & _). split; assumption.
  - intros Hmat Hking Hguard.
    split; [exact (guard_implies_king_safety_used e0 Us Hmat Hking Hguard)|].
    split; [|exact (king_defined e0 Us Hmat)].
    destruct (guard_implies_counters_written e0 Us Hmat Hking Hguard) as [Hw Ha].
    destruct (kingAttackersWeight _ (opp Us)) as [w|]; [|contradiction].
    destruct (kingAttacksCount _ (opp Us)) as [a|]; [|contradiction].
    exists w, a. split; reflexivity.
Qed.

End CounterSafety.

(** C10, instance: two black queens that attack no square of the ring of
    the king on a1; the guard holds by the queen count alone. *)
Lemma danger_branch_counters_written_witness :
  material_consistent (TH := Chess.types) Examples.two_queens
  /\ king_danger_guard Examples.two_queens
       (snd (evaluation_tables (TH := Chess.types) (BH := Chess.bitboards)
               Examples.two_queens Examples.two_queens_pawns
               Examples.no_piece_terms Examples.blank)) WHITE = true
  /\ kingAttackersCount
       (snd (evaluation_tables (TH := Chess.types) (BH := Chess.bitboards)
               Examples.two_queens Examples.two_queens_pawns
               Examples.no_piece_terms Examples.blank)) BLACK = 0
  /\ king_safety_used (TH := Chess.types) Examples.two_queens WHITE = true
  /\ king (TH := Chess.types) (BH := Chess.bitboards)
          Examples.two_queens Examples.two_queens_pawns
          (snd (evaluation_tables (TH := Chess.types) (BH := Chess.bitboards)
                  Examples.two_queens Examples.two_queens_pawns
                  Examples.no_piece_terms Examples.blank)) WHITE <> None.
Proof.
  assert (Hm : material_consistent (TH := Chess.types) Examples.two_queens).
  { intros c Hq. destruct c.
    - apply Z.leb_le in Hq. vm_compute in Hq. discriminate.
    - apply Z.leb_le. vm_compute. reflexivity. }
  assert (Hg : king_danger_guard Examples.two_queens
                 (snd (evaluation_tables (TH := Chess.types) (BH := Chess.bitboards)
                         Examples.two_queens Examples.two_queens_pawns
                         Examples.no_piece_terms Examples.blank)) WHITE = true)
    by (vm_compute; reflexivity).
  assert (Hk : count Examples.two_queens WHITE (KING (TypesH := Chess.types)) <> 0)
    by discriminate.
  pose proof (proj2 (danger_branch_counters_written
                       (TH := Chess.types) (BH := Chess.bitboards)
                       Examples.two_queens Examples.two_queens_pawns Examples.no_piece_terms
                       Examples.blank WHITE) Hm Hk Hg) as H.
  split; [exact Hm|]. split; [exact Hg|]. split; [vm_compute; reflexivity|].
  split; [exact (proj1 H) | exact (proj2 (proj2 H))].
Defined.

(** ** Colour symmetry of the aggregation *)

Lemma score_neg_involutive (a : Score) : score_neg (score_neg a) = a.
Proof. destruct a as [m g]. unfold score_neg. cbn. f_equal; lia. Qed.

Section Symmetry.
Context {TH : TypesH} {BH : BitboardH}.
Variables p q : Position.
Variables mp mq : MaterialEntry.
Variables pp pq : PawnsEntry.
Variables tp tq : Terms.
Hypothesis Hm : color_mirrored p q mp mq pp pq tp tq.

Lemma diff_mirrored (f g : Color -> Score) :
  (forall c, g c = f (opp c)) -> diff g = score_neg (diff f).
Proof.
  intros H. unfold diff, score_neg, score_sub. rewrite (H WHITE), (H BLACK). cbn.
  f_equal; lia.
Qed.

Lemma white_score_mirrored :
  contempt p = SCORE_ZERO ->
  white_score q mq pq tq = score_neg (white_score p mp pp tp).
Proof.
  intros Hct. destruct Hm. unfold white_score.
  rewrite (diff_mirrored _ _ cm_pieces0), (diff_mirrored _ _ cm_hand0),
    (diff_mirrored _ _ cm_mobility0), (diff_mirrored _ _ cm_king0),
    (diff_mirrored _ _ cm_threats0), (diff_mirrored _ _ cm_passed0),
    (diff_mirrored _ _ cm_space0), (diff_mirrored _ _ cm_variant0).
  rewrite cm_psq0, cm_imbalance0, cm_contempt0, Hct, cm_drops0, cm_capture0.
  rewrite (cm_pawn_score0 WHITE), (cm_pawn_score0 BLACK).
  unfold score_neg, score_add, score_sub, score_mul, SCORE_ZERO. cbn.
  f_equal; ring.
Qed.

Lemma initiative_mirrored (eg : Value) :
  initiative q pq (- eg) = score_neg (initiative p pp eg).
Proof.
  destruct Hm. unfold initiative. rewrite cm_skipped0, cm_complexity0.
  destruct (initiative_skipped p); [reflexivity|].
  unfold score_neg. cbn. f_equal. rewrite Z.abs_opp.
  destruct (Z.ltb_spec 0 eg); destruct (Z.ltb_spec eg 0);
    destruct (Z.ltb_spec 0 (- eg)); destruct (Z.ltb_spec (- eg) 0);
    cbn [Z.b2z]; lia.
Qed.

Lemma scale_factor_mirrored (eg : Value) :
  eg <> 0 -> scale_factor q mq (- eg) = scale_factor p mp eg.
Proof.
  intros Hne. destruct Hm. unfold scale_factor.
  rewrite cm_drops0, cm_bishops0, (cm_material0 WHITE), (cm_material0 BLACK).
  cbn [opp].
  rewrite (andb_comm (non_pawn_material_c p BLACK =? BishopValueMg)).
  destruct (Z.ltb_spec 0 eg); destruct (Z.ltb_spec 0 (- eg)); try lia.
  - rewrite (cm_scale0 BLACK), (cm_pawn_count0 BLACK). reflexivity.
  - rewrite (cm_scale0 WHITE), (cm_pawn_count0 WHITE). reflexivity.
Qed.

Lemma white_value_mirrored :
  contempt p = SCORE_ZERO ->
  white_value q mq pq tq = - white_value p mp pp tp.
Proof.
  intros Hct. unfold white_value.
  rewrite (white_score_mirrored Hct).
  set (s := white_score p mp pp tp).
  replace (eg_value (score_neg s)) with (- eg_value s) by reflexivity.
  rewrite initiative_mirrored.
  set (i := initiative p pp (eg_value s)).
  replace (score_neg s + score_neg i)%S with (score_neg (s + i)%S)
    by (unfold score_neg, score_add; cbn; f_equal; lia).
  set (s' := (s + i)%S).
  replace (eg_value (score_neg s')) with (- eg_value s') by reflexivity.
  replace (mg_value (score_neg s')) with (- mg_value s') by reflexivity.
  destruct Hm. rewrite cm_phase0.
  destruct (Z.eq_dec (eg_value s') 0) as [E | E].
  - rewrite E. cbn [Z.opp]. rewrite !Z.mul_0_l.
    rewrite <- Zquot_opp_l. f_equal. cbn. lia.
  - rewrite (scale_factor_mirrored _ E).
    set (sf := scale_factor p mp (eg_value s')).
    assert (Heg : Z.quot (- eg_value s' * (PHASE_MIDGAME - game_phase mp) * sf)
                         SCALE_FACTOR_NORMAL
                  = - Z.quot (eg_value s' * (PHASE_MIDGAME - game_phase mp) * sf)
                             SCALE_FACTOR_NORMAL)
      by (rewrite <- Zquot_opp_l; f_equal; ring).
    rewrite <- Zquot_opp_l. rewrite Heg. f_equal. ring.
Qed.


End Symmetry.

Lemma raid_mirrored (ct : Score) :
  color_mirrored (TH := Chess.types) (BH := Chess.bitboards)
    (Examples.raid ct) (Examples.raid_mirror ct)
    Examples.plain_material Examples.plain_material
    Examples.queen_raid_pawns Examples.raid_mirror_pawns
    (Examples.the_terms (Examples.raid ct) Examples.queen_raid_pawns)
    (Examples.the_terms (Examples.raid_mirror ct) Examples.raid_mirror_pawns).
Proof.
  constructor; try (intros c; destruct c); vm_compute; reflexivity.
Defined.



(** * Further properties of the tables *)

Lemma bb_subset_refl (a : Bitboard) : bb_subset a a.
Proof. unfold bb_subset. apply Z.land_diag. Qed.

Lemma bb_subset_testbit (a b : Bitboard) :
  bb_subset a b -> forall n, Z.testbit a n = true -> Z.testbit b n = true.
Proof.
  unfold bb_subset. intros H n Ha.
  rewrite <- H, Z.land_spec in Ha. apply andb_true_iff in Ha. tauto.
Qed.

Lemma bb_subset_lor_l (a b c : Bitboard) : bb_subset a b -> bb_subset a (Z.lor b c).
Proof.
  unfold bb_subset. intros H. apply Z.bits_inj'; intros n Hn. bit_of H n. bit_cases.
Qed.

Lemma bb_subset_lor_both (a b c : Bitboard) :
  bb_subset a b -> bb_subset (Z.lor a c) (Z.lor b c).
Proof.
  unfold bb_subset. intros H. apply Z.bits_inj'; intros n Hn. bit_of H n. bit_cases.
Qed.

Lemma upd2_same (f : Color -> PieceType -> Bitboard) (c : Color) (pt : PieceType) (v : Bitboard) :
  upd2 f c pt v c pt = v.
Proof. unfold upd2, updT. rewrite upd_same, Z.eqb_refl. reflexivity. Qed.

Lemma upd2_other_type (f : Color -> PieceType -> Bitboard) (c : Color)
  (pt pt' : PieceType) (v : Bitboard) :
  pt' <> pt -> upd2 f c pt v c pt' = f c pt'.
Proof.
  intros H. unfold upd2, updT. rewrite upd_same.
  apply Z.eqb_neq in H. rewrite H. reflexivity.
Qed.

Lemma upd2_other_color (f : Color -> PieceType -> Bitboard) (c : Color)
  (pt pt' : PieceType) (v : Bitboard) :
  upd2 f c pt v (opp c) pt' = f (opp c) pt'.
Proof. unfold upd2. rewrite upd_other. reflexivity. Qed.

Lemma pt_range_lower (lo hi pt : PieceType) : In pt (pt_range lo hi) -> lo <= pt < hi.
Proof.
  unfold pt_range. rewrite in_map_iff. intros (k & <- & Hk).
  apply in_seq in Hk. lia.
Qed.

Section TablesInduction.
Context {TH : TypesH} {BH : BitboardH}.
Variable pos : Position.
Variable pe : PawnsEntry.
Variable piece_terms : Evaluation -> Color -> PieceType -> Square -> Bitboard -> Z -> Score.

(** A property that [initialize] establishes and that every call of
    [pieces] (for a piece type from the knight on) and of [hand] keeps holds
    of the finished tables. *)
Lemma tables_induction (P : Evaluation -> Prop) (e0 : Evaluation) :
  P (initialize pos pe BLACK (initialize pos pe WHITE (Evaluation_new e0))) ->
  (forall C Pt e, KNIGHT <= Pt < KING -> P e ->
                  P (snd (Evaluation_pieces pos piece_terms C Pt e))) ->
  (forall C pt e, P e -> P (snd (hand pos C pt e))) ->
  P (snd (evaluation_tables pos pe piece_terms e0)).
Proof.
  intros Hinit Hpieces Hhand. unfold evaluation_tables.
  set (e2 := initialize pos pe BLACK (initialize pos pe WHITE (Evaluation_new e0))) in *.
  assert (Hp : forall l acc, (forall pt, In pt l -> KNIGHT <= pt < KING) -> P (snd acc) ->
                 P (snd (fold_left (pieces_round pos piece_terms) l acc))).
  { induction l as [|pt l IH]; intros acc Hl Hacc; cbn [fold_left]; [exact Hacc|].
    apply IH; [intros pt' Hin; apply Hl; right; exact Hin|].
    destruct acc as [t e]. unfold pieces_round. cbn [snd] in *.
    assert (Hge : KNIGHT <= pt < KING) by (apply Hl; left; reflexivity).
    pose proof (Hpieces WHITE pt e Hge Hacc) as Hw.
    destruct (Evaluation_pieces pos piece_terms WHITE pt e) as [w e1]. cbn [snd] in Hw.
    pose proof (Hpieces BLACK pt e1 Hge Hw) as Hb.
    destruct (Evaluation_pieces pos piece_terms BLACK pt e1) as [b e3]. exact Hb. }
  assert (Hh : forall l acc, P (snd acc) ->
                 P (snd (fold_left (hand_round pos) l acc))).
  { induction l as [|pt l IH]; intros acc Hacc; cbn [fold_left]; [exact Hacc|].
    apply IH. destruct acc as [t e]. unfold hand_round. cbn [snd] in *.
    pose proof (Hhand WHITE pt e Hacc) as Hw.
    destruct (hand pos WHITE pt e) as [w e1]. cbn [snd] in Hw.
    pose proof (Hhand BLACK pt e1 Hw) as Hb.
    destruct (hand pos BLACK pt e1) as [b e3]. exact Hb. }
  pose proof (Hp (pt_range KNIGHT KING) (fun _ => SCORE_ZERO, e2)
                 (fun pt Hin => pt_range_lower _ _ _ Hin) Hinit) as H3.
  destruct (fold_left (pieces_round pos piece_terms) (pt_range KNIGHT KING)
                      (fun _ => SCORE_ZERO, e2)) as [tp e3].
  cbn [snd] in H3.
  destruct (piece_drops pos).
  - pose proof (Hh (pt_range PAWN KING) (fun _ => SCORE_ZERO, e3) H3) as H4.
    destruct (fold_left (hand_round pos) (pt_range PAWN KING) (fun _ => SCORE_ZERO, e3))
      as [th e4].
    exact H4.
  - exact H3.
Qed.

(** A property kept by the zeroing of [attackedBy[Us][Pt]] and by every
    iteration of the loop is kept by [pieces]. *)
Lemma pieces_induction (P : Evaluation -> Prop) (C : Color) (Pt : PieceType) (e : Evaluation) :
  P (set_attacks e (upd2 (attackedBy e) C Pt 0) (attackedBy2 e)) ->
  (forall acc s, P (snd acc) -> P (snd (pieces_step pos piece_terms C Pt acc s))) ->
  P (snd (Evaluation_pieces pos piece_terms C Pt e)).
Proof.
  intros Hz Hstep. unfold Evaluation_pieces.
  generalize (squares pos C Pt).
  set (acc0 := (SCORE_ZERO, set_attacks e (upd2 (attackedBy e) C Pt 0) (attackedBy2 e))).
  assert (H0 : P (snd acc0)) by exact Hz.
  clearbody acc0. intros l. revert acc0 H0.
  induction l as [|s l IH]; intros acc H; cbn [fold_left]; [exact H|].
  apply IH. apply Hstep. exact H.
Qed.

End TablesInduction.


(** ** What [attackedBy[c][ALL_PIECES]] and [attackedBy2[c]] hold *)

Lemma attack_step_fold_once (l : list Bitboard) (a t : Bitboard) (n : Z) :
  Z.testbit (fst (fold_left attack_step l (a, t))) n
  = Z.testbit a n || attacked_once l n.
Proof.
  revert a t. induction l as [|b l IH]; intros a t; cbn [fold_left attacked_once existsb].
  - cbn. rewrite orb_false_r. reflexivity.
  - unfold attack_step at 2. cbn [fst snd]. rewrite IH, Z.lor_spec.
    fold (attacked_once l n). rewrite orb_assoc. reflexivity.
Qed.

Lemma attack_step_fold_twice (l : list Bitboard) (a t : Bitboard) (n : Z) :
  Z.testbit (snd (fold_left attack_step l (a, t))) n
  = Z.testbit t n || (Z.testbit a n && attacked_once l n) || attacked_twice l n.
Proof.
  revert a t. induction l as [|b l IH]; intros a t;
    cbn [fold_left attacked_once attacked_twice existsb].
  - cbn. rewrite andb_false_r, !orb_false_r. reflexivity.
  - unfold attack_step at 2. cbn [fst snd].
    rewrite IH, !Z.lor_spec, Z.land_spec. fold (attacked_once l n).
    destruct (Z.testbit t n), (Z.testbit a n), (Z.testbit b n),
      (attacked_once l n), (attacked_twice l n); reflexivity.
Qed.

Lemma attack_step_fold_app (l1 l2 : list Bitboard) (acc : Bitboard * Bitboard) :
  fold_left attack_step (l1 ++ l2) acc
  = fold_left attack_step l2 (fold_left attack_step l1 acc).
Proof. apply fold_left_app. Qed.

Section AttackTables.
Context {TH : TypesH} {BH : BitboardH}.
Variable pos : Position.
Variable pe : PawnsEntry.
Variable piece_terms : Evaluation -> Color -> PieceType -> Square -> Bitboard -> Z -> Score.

(** The pair of tables of one colour. *)
Lemma pieces_step_tables (C c : Color) (Pt : PieceType) (acc : Score * Evaluation) (s : Square) :
  Pt <> ALL_PIECES ->
  tables_of (snd (pieces_step pos piece_terms C Pt acc s)) c
  = if Color_eqb c C
    then attack_step (tables_of (snd acc) c) (piece_attacks pos C Pt s)
    else tables_of (snd acc) c.
Proof.
  intros HPt. destruct acc as [score e]. unfold pieces_step, tables_of. cbn [snd].
  assert (Hall : forall f v, upd2 f C Pt v C ALL_PIECES = f C ALL_PIECES).
  { intros f v. apply upd2_other_type. intros E. apply HPt. symmetry. exact E. }
  destruct (nonzero (Z.land (piece_attacks pos C Pt s) (kingRing _ (opp C))));
    cbn [attackedBy attackedBy2 set_mobility set_counters set_attacks];
    destruct c, C; cbn [Color_eqb];
    unfold attack_step; cbn [fst snd];
    rewrite ?upd2_same, ?Hall, ?upd_same;
    try reflexivity;
    unfold upd2, upd; cbn [Color_eqb]; reflexivity.
Qed.

Lemma pieces_fold_tables (C c : Color) (Pt : PieceType) (l : list Square)
  (acc : Score * Evaluation) :
  Pt <> ALL_PIECES ->
  tables_of (snd (fold_left (pieces_step pos piece_terms C Pt) l acc)) c
  = if Color_eqb c C
    then fold_left attack_step (map (piece_attacks pos C Pt) l) (tables_of (snd acc) c)
    else tables_of (snd acc) c.
Proof.
  intros HPt. revert acc. induction l as [|s l IH]; intros acc; cbn [fold_left map].
  - destruct (Color_eqb c C); reflexivity.
  - rewrite IH, (pieces_step_tables C c Pt acc s HPt).
    destruct (Color_eqb c C); reflexivity.
Qed.

Lemma Evaluation_pieces_tables (C c : Color) (Pt : PieceType) (e : Evaluation) :
  Pt <> ALL_PIECES ->
  tables_of (snd (Evaluation_pieces pos piece_terms C Pt e)) c
  = if Color_eqb c C
    then fold_left attack_step (type_attacks pos C Pt) (tables_of e c)
    else tables_of e c.
Proof.
  intros HPt. unfold Evaluation_pieces. rewrite (pieces_fold_tables C c Pt _ _ HPt).
  cbn [snd]. unfold tables_of, type_attacks.
  cbn [attackedBy attackedBy2 set_attacks].
  assert (Hall : upd2 (attackedBy e) C Pt 0 c ALL_PIECES = attackedBy e c ALL_PIECES).
  { destruct c, C; try (apply upd2_other_type; intros E; apply HPt; symmetry; exact E);
      unfold upd2, upd; reflexivity. }
  rewrite Hall. reflexivity.
Qed.

Lemma hand_tables (C c : Color) (pt : PieceType) (e : Evaluation) :
  tables_of (snd (hand pos C pt e)) c = tables_of e c.
Proof.
  unfold hand, tables_of.
  destruct (negb (count_in_hand pos C pt =? 0)); [|reflexivity].
  cbn [snd]. destruct (nonzero _ && negb (pt =? SHOGI_PAWN)); reflexivity.
Qed.

Lemma pieces_round_tables (c : Color) (acc : (Color -> Score) * Evaluation) (pt : PieceType) :
  pt <> ALL_PIECES ->
  tables_of (snd (pieces_round pos piece_terms acc pt)) c
  = fold_left attack_step (type_attacks pos c pt) (tables_of (snd acc) c).
Proof.
  intros Hpt. destruct acc as [t e]. unfold pieces_round. cbn [snd].
  pose proof (Evaluation_pieces_tables WHITE c pt e Hpt) as Hw.
  destruct (Evaluation_pieces pos piece_terms WHITE pt e) as [w e1]. cbn [snd] in Hw.
  pose proof (Evaluation_pieces_tables BLACK c pt e1 Hpt) as Hb.
  destruct (Evaluation_pieces pos piece_terms BLACK pt e1) as [b e2]. cbn [snd] in Hb |- *.
  rewrite Hb, Hw. destruct c; reflexivity.
Qed.

Lemma rounds_tables (c : Color) (l : list PieceType) (acc : (Color -> Score) * Evaluation) :
  (forall pt, In pt l -> pt <> ALL_PIECES) ->
  tables_of (snd (fold_left (pieces_round pos piece_terms) l acc)) c
  = fold_left attack_step (flat_map (type_attacks pos c) l) (tables_of (snd acc) c).
Proof.
  revert acc. induction l as [|pt l IH]; intros acc Hl; cbn [fold_left flat_map].
  - reflexivity.
  - rewrite IH by (intros pt' Hin; apply Hl; right; exact Hin).
    rewrite pieces_round_tables by (apply Hl; left; reflexivity).
    rewrite attack_step_fold_app. reflexivity.
Qed.

Lemma hand_rounds_tables (c : Color) (l : list PieceType) (acc : (Color -> Score) * Evaluation) :
  tables_of (snd (fold_left (hand_round pos) l acc)) c = tables_of (snd acc) c.
Proof.
  revert acc. induction l as [|pt l IH]; intros acc; cbn [fold_left]; [reflexivity|].
  rewrite IH. destruct acc as [t e]. unfold hand_round. cbn [snd].
  pose proof (hand_tables WHITE c pt e) as Hw.
  destruct (hand pos WHITE pt e) as [w e1]. cbn [snd] in Hw.
  pose proof (hand_tables BLACK c pt e1) as Hb.
  destruct (hand pos BLACK pt e1) as [b e2]. cbn [snd] in Hb |- *.
  rewrite Hb, Hw. reflexivity.
Qed.

Lemma initialize_own_tables (Us : Color) (e : Evaluation) :
  QUEEN < KING ->
  tables_of (initialize pos pe Us e) Us
  = (Z.lor (if negb (count pos Us KING =? 0)
            then attacks_from pos Us KING (square pos Us KING) else 0)
           (pawn_attacks pe Us),
     Z.land (if negb (count pos Us KING =? 0)
             then attacks_from pos Us KING (square pos Us KING) else 0)
            (pawn_attacks pe Us)).
Proof.
  intros HK. unfold tables_of, initialize.
  set (aK := if negb (count pos Us KING =? 0)
             then attacks_from pos Us KING (square pos Us KING) else 0).
  set (ab2 := upd2 (upd2 (attackedBy (set_mobilityArea e _)) Us KING aK)
                   Us PAWN (pawn_attacks pe Us)).
  assert (HKING : ab2 Us KING = aK).
  { unfold ab2. rewrite upd2_other_type by (unfold PAWN, QUEEN in *; lia). apply upd2_same. }
  assert (HPAWN : ab2 Us PAWN = pawn_attacks pe Us) by (unfold ab2; apply upd2_same).
  destruct (king_safety_used pos Us);
    cbn [attackedBy attackedBy2 set_counters set_kingRing set_attacks];
    rewrite upd2_same, upd_same,
      (upd2_other_type ab2 Us ALL_PIECES KING) by (unfold ALL_PIECES, QUEEN in *; lia);
    rewrite (upd2_other_type ab2 Us ALL_PIECES PAWN) by (unfold ALL_PIECES, PAWN; lia);
    rewrite HKING, HPAWN; reflexivity.
Qed.

Lemma initialize_other_tables (Us : Color) (e : Evaluation) :
  tables_of (initialize pos pe Us e) (opp Us) = tables_of e (opp Us).
Proof.
  unfold tables_of, initialize.
  destruct (king_safety_used pos Us);
    cbn [attackedBy attackedBy2 set_counters set_kingRing set_attacks set_mobilityArea];
    rewrite !upd2_other_color, upd_other; reflexivity.
Qed.

Lemma initialize_tables (c : Color) (e0 : Evaluation) :
  QUEEN < KING ->
  tables_of (initialize pos pe BLACK (initialize pos pe WHITE (Evaluation_new e0))) c
  = fold_left attack_step
      [if negb (count pos c KING =? 0) then attacks_from pos c KING (square pos c KING) else 0;
       pawn_attacks pe c] (0, 0).
Proof.
  intros HK.
  assert (Hown : forall e, tables_of (initialize pos pe c e) c
                           = fold_left attack_step
                               [if negb (count pos c KING =? 0)
                                then attacks_from pos c KING (square pos c KING) else 0;
                                pawn_attacks pe c] (0, 0)).
  { intros e. rewrite (initialize_own_tables c e HK).
    cbn [fold_left]. unfold attack_step. cbn [fst snd].
    rewrite Z.lor_0_l, Z.land_0_l, Z.lor_0_l. reflexivity. }
  destruct c.
  - rewrite (initialize_other_tables BLACK). apply Hown.
  - apply Hown.
Qed.

(** X1: in the finished tables [attackedBy[c][ALL_PIECES]] holds exactly the
    squares that some attacker of [c] attacks, and [attackedBy2[c]] exactly
    the squares that two different attackers attack, where the attackers are
    the king, the pawns taken together, and each piece from the knight on:
    a square that only two pawns attack is not in [attackedBy2]. *)
Theorem attack_tables_meaning (e0 : Evaluation) (c : Color) (n : Z) :
  QUEEN < KING ->
  Z.testbit (attackedBy (snd (evaluation_tables pos pe piece_terms e0)) c ALL_PIECES) n
  = attacked_once (attack_sources pos pe c) n
  /\ Z.testbit (attackedBy2 (snd (evaluation_tables pos pe piece_terms e0)) c) n
     = attacked_twice (attack_sources pos pe c) n.
Proof.
  intros HK.
  assert (Ht : tables_of (snd (evaluation_tables pos pe piece_terms e0)) c
               = fold_left attack_step (attack_sources pos pe c) (0, 0)).
  { unfold evaluation_tables.
    set (e2 := initialize pos pe BLACK (initialize pos pe WHITE (Evaluation_new e0))).
    pose proof (rounds_tables c (pt_range KNIGHT KING) (fun _ => SCORE_ZERO, e2)) as H3.
    destruct (fold_left (pieces_round pos piece_terms) (pt_range KNIGHT KING)
                        (fun _ => SCORE_ZERO, e2)) as [tp e3].
    cbn [snd] in H3.
    assert (H3' : tables_of e3 c
                  = fold_left attack_step (attack_sources pos pe c) (0, 0)).
    { rewrite H3.
      - unfold e2. rewrite (initialize_tables c e0 HK). unfold attack_sources, piece_sources.
        change (?a :: ?b :: ?l) with ([a; b] ++ l).
        rewrite attack_step_fold_app. reflexivity.
      - intros pt Hin. apply pt_range_lower in Hin. unfold ALL_PIECES, KNIGHT in *. lia. }
    destruct (piece_drops pos).
    - pose proof (hand_rounds_tables c (pt_range PAWN KING) (fun _ => SCORE_ZERO, e3)) as H4.
      destruct (fold_left (hand_round pos) (pt_range PAWN KING) (fun _ => SCORE_ZERO, e3))
        as [th e4].
      cbn [snd] in H4 |- *. rewrite H4. exact H3'.
    - cbn [snd]. exact H3'. }
  unfold tables_of in Ht.
  split.
  - change (attackedBy (snd (evaluation_tables pos pe piece_terms e0)) c ALL_PIECES)
      with (fst (attackedBy (snd (evaluation_tables pos pe piece_terms e0)) c ALL_PIECES,
                 attackedBy2 (snd (evaluation_tables pos pe piece_terms e0)) c)).
    rewrite Ht, attack_step_fold_once. rewrite Z.bits_0. reflexivity.
  - change (attackedBy2 (snd (evaluation_tables pos pe piece_terms e0)) c)
      with (snd (attackedBy (snd (evaluation_tables pos pe piece_terms e0)) c ALL_PIECES,
                 attackedBy2 (snd (evaluation_tables pos pe piece_terms e0)) c)).
    rewrite Ht, attack_step_fold_twice. rewrite !Z.bits_0. reflexivity.
Qed.

End AttackTables.

(** ** What [pieces] and [hand] leave alone *)

Section TablesFrame.
Context {TH : TypesH} {BH : BitboardH}.
Variable pos : Position.
Variable pe : PawnsEntry.
Variable piece_terms : Evaluation -> Color -> PieceType -> Square -> Bitboard -> Z -> Score.

Lemma pieces_step_frame (C : Color) (Pt : PieceType) (acc : Score * Evaluation) (s : Square) :
  mobilityArea (snd (pieces_step pos piece_terms C Pt acc s)) = mobilityArea (snd acc)
  /\ kingRing (snd (pieces_step pos piece_terms C Pt acc s)) = kingRing (snd acc).
Proof.
  destruct acc as [score e]. unfold pieces_step. cbn [snd].
  destruct (nonzero (Z.land (piece_attacks pos C Pt s) (kingRing _ (opp C))));
    split; reflexivity.
Qed.

Lemma Evaluation_pieces_frame (C : Color) (Pt : PieceType) (e : Evaluation) :
  mobilityArea (snd (Evaluation_pieces pos piece_terms C Pt e)) = mobilityArea e
  /\ kingRing (snd (Evaluation_pieces pos piece_terms C Pt e)) = kingRing e.
Proof.
  apply (pieces_induction pos piece_terms
           (fun e' => mobilityArea e' = mobilityArea e /\ kingRing e' = kingRing e)).
  - split; reflexivity.
  - intros acc s [Hm Hk].
    destruct (pieces_step_frame C Pt acc s) as [-> ->]. split; assumption.
Qed.

Lemma hand_frame (C : Color) (pt : PieceType) (e : Evaluation) :
  mobilityArea (snd (hand pos C pt e)) = mobilityArea e
  /\ kingRing (snd (hand pos C pt e)) = kingRing e.
Proof.
  unfold hand. destruct (negb (count_in_hand pos C pt =? 0)); [|split; reflexivity].
  cbn [snd]. destruct (nonzero _ && negb (pt =? SHOGI_PAWN)); split; reflexivity.
Qed.

(** [pieces] and [hand] never write the mobility area or the king ring. *)
Lemma tables_frame (e0 : Evaluation) :
  mobilityArea (snd (evaluation_tables pos pe piece_terms e0))
  = mobilityArea (initialize pos pe BLACK (initialize pos pe WHITE (Evaluation_new e0)))
  /\ kingRing (snd (evaluation_tables pos pe piece_terms e0))
     = kingRing (initialize pos pe BLACK (initialize pos pe WHITE (Evaluation_new e0))).
Proof.
  set (e2 := initialize pos pe BLACK (initialize pos pe WHITE (Evaluation_new e0))).
  apply (tables_induction pos pe piece_terms
           (fun e' => mobilityArea e' = mobilityArea e2 /\ kingRing e' = kingRing e2)).
  - split; reflexivity.
  - intros C Pt e _ [Hm Hk].
    destruct (Evaluation_pieces_frame C Pt e) as [-> ->]. split; assumption.
  - intros C pt e [Hm Hk].
    destruct (hand_frame C pt e) as [-> ->]. split; assumption.
Qed.

Lemma initialize_other (Us : Color) (e : Evaluation) :
  mobilityArea (initialize pos pe Us e) (opp Us) = mobilityArea e (opp Us)
  /\ kingRing (initialize pos pe Us e) (opp Us) = kingRing e (opp Us).
Proof.
  unfold initialize.
  destruct (king_safety_used pos Us);
    cbn [mobilityArea kingRing set_counters set_kingRing set_attacks set_mobilityArea];
    split; apply upd_other.
Qed.

Lemma bb_subset_land_r (a b : Bitboard) : bb_subset (Z.land a b) b.
Proof. unfold bb_subset. apply Z.bits_inj'; intros n Hn. bit_cases. Qed.

Lemma bb_subset_land_both (a b c : Bitboard) :
  bb_subset a b -> bb_subset (Z.land a c) (Z.land b c).
Proof.
  unfold bb_subset. intros H. apply Z.bits_inj'; intros n Hn. bit_of H n. bit_cases.
Qed.

(** The king ring that [initialize<Us>] stores lies on the board, is empty
    when king safety is not evaluated, and otherwise holds the squares of
    the board that the king attacks. *)
Lemma initialize_kingRing (Us : Color) (e : Evaluation) :
  bb_subset (kingRing (initialize pos pe Us e) Us) (board_bb pos)
  /\ (king_safety_used pos Us = false -> kingRing (initialize pos pe Us e) Us = 0)
  /\ (QUEEN < KING -> king_safety_used pos Us = true ->
      bb_subset (Z.land (if negb (count pos Us KING =? 0)
                         then attacks_from pos Us KING (square pos Us KING) else 0)
                        (board_bb pos))
                (kingRing (initialize pos pe Us e) Us)).
Proof.
  unfold initialize.
  destruct (king_safety_used pos Us);
    cbn [kingRing set_counters set_kingRing set_attacks set_mobilityArea attackedBy];
    rewrite upd_same.
  - split; [apply bb_subset_land_r|]. split; [discriminate|intros HK _].
    rewrite (upd2_other_type _ Us ALL_PIECES KING)
      by (unfold ALL_PIECES, QUEEN in *; lia).
    rewrite (upd2_other_type _ Us PAWN KING) by (unfold PAWN, QUEEN in *; lia).
    rewrite upd2_same.
    apply bb_subset_land_both.
    destruct (relative_rank Us (rank_of (square pos Us KING)) (max_rank pos) =? RANK_1);
      destruct (file_of (square pos Us KING) =? max_file pos);
      destruct (file_of (square pos Us KING) =? FILE_A);
      repeat apply bb_subset_lor_l; apply bb_subset_refl.
  - split; [apply Z.land_0_l|]. split; [reflexivity|discriminate].
Qed.

(** X2: in the finished tables the mobility area and the king ring of either
    colour are the ones [initialize] computed: the area is the whole board
    under mandatory captures and otherwise avoids the own king, queen and
    low or blocked pawns; the ring lies on the board, is empty when king
    safety is not evaluated, and otherwise holds every square of the board
    that the king attacks. *)
Theorem finished_area_and_ring (e0 : Evaluation) (c : Color) :
  mobilityArea (snd (evaluation_tables pos pe piece_terms e0)) c
  = (if must_capture pos then AllSquares
     else bb_not (Z.lor (Z.lor (Z.lor (low_or_blocked_pawns pos c)
                                      (pieces_c_pt2 pos c KING QUEEN))
                               (pawn_attacks pe (opp c)))
                        (shift (Down c) (pieces_c_pt pos (opp c) SHOGI_PAWN))))
  /\ (must_capture pos = false ->
      Z.land (mobilityArea (snd (evaluation_tables pos pe piece_terms e0)) c)
             (Z.lor (pieces_c_pt2 pos c KING QUEEN) (low_or_blocked_pawns pos c)) = 0)
  /\ bb_subset (kingRing (snd (evaluation_tables pos pe piece_terms e0)) c) (board_bb pos)
  /\ (king_safety_used pos c = false ->
      kingRing (snd (evaluation_tables pos pe piece_terms e0)) c = 0)
  /\ (QUEEN < KING -> king_safety_used pos c = true ->
      bb_subset (Z.land (if negb (count pos c KING =? 0)
                         then attacks_from pos c KING (square pos c KING) else 0)
                        (board_bb pos))
                (kingRing (snd (evaluation_tables pos pe piece_terms e0)) c)).
Proof.
  destruct (tables_frame e0) as [Hm Hk]. rewrite Hm, Hk. clear Hm Hk.
  assert (Hc : exists e, mobilityArea (initialize pos pe BLACK
                                         (initialize pos pe WHITE (Evaluation_new e0))) c
                         = mobilityArea (initialize pos pe c e) c
                         /\ kingRing (initialize pos pe BLACK
                                        (initialize pos pe WHITE (Evaluation_new e0))) c
                            = kingRing (initialize pos pe c e) c).
  { destruct c.
    - exists (Evaluation_new e0).
      exact (initialize_other BLACK (initialize pos pe WHITE (Evaluation_new e0))).
    - exists (initialize pos pe WHITE (Evaluation_new e0)). split; reflexivity. }
  destruct Hc as (e & -> & ->).
  rewrite initialize_mobilityArea.
  destruct (initialize_kingRing c e) as (Hsub & Hzero & Hring).
  split; [reflexivity|]. split; [|split; [exact Hsub|split; [exact Hzero|exact Hring]]].
  intros Hmc. rewrite Hmc. bitwise.
Qed.

End TablesFrame.

(** ** What [kingAttackersCount] and [kingAttackersWeight] hold *)

Lemma count_step_fold (ring : Bitboard) (pt : PieceType) (l : list Bitboard) (n w : Z) :
  fold_left (count_step ring pt) l (n, Some w)
  = (n + ring_attacker_count ring l,
     Some (w + nth_int KingAttackWeights (Z.min pt QUEEN) * ring_attacker_count ring l)).
Proof.
  unfold ring_attacker_count. revert n w.
  induction l as [|b l IH]; intros n w; cbn [fold_left filter length].
  - cbn. f_equal; [lia | f_equal; lia].
  - unfold count_step at 2. destruct (nonzero (Z.land b ring)); cbn [fst snd bump].
    + rewrite IH. cbn [length]. rewrite Nat2Z.inj_succ. f_equal; [lia | f_equal; lia].
    + apply IH.
Qed.

Lemma ring_attacker_count_app (ring : Bitboard) (l1 l2 : list Bitboard) :
  ring_attacker_count ring (l1 ++ l2)
  = ring_attacker_count ring l1 + ring_attacker_count ring l2.
Proof.
  unfold ring_attacker_count. rewrite filter_app, length_app. apply Nat2Z.inj_add.
Qed.

Section Counters.
Context {TH : TypesH} {BH : BitboardH}.
Variable pos : Position.
Variable pe : PawnsEntry.
Variable piece_terms : Evaluation -> Color -> PieceType -> Square -> Bitboard -> Z -> Score.

Lemma pieces_step_counters (C c : Color) (Pt : PieceType) (acc : Score * Evaluation)
  (s : Square) :
  counters_of (snd (pieces_step pos piece_terms C Pt acc s)) c
  = if Color_eqb c C
    then count_step (kingRing (snd acc) (opp C)) Pt (counters_of (snd acc) c)
                    (piece_attacks pos C Pt s)
    else counters_of (snd acc) c.
Proof.
  destruct acc as [score e]. unfold pieces_step, counters_of, count_step. cbn [snd].
  cbn [kingRing set_attacks].
  destruct (nonzero (Z.land (piece_attacks pos C Pt s) (kingRing e (opp C))));
    cbn [kingAttackersCount kingAttackersWeight set_mobility set_counters set_attacks fst snd];
    destruct c, C; cbn [Color_eqb]; rewrite ?upd_same; try reflexivity;
    unfold upd; cbn [Color_eqb]; reflexivity.
Qed.

Lemma pieces_fold_counters (C c : Color) (Pt : PieceType) (l : list Square)
  (acc : Score * Evaluation) :
  counters_of (snd (fold_left (pieces_step pos piece_terms C Pt) l acc)) c
  = if Color_eqb c C
    then fold_left (count_step (kingRing (snd acc) (opp C)) Pt)
                   (map (piece_attacks pos C Pt) l) (counters_of (snd acc) c)
    else counters_of (snd acc) c.
Proof.
  revert acc. induction l as [|s l IH]; intros acc; cbn [fold_left map].
  - destruct (Color_eqb c C); reflexivity.
  - rewrite IH, (pieces_step_counters C c Pt acc s).
    destruct (pieces_step_frame pos piece_terms C Pt acc s) as [_ ->].
    destruct (Color_eqb c C); reflexivity.
Qed.

Lemma Evaluation_pieces_counters (C c : Color) (Pt : PieceType) (e : Evaluation) :
  counters_of (snd (Evaluation_pieces pos piece_terms C Pt e)) c
  = if Color_eqb c C
    then fold_left (count_step (kingRing e (opp C)) Pt) (type_attacks pos C Pt)
                   (counters_of e c)
    else counters_of e c.
Proof.
  unfold Evaluation_pieces. rewrite pieces_fold_counters. reflexivity.
Qed.

(** The counters of [c] after the rounds for the types of [l], when they
    start from a written weight. *)
Lemma rounds_counters (c : Color) (l : list PieceType) (acc : (Color -> Score) * Evaluation)
  (n w : Z) :
  counters_of (snd acc) c = (n, Some w) ->
  counters_of (snd (fold_left (pieces_round pos piece_terms) l acc)) c
  = (n + ring_attacker_count (kingRing (snd acc) (opp c))
                             (flat_map (type_attacks pos c) l),
     Some (fold_left (fun w pt => w + nth_int KingAttackWeights (Z.min pt QUEEN)
                                      * ring_attacker_count (kingRing (snd acc) (opp c))
                                                            (type_attacks pos c pt))
                     l w))
  /\ kingRing (snd (fold_left (pieces_round pos piece_terms) l acc)) = kingRing (snd acc).
Proof.
  revert acc n w. induction l as [|pt l IH]; intros acc n w Hacc; cbn [fold_left flat_map].
  - split; [|reflexivity]. rewrite Hacc. unfold ring_attacker_count. cbn. f_equal. lia.
  - assert (Hround :
             counters_of (snd (pieces_round pos piece_terms acc pt)) c
             = (n + ring_attacker_count (kingRing (snd acc) (opp c)) (type_attacks pos c pt),
                Some (w + nth_int KingAttackWeights (Z.min pt QUEEN)
                          * ring_attacker_count (kingRing (snd acc) (opp c))
                                                (type_attacks pos c pt)))
             /\ kingRing (snd (pieces_round pos piece_terms acc pt)) = kingRing (snd acc)).
    { destruct acc as [t e]. unfold pieces_round. cbn [snd] in *.
      pose proof (Evaluation_pieces_counters WHITE c pt e) as Hw.
      destruct (Evaluation_pieces_frame pos piece_terms WHITE pt e) as [_ Hkw].
      destruct (Evaluation_pieces pos piece_terms WHITE pt e) as [sw e1].
      cbn [snd] in Hw, Hkw.
      pose proof (Evaluation_pieces_counters BLACK c pt e1) as Hb.
      destruct (Evaluation_pieces_frame pos piece_terms BLACK pt e1) as [_ Hkb].
      destruct (Evaluation_pieces pos piece_terms BLACK pt e1) as [sb e2].
      cbn [snd] in Hb, Hkb |- *.
      split; [|rewrite Hkb, Hkw; reflexivity].
      rewrite Hb, Hw, Hkw. destruct c; cbn [Color_eqb opp];
        rewrite Hacc; apply count_step_fold. }
    destruct Hround as [Hc Hk].
    destruct (IH _ _ _ Hc) as [IHc IHk].
    split; [|rewrite IHk; exact Hk].
    rewrite IHc, Hk, ring_attacker_count_app. f_equal. lia.
Qed.

Lemma initialize_counters_written (Us : Color) (e : Evaluation) :
  king_safety_used pos Us = true ->
  counters_of (initialize pos pe Us e) (opp Us)
  = (popcount (Z.land (kingRing (initialize pos pe Us e) Us) (pawn_attacks pe (opp Us))),
     Some 0).
Proof.
  intros Hu. unfold counters_of, initialize. rewrite Hu.
  cbn [kingAttackersCount kingAttackersWeight kingRing set_counters set_kingRing].
  rewrite !upd_same. reflexivity.
Qed.

Lemma initialize_counters_kept (Us : Color) (e : Evaluation) :
  counters_of (initialize pos pe Us e) Us = counters_of e Us.
Proof.
  unfold counters_of, initialize.
  destruct (king_safety_used pos Us);
    cbn [kingAttackersCount kingAttackersWeight set_counters set_kingRing set_attacks
         set_mobilityArea];
    rewrite ?upd_opp; reflexivity.
Qed.

Lemma initialize_counters_of (c : Color) (e0 : Evaluation) :
  king_safety_used pos (opp c) = true ->
  counters_of (initialize pos pe BLACK (initialize pos pe WHITE (Evaluation_new e0))) c
  = (popcount (Z.land (kingRing (initialize pos pe BLACK
                                   (initialize pos pe WHITE (Evaluation_new e0))) (opp c))
                      (pawn_attacks pe c)),
     Some 0).
Proof.
  intros Hu. destruct c; cbn [opp] in Hu |- *.
  - exact (initialize_counters_written BLACK _ Hu).
  - rewrite initialize_counters_kept.
    destruct (initialize_other pos pe BLACK (initialize pos pe WHITE (Evaluation_new e0)))
      as [_ Hk].
    cbn [opp] in Hk. rewrite Hk.
    exact (initialize_counters_written WHITE _ Hu).
Qed.

(** X3: without drops, and when king safety is evaluated for the other colour,
    [kingAttackersCount[c]] in the finished tables is the number of squares
    of the enemy king ring that the pawns of [c] attack plus the number of
    pieces of [c] whose attack set meets that ring, and
    [kingAttackersWeight[c]] is the sum of the weights of those pieces. *)
Theorem king_attackers_meaning (e0 : Evaluation) (c : Color) :
  piece_drops pos = false ->
  king_safety_used pos (opp c) = true ->
  let e := snd (evaluation_tables pos pe piece_terms e0) in
  kingAttackersCount e c
  = popcount (Z.land (kingRing e (opp c)) (pawn_attacks pe c))
    + ring_attacker_count (kingRing e (opp c)) (piece_sources pos c)
  /\ kingAttackersWeight e c = Some (ring_attacker_weight pos c (kingRing e (opp c))).
Proof.
  intros Hd Hu e.
  destruct (tables_frame pos pe piece_terms e0) as [_ Hk]. fold e in Hk.
  assert (He : counters_of e c
               = (popcount (Z.land (kingRing e (opp c)) (pawn_attacks pe c))
                  + ring_attacker_count (kingRing e (opp c)) (piece_sources pos c),
                  Some (ring_attacker_weight pos c (kingRing e (opp c))))).
  { rewrite Hk. unfold e, evaluation_tables. rewrite Hd.
    set (e2 := initialize pos pe BLACK (initialize pos pe WHITE (Evaluation_new e0))).
    destruct (rounds_counters c (pt_range KNIGHT KING) (fun _ => SCORE_ZERO, e2) _ _
                (initialize_counters_of c e0 Hu)) as [H3 _].
    destruct (fold_left (pieces_round pos piece_terms) (pt_range KNIGHT KING)
                        (fun _ => SCORE_ZERO, e2)) as [tp e3].
    cbn [snd] in H3 |- *. exact H3. }
  unfold counters_of in He. split.
  - exact (f_equal fst He).
  - exact (f_equal snd He).
Qed.

End Counters.

(** ** Bounds on the king safety score *)

Lemma pos_popcount_pos (p : positive) : 0 < pos_popcount p.
Proof. induction p; cbn [pos_popcount]; lia. Qed.

Lemma popcount_nonneg (b : Bitboard) : 0 <= popcount b.
Proof.
  destruct b as [|p|p]; cbn [popcount]; try lia.
  pose proof (pos_popcount_pos p). lia.
Qed.

Lemma popcount_zero_iff (b : Bitboard) : 0 <= b -> (popcount b = 0 <-> b = 0).
Proof.
  intros Hb. destruct b as [|p|p]; cbn [popcount].
  - tauto.
  - pose proof (pos_popcount_pos p). split; [lia | discriminate].
  - lia.
Qed.

Section KingBounds.
Context {TH : TypesH} {BH : BitboardH}.
Variable pos : Position.
Variable pe : PawnsEntry.
Variable e : Evaluation.
Variable Us : Color.

Lemma attack_scale_pos : 1 <= attack_scale pos.
Proof.
  unfold attack_scale.
  destruct (captures_to_hand pos); destruct (negb (max_check_count pos =? 0));
    cbn [Z.b2z]; lia.
Qed.

(** The danger units never raise the score: the penalty lies between 0 and
    3000 in the middlegame, is not negative in the endgame, and is nothing
    at all when the units are not positive. *)
Lemma king_danger_penalty_bounds (score : Score) (kingDanger : Z) :
  mg_value score - 3000 <= mg_value (king_danger_penalty e Us score kingDanger)
                        <= mg_value score
  /\ eg_value (king_danger_penalty e Us score kingDanger) <= eg_value score
  /\ (kingDanger <= 0 -> king_danger_penalty e Us score kingDanger = score).
Proof.
  unfold king_danger_penalty.
  destruct (Z.ltb_spec 0 kingDanger) as [Hpos | Hneg].
  - set (kd := Z.max 0 (kingDanger + mg_value (mobility e (opp Us) - mobility e Us)%S)).
    assert (Hkd : 0 <= kd) by (unfold kd; lia).
    cbn [score_sub mg_value eg_value].
    assert (H1 : 0 <= Z.quot (kd * kd) 4096) by (apply Z.quot_pos; nia).
    assert (H2 : 0 <= Z.quot kd 16) by (apply Z.quot_pos; lia).
    split; [lia|]. split; [lia|]. intros H. lia.
  - split; [lia|]. split; [lia|]. reflexivity.
Qed.

Lemma king_tropism_bounds (ksq : Square) (score : Score) :
  mg_value (king_tropism pos e Us ksq score) <= mg_value score
  /\ eg_value (king_tropism pos e Us ksq score) <= eg_value score.
Proof.
  unfold king_tropism.
  set (kf := if max_file pos =? FILE_H then _ else _).
  set (Camp := Z.lxor AllSquares _).
  set (b1 := Z.land (Z.land (attackedBy e (opp Us) ALL_PIECES) kf) Camp).
  set (b2 := Z.land (Z.land b1 _) _).
  pose proof (popcount_nonneg b1) as H1. pose proof (popcount_nonneg b2) as H2.
  pose proof attack_scale_pos as Hs.
  destruct (negb (nonzero (Z.land (pieces_pt pos PAWN) kf)));
    cbn [score_sub score_mul mg_value eg_value CloseEnemies PawnlessFlank]; split; nia.
Qed.

(** X6: when captured pieces do not go to the hand, everything that [king]
    does to the shelter score of the pawn entry is a penalty: the score it
    returns is at most the shelter score, in the middlegame and in the
    endgame. *)
Theorem king_only_penalises (s : Score) :
  captures_to_hand pos = false ->
  count pos Us KING <> 0 ->
  checking_permitted pos = true ->
  king pos pe e Us = Some s ->
  mg_value s <= mg_value (king_safety pe Us (square pos Us KING))
  /\ eg_value s <= eg_value (king_safety pe Us (square pos Us KING)).
Proof.
  intros Hc Hk Hchk. unfold king.
  apply Z.eqb_neq in Hk. rewrite Hk, Hchk. cbn [orb negb].
  set (ksq := square pos Us KING). set (score := king_safety pe Us ksq).
  assert (Hflank : forall sc, mg_value (king_flank pos e Us ksq sc) <= mg_value sc
                              /\ eg_value (king_flank pos e Us ksq sc) <= eg_value sc).
  { intros sc. unfold king_flank, king_drop_collapse. rewrite Hc.
    apply king_tropism_bounds. }
  destruct (king_danger_guard pos e Us).
  - destruct (kingAttackersWeight e (opp Us)) as [w|]; [|discriminate].
    destruct (kingAttacksCount e (opp Us)) as [a|]; [|discriminate].
    intros [= <-].
    destruct (Hflank (king_danger_penalty e Us score
                        (king_danger_units pos e Us ksq score w a))) as [Hm He].
    destruct (king_danger_penalty_bounds score
                (king_danger_units pos e Us ksq score w a)) as (Hpm & Hpe & _).
    lia.
  - intros [= <-]. apply Hflank.
Qed.

End KingBounds.

(** ** Passed pawns: empty inputs and the promotion scale *)

Lemma bb_squares_zero : bb_squares 0 = [].
Proof.
  unfold bb_squares.
  induction (map Z.of_nat (seq 0 64)) as [|x l IH]; cbn [filter]; [reflexivity|].
  rewrite Z.bits_0. exact IH.
Qed.

Section PassedEdges.
Context {TH : TypesH} {BH : BitboardH}.
Variable pos : Position.
Variable pe : PawnsEntry.
Variable e : Evaluation.
Variable Us : Color.

(** X7: [passed] is [SCORE_ZERO] when the pawn entry reports no passed pawn,
    and also when the variant has no promotion piece type, whatever the
    pawns. *)
Theorem passed_nothing_to_score :
  passed_pawns pe Us = 0 \/ promotion_piece_types pos = [] ->
  passed pos pe e Us = SCORE_ZERO.
Proof.
  intros [H | H]; unfold passed.
  - rewrite H, bb_squares_zero. cbn [fold_left SCORE_ZERO mg_value eg_value].
    rewrite !Z.mul_0_l, !Zquot.Zquot_0_l. reflexivity.
  - rewrite H. cbn [fold_left]. rewrite !Z.mul_0_r, !Zquot.Zquot_0_l. reflexivity.
Qed.


End PassedEdges.

(** ** Initiative: symmetry and size *)

Section InitiativeMore.
Context {TH : TypesH} {BH : BitboardH}.
Variable pos : Position.
Variable pe : PawnsEntry.

(** X9: the initiative is an odd function of the endgame value, it vanishes
    with it, and where it is computed it changes the size of the endgame
    value by [max(complexity, -|eg|)]. *)
Theorem initiative_odd_and_size (eg : Value) :
  initiative pos pe (- eg) = score_neg (initiative pos pe eg)
  /\ initiative pos pe 0 = SCORE_ZERO
  /\ (initiative_skipped pos = false ->
      Z.abs (eg + eg_value (initiative pos pe eg))
      = Z.abs eg + (if eg =? 0 then 0
                    else Z.max (initiative_complexity pos pe) (- Z.abs eg))).
Proof.
  unfold initiative. destruct (initiative_skipped pos).
  - split; [reflexivity|]. split; [reflexivity|discriminate].
  - split; [|split].
    + unfold score_neg. cbn. f_equal. rewrite Z.abs_opp.
      destruct (Z.ltb_spec 0 eg); destruct (Z.ltb_spec eg 0);
        destruct (Z.ltb_spec 0 (- eg)); destruct (Z.ltb_spec (- eg) 0);
        cbn [Z.b2z]; lia.
    + reflexivity.
    + intros _. cbn [eg_value].
      destruct (Z.eqb_spec eg 0) as [-> | Hne]; [reflexivity|].
      destruct (Z.ltb_spec 0 eg); destruct (Z.ltb_spec eg 0); cbn [Z.b2z]; lia.
Qed.

End InitiativeMore.

(** * Placing, removing and moving pieces *)

Module MutableFacts.
Import Mutable.

Lemma updZ_same {A : Type} (f : Z -> A) (k : Z) (v : A) : updZ f k v k = v.
Proof. unfold updZ. rewrite Z.eqb_refl. reflexivity. Qed.

Lemma updZ_other {A : Type} (f : Z -> A) (k k' : Z) (v : A) :
  k' <> k -> updZ f k v k' = f k'.
Proof. unfold updZ. intros H. apply Z.eqb_neq in H. rewrite H. reflexivity. Qed.

Lemma Color_eqb_eq (a b : Color) : Color_eqb a b = true <-> a = b.
Proof. destruct a, b; cbn; split; intros H; try reflexivity; discriminate. Qed.

Lemma Color_eqb_spec (a b : Color) : reflect (a = b) (Color_eqb a b).
Proof.
  destruct (Color_eqb a b) eqn:E; constructor.
  - apply Color_eqb_eq. exact E.
  - intros H. apply Color_eqb_eq in H. congruence.
Qed.

(** Reading an array of arrays after one write. *)
Lemma updList_read (f : Color -> PieceType -> Z -> Square) (c : Color) (pt : PieceType)
  (k : Z) (v : Square) (c' : Color) (pt' : PieceType) (k' : Z) :
  updList f c pt k v c' pt' k'
  = if Color_eqb c' c && (pt' =? pt) && (k' =? k) then v else f c' pt' k'.
Proof.
  unfold updList, upd, updT, updZ.
  destruct (Color_eqb_spec c' c) as [-> | Hc]; cbn [andb]; [|reflexivity].
  destruct (Z.eqb_spec pt' pt) as [-> | Hp]; cbn [andb]; reflexivity.
Qed.

Lemma upd2_read (f : Color -> PieceType -> Z) (c : Color) (pt : PieceType) (v : Z)
  (c' : Color) (pt' : PieceType) :
  upd2 f c pt v c' pt' = if Color_eqb c' c && (pt' =? pt) then v else f c' pt'.
Proof.
  unfold upd2, upd, updT.
  destruct (Color_eqb_spec c' c) as [-> | Hc]; cbn [andb]; reflexivity.
Qed.

(** The bit [k] of an equation between bitboards. *)
Ltac at_bit H k :=
  let B := fresh "B" in
  pose proof (f_equal (fun z => Z.testbit z k) H) as B; cbv beta in B;
  repeat rewrite ?Z.land_spec, ?Z.lor_spec, ?Z.lxor_spec, ?Z.bits_0 in B.

Ltac by_bits :=
  repeat rewrite ?Z.land_spec, ?Z.lor_spec, ?Z.lxor_spec, ?Z.bits_0;
  repeat match goal with
         | B : context [Z.testbit ?x ?k] |- _ => destruct (Z.testbit x k)
         | |- context [Z.testbit ?x ?k] => destruct (Z.testbit x k)
         end;
  cbn [andb orb xorb] in *; congruence.

Section Bitboards.
Context {TH : TypesH} {BH : BitboardH}.

(** The bitboards after a set [m] of free squares has been given to the
    type [pt] and the colour [c]. *)
Lemma bitboards_ok_add (t t' : Pieces) (c : Color) (pt : PieceType) (m : Bitboard) :
  bitboards_ok t ->
  pt <> ALL_PIECES ->
  Z.land m (byTypeBB t ALL_PIECES) = 0 ->
  (forall p, byTypeBB t' p
             = if (p =? pt) || (p =? ALL_PIECES) then Z.lor (byTypeBB t p) m
               else byTypeBB t p) ->
  (forall c', byColorBB t' c'
              = if Color_eqb c' c then Z.lor (byColorBB t c') m else byColorBB t c') ->
  bitboards_ok t'.
Proof.
  intros (Hsub & Hdis & Hcol & Hall) Hpt Hfree HT HC.
  unfold bitboards_ok. split; [|split; [|split]].
  - intros p. rewrite (HT p), (HT ALL_PIECES). rewrite Z.eqb_refl, orb_true_r.
    apply Z.bits_inj'; intros k Hk. at_bit (Hsub p) k.
    destruct ((p =? pt) || (p =? ALL_PIECES)); by_bits.
  - intros p1 p2 H1 H2 H12. rewrite (HT p1), (HT p2).
    apply Z.eqb_neq in H1 as E1. apply Z.eqb_neq in H2 as E2. rewrite E1, E2, !orb_false_r.
    apply Z.bits_inj'; intros k Hk.
    at_bit (Hdis p1 p2 H1 H2 H12) k. at_bit (Hsub p1) k. at_bit (Hsub p2) k. at_bit Hfree k.
    destruct (Z.eqb_spec p1 pt) as [-> | N1]; destruct (Z.eqb_spec p2 pt) as [-> | N2];
      try contradiction; by_bits.
  - rewrite (HC WHITE), (HC BLACK).
    apply Z.bits_inj'; intros k Hk. at_bit Hcol k. at_bit Hall k. at_bit Hfree k.
    destruct c; cbn [Color_eqb]; by_bits.
  - rewrite (HC WHITE), (HC BLACK), (HT ALL_PIECES), Z.eqb_refl, orb_true_r.
    apply Z.bits_inj'; intros k Hk. at_bit Hall k.
    destruct c; cbn [Color_eqb]; by_bits.
Qed.

(** The bitboards after a set [m] of squares of the type [pt] and the
    colour [c] has been taken away. *)
Lemma bitboards_ok_sub (t t' : Pieces) (c : Color) (pt : PieceType) (m : Bitboard) :
  bitboards_ok t ->
  pt <> ALL_PIECES ->
  Z.land m (byTypeBB t pt) = m ->
  Z.land m (byColorBB t c) = m ->
  (forall p, byTypeBB t' p
             = if (p =? pt) || (p =? ALL_PIECES) then Z.lxor (byTypeBB t p) m
               else byTypeBB t p) ->
  (forall c', byColorBB t' c'
              = if Color_eqb c' c then Z.lxor (byColorBB t c') m else byColorBB t c') ->
  bitboards_ok t'.
Proof.
  intros (Hsub & Hdis & Hcol & Hall) Hpt Hty Hco HT HC.
  unfold bitboards_ok. split; [|split; [|split]].
  - intros p. rewrite (HT p), (HT ALL_PIECES). rewrite Z.eqb_refl, orb_true_r.
    apply Z.bits_inj'; intros k Hk. at_bit (Hsub p) k. at_bit (Hsub pt) k. at_bit Hty k.
    destruct (Z.eqb_spec p pt) as [-> | N1]; cbn [orb]; [by_bits|].
    destruct (Z.eqb_spec p ALL_PIECES) as [-> | N2]; [by_bits|].
    at_bit (Hdis p pt N2 Hpt N1) k. by_bits.
  - intros p1 p2 H1 H2 H12. rewrite (HT p1), (HT p2).
    apply Z.eqb_neq in H1 as E1. apply Z.eqb_neq in H2 as E2. rewrite E1, E2, !orb_false_r.
    apply Z.bits_inj'; intros k Hk.
    at_bit (Hdis p1 p2 H1 H2 H12) k. at_bit Hty k.
    destruct (Z.eqb_spec p1 pt) as [-> | N1]; destruct (Z.eqb_spec p2 pt) as [-> | N2];
      try contradiction; by_bits.
  - rewrite (HC WHITE), (HC BLACK).
    apply Z.bits_inj'; intros k Hk. at_bit Hcol k. at_bit Hco k.
    destruct c; cbn [Color_eqb]; by_bits.
  - rewrite (HC WHITE), (HC BLACK), (HT ALL_PIECES), Z.eqb_refl, orb_true_r.
    apply Z.bits_inj'; intros k Hk. at_bit Hall k. at_bit Hcol k. at_bit Hco k.
    destruct c; cbn [Color_eqb]; by_bits.
Qed.

Lemma put_piece_byTypeBB (c : Color) (pt : PieceType) (s : Square) (t : Pieces)
  (p : PieceType) :
  pt <> ALL_PIECES ->
  byTypeBB (put_piece (c, pt) s t) p
  = if (p =? pt) || (p =? ALL_PIECES) then Z.lor (byTypeBB t p) (SquareBB s)
    else byTypeBB t p.
Proof.
  intros Hpt. unfold put_piece. cbn [byTypeBB fst snd]. unfold updT.
  apply Z.eqb_neq in Hpt as E. rewrite E.
  destruct (Z.eqb_spec p pt) as [-> | N]; cbn [orb]; [reflexivity|].
  destruct (Z.eqb_spec p ALL_PIECES) as [-> | N']; reflexivity.
Qed.

Lemma put_piece_byColorBB (c : Color) (pt : PieceType) (s : Square) (t : Pieces)
  (c' : Color) :
  byColorBB (put_piece (c, pt) s t) c'
  = if Color_eqb c' c then Z.lor (byColorBB t c') (SquareBB s) else byColorBB t c'.
Proof.
  unfold put_piece. cbn [byColorBB fst snd]. unfold upd.
  destruct (Color_eqb_spec c' c) as [-> | N]; reflexivity.
Qed.

Lemma remove_piece_byTypeBB (c : Color) (pt : PieceType) (s : Square) (t : Pieces)
  (p : PieceType) :
  pt <> ALL_PIECES ->
  byTypeBB (remove_piece (c, pt) s t) p
  = if (p =? pt) || (p =? ALL_PIECES) then Z.lxor (byTypeBB t p) (SquareBB s)
    else byTypeBB t p.
Proof.
  intros Hpt. unfold remove_piece. cbn [byTypeBB fst snd]. unfold updT.
  apply Z.eqb_neq in Hpt as E. rewrite E.
  destruct (Z.eqb_spec p pt) as [-> | N]; cbn [orb]; [reflexivity|].
  destruct (Z.eqb_spec p ALL_PIECES) as [-> | N']; reflexivity.
Qed.

Lemma remove_piece_byColorBB (c : Color) (pt : PieceType) (s : Square) (t : Pieces)
  (c' : Color) :
  byColorBB (remove_piece (c, pt) s t) c'
  = if Color_eqb c' c then Z.lxor (byColorBB t c') (SquareBB s) else byColorBB t c'.
Proof.
  unfold remove_piece. cbn [byColorBB fst snd]. unfold upd.
  destruct (Color_eqb_spec c' c) as [-> | N]; reflexivity.
Qed.

Lemma move_piece_byTypeBB (c : Color) (pt : PieceType) (from to : Square) (t : Pieces)
  (p : PieceType) :
  pt <> ALL_PIECES ->
  byTypeBB (move_piece (c, pt) from to t) p
  = if (p =? pt) || (p =? ALL_PIECES)
    then Z.lxor (byTypeBB t p) (Z.lxor (SquareBB from) (SquareBB to))
    else byTypeBB t p.
Proof.
  intros Hpt. unfold move_piece. cbn [byTypeBB fst snd]. unfold updT.
  apply Z.eqb_neq in Hpt as E. rewrite E.
  destruct (Z.eqb_spec p pt) as [-> | N]; cbn [orb]; [reflexivity|].
  destruct (Z.eqb_spec p ALL_PIECES) as [-> | N']; reflexivity.
Qed.

Lemma move_piece_byColorBB (c : Color) (pt : PieceType) (from to : Square) (t : Pieces)
  (c' : Color) :
  byColorBB (move_piece (c, pt) from to t) c'
  = if Color_eqb c' c
    then Z.lxor (byColorBB t c') (Z.lxor (SquareBB from) (SquareBB to))
    else byColorBB t c'.
Proof.
  unfold move_piece. cbn [byColorBB fst snd]. unfold upd.
  destruct (Color_eqb_spec c' c) as [-> | N]; reflexivity.
Qed.

(** X14: the bitboards stay consistent when a piece is put on a free square. *)
Theorem put_piece_bitboards (c : Color) (pt : PieceType) (s : Square) (t : Pieces) :
  bitboards_ok t ->
  pt <> ALL_PIECES ->
  Z.land (SquareBB s) (byTypeBB t ALL_PIECES) = 0 ->
  bitboards_ok (put_piece (c, pt) s t).
Proof.
  intros Hok Hpt Hfree.
  apply (bitboards_ok_add t _ c pt (SquareBB s) Hok Hpt Hfree).
  - intros p. apply put_piece_byTypeBB. exact Hpt.
  - intros c'. apply put_piece_byColorBB.
Qed.

(** X15: the bitboards stay consistent when a piece is removed from a square
    where its type and its colour have it. *)
Theorem remove_piece_bitboards (c : Color) (pt : PieceType) (s : Square) (t : Pieces) :
  bitboards_ok t ->
  pt <> ALL_PIECES ->
  Z.land (SquareBB s) (byTypeBB t pt) = SquareBB s ->
  Z.land (SquareBB s) (byColorBB t c) = SquareBB s ->
  bitboards_ok (remove_piece (c, pt) s t).
Proof.
  intros Hok Hpt Hty Hco.
  apply (bitboards_ok_sub t _ c pt (SquareBB s) Hok Hpt Hty Hco).
  - intros p. apply remove_piece_byTypeBB. exact Hpt.
  - intros c'. apply remove_piece_byColorBB.
Qed.

(** X16: as far as the bitboards go, moving a piece to a free square is
    removing it and putting it there, and the bitboards stay consistent. *)
Theorem move_piece_bitboards (c : Color) (pt : PieceType) (from to : Square) (t : Pieces) :
  bitboards_ok t ->
  pt <> ALL_PIECES ->
  Z.land (SquareBB from) (byTypeBB t pt) = SquareBB from ->
  Z.land (SquareBB from) (byColorBB t c) = SquareBB from ->
  Z.land (SquareBB to) (byTypeBB t ALL_PIECES) = 0 ->
  (forall p, byTypeBB (move_piece (c, pt) from to t) p
             = byTypeBB (put_piece (c, pt) to (remove_piece (c, pt) from t)) p)
  /\ (forall c', byColorBB (move_piece (c, pt) from to t) c'
                 = byColorBB (put_piece (c, pt) to (remove_piece (c, pt) from t)) c')
  /\ bitboards_ok (move_piece (c, pt) from to t).
Proof.
  intros Hok Hpt Hty Hco Hfree.
  assert (Hrem : bitboards_ok (remove_piece (c, pt) from t)).
  { apply (bitboards_ok_sub t _ c pt (SquareBB from) Hok Hpt Hty Hco).
    - intros p. apply remove_piece_byTypeBB. exact Hpt.
    - intros c'. apply remove_piece_byColorBB. }
  destruct Hok as (Hsub & Hdis & Hcol & Hall).
  assert (HT : forall p, byTypeBB (move_piece (c, pt) from to t) p
                         = byTypeBB (put_piece (c, pt) to (remove_piece (c, pt) from t)) p).
  { intros p. rewrite move_piece_byTypeBB, put_piece_byTypeBB, remove_piece_byTypeBB
      by exact Hpt.
    destruct ((p =? pt) || (p =? ALL_PIECES)); [|reflexivity].
    apply Z.bits_inj'; intros k Hk.
    at_bit (Hsub p) k. at_bit (Hsub pt) k. at_bit Hty k. at_bit Hfree k. by_bits. }
  assert (HC : forall c', byColorBB (move_piece (c, pt) from to t) c'
                          = byColorBB (put_piece (c, pt) to (remove_piece (c, pt) from t)) c').
  { intros c'. rewrite move_piece_byColorBB, put_piece_byColorBB, remove_piece_byColorBB.
    destruct (Color_eqb c' c); [|reflexivity].
    apply Z.bits_inj'; intros k Hk.
    at_bit Hall k. at_bit Hco k. at_bit Hfree k. at_bit Hcol k.
    destruct c, c'; by_bits. }
  split; [exact HT|]. split; [exact HC|].
  assert (Hfree' : Z.land (SquareBB to) (byTypeBB (remove_piece (c, pt) from t) ALL_PIECES)
                   = 0).
  { rewrite remove_piece_byTypeBB by exact Hpt. rewrite Z.eqb_refl, orb_true_r.
    apply Z.bits_inj'; intros k Hk.
    at_bit (Hsub pt) k. at_bit Hty k. at_bit Hfree k. by_bits. }
  apply (bitboards_ok_add (remove_piece (c, pt) from t) _ c pt (SquareBB to) Hrem Hpt Hfree').
  - intros p. rewrite HT. apply put_piece_byTypeBB. exact Hpt.
  - intros c'. rewrite HC. apply put_piece_byColorBB.
Qed.

End Bitboards.

End MutableFacts.

Module ListFacts.
Import Mutable.
Import MutableFacts.

Section Lists.
Context {TH : TypesH} {BH : BitboardH}.

Lemma put_piece_count (c : Color) (pt : PieceType) (s : Square) (t : Pieces)
  (c' : Color) (pt' : PieceType) :
  pt' <> ALL_PIECES ->
  pieceCount (put_piece (c, pt) s t) c' pt'
  = if Color_eqb c' c && (pt' =? pt) then pieceCount t c' pt' + 1 else pieceCount t c' pt'.
Proof.
  intros Hpt'. unfold put_piece. cbn [pieceCount fst snd].
  rewrite !upd2_read. apply Z.eqb_neq in Hpt'. rewrite Hpt', andb_false_r.
  destruct (Color_eqb_spec c' c) as [-> | Hc]; cbn [andb]; [|reflexivity].
  destruct (Z.eqb_spec pt' pt) as [-> | Hp]; reflexivity.
Qed.

Lemma put_piece_list (c : Color) (pt : PieceType) (s : Square) (t : Pieces)
  (c' : Color) (pt' : PieceType) (i : Z) :
  pieceList (put_piece (c, pt) s t) c' pt' i
  = if Color_eqb c' c && (pt' =? pt) && (i =? pieceCount t c pt) then s
    else pieceList t c' pt' i.
Proof.
  unfold put_piece. cbn [pieceList fst snd]. rewrite updList_read, updZ_same. reflexivity.
Qed.

(** X17: putting a piece on an empty square keeps the piece lists in step with
    [index] and [board], appends the square to the list of the piece and
    leaves every other entry where it was. *)
Theorem put_piece_lists (c : Color) (pt : PieceType) (s : Square) (t : Pieces) :
  lists_ok t ->
  pt <> ALL_PIECES ->
  board t s = NO_PIECE ->
  0 <= pieceCount t c pt ->
  lists_ok (put_piece (c, pt) s t)
  /\ stands (put_piece (c, pt) s t) c pt s
  /\ pieceList (put_piece (c, pt) s t) c pt (pieceCount t c pt) = s
  /\ (forall c' pt' i, pt' <> ALL_PIECES -> 0 <= i < pieceCount t c' pt' ->
                       pieceList (put_piece (c, pt) s t) c' pt' i = pieceList t c' pt' i).
Proof.
  intros Hok Hpt Hfree Hcnt.
  assert (Hold : forall c' pt' i, pt' <> ALL_PIECES -> 0 <= i < pieceCount t c' pt' ->
                   pieceList (put_piece (c, pt) s t) c' pt' i = pieceList t c' pt' i).
  { intros c' pt' i Hpt' Hi. rewrite put_piece_list.
    destruct (Color_eqb_spec c' c) as [-> | Hc]; cbn [andb]; [|reflexivity].
    destruct (Z.eqb_spec pt' pt) as [-> | Hp]; cbn [andb]; [|reflexivity].
    destruct (Z.eqb_spec i (pieceCount t c pt)); [lia|reflexivity]. }
  assert (Hnew : pieceList (put_piece (c, pt) s t) c pt (pieceCount t c pt) = s).
  { rewrite put_piece_list.
    destruct (Color_eqb_spec c c) as [_ | Hc]; [|contradiction].
    rewrite !Z.eqb_refl. reflexivity. }
  assert (Hidx : index (put_piece (c, pt) s t) s = pieceCount t c pt).
  { unfold put_piece. cbn [index fst snd]. apply updZ_same. }
  assert (Hbrd : board (put_piece (c, pt) s t) s = Some (c, pt)).
  { unfold put_piece. cbn [board]. apply updZ_same. }
  assert (Hcount : pieceCount (put_piece (c, pt) s t) c pt = pieceCount t c pt + 1).
  { rewrite put_piece_count by exact Hpt.
    destruct (Color_eqb_spec c c) as [_ | Hc]; [|contradiction].
    rewrite Z.eqb_refl. reflexivity. }
  split; [|split; [|split; [exact Hnew|exact Hold]]].
  - intros c' pt' i Hpt' Hi. rewrite put_piece_count in Hi by exact Hpt'.
    assert (Hcases : (c' = c /\ pt' = pt /\ i = pieceCount t c pt)
                     \/ 0 <= i < pieceCount t c' pt').
    { destruct (Color_eqb_spec c' c) as [-> | Hc]; cbn [andb] in Hi; [|right; exact Hi].
      destruct (Z.eqb_spec pt' pt) as [-> | Hp]; [|right; exact Hi].
      destruct (Z.eq_dec i (pieceCount t c pt)); [left; auto | right; lia]. }
    destruct Hcases as [(-> & -> & ->) | Hi'].
    + rewrite Hnew. split; assumption.
    + rewrite (Hold c' pt' i Hpt' Hi').
      destruct (Hok c' pt' i Hpt' Hi') as [Hi1 Hb1].
      assert (Hne : pieceList t c' pt' i <> s).
      { intros E. rewrite E in Hb1. unfold NO_PIECE in Hfree. congruence. }
      unfold put_piece. cbn [index board fst snd].
      rewrite !updZ_other by exact Hne. split; assumption.
  - unfold stands. rewrite Hidx, Hcount. split; [lia|exact Hnew].
Qed.

Lemma remove_piece_count (c : Color) (pt : PieceType) (s : Square) (t : Pieces)
  (c' : Color) (pt' : PieceType) :
  pt' <> ALL_PIECES ->
  pieceCount (remove_piece (c, pt) s t) c' pt'
  = if Color_eqb c' c && (pt' =? pt) then pieceCount t c' pt' - 1 else pieceCount t c' pt'.
Proof.
  intros Hpt'. unfold remove_piece. cbn [pieceCount fst snd].
  rewrite !upd2_read. apply Z.eqb_neq in Hpt'. rewrite Hpt', andb_false_r.
  destruct (Color_eqb_spec c' c) as [-> | Hc]; cbn [andb]; [|reflexivity].
  destruct (Z.eqb_spec pt' pt) as [-> | Hp]; reflexivity.
Qed.

Lemma remove_piece_index (c : Color) (pt : PieceType) (s : Square) (t : Pieces)
  (s' : Square) :
  index (remove_piece (c, pt) s t) s'
  = if s' =? pieceList t c pt (pieceCount t c pt - 1) then index t s else index t s'.
Proof.
  unfold remove_piece. cbn [index fst snd]. rewrite upd2_same. reflexivity.
Qed.

Lemma remove_piece_list (c : Color) (pt : PieceType) (s : Square) (t : Pieces)
  (c' : Color) (pt' : PieceType) (i : Z) :
  pieceList (remove_piece (c, pt) s t) c' pt' i
  = if Color_eqb c' c && (pt' =? pt) && (i =? pieceCount t c pt - 1) then SQ_NONE
    else if Color_eqb c' c && (pt' =? pt) && (i =? index t s)
         then pieceList t c pt (pieceCount t c pt - 1)
         else pieceList t c' pt' i.
Proof.
  unfold remove_piece. cbn [pieceList fst snd].
  rewrite !updList_read, !upd2_same, updZ_same. reflexivity.
Qed.

(** X18: removing a piece that stands in its list keeps the piece lists in
    step with [index] and [board]: the last square of the list takes the
    place of the removed one, and the removed square is in no list any
    more. *)
Theorem remove_piece_lists (c : Color) (pt : PieceType) (s : Square) (t : Pieces) :
  lists_ok t ->
  pt <> ALL_PIECES ->
  stands t c pt s ->
  lists_ok (remove_piece (c, pt) s t)
  /\ ~ listed (remove_piece (c, pt) s t) s
  /\ pieceCount (remove_piece (c, pt) s t) c pt = pieceCount t c pt - 1.
Proof.
  intros Hok Hpt [Hrange Hat].
  set (n := pieceCount t c pt) in *.
  set (last := pieceList t c pt (n - 1)).
  destruct (Hok c pt (n - 1) Hpt ltac:(lia)) as [Hlast_i Hlast_b]. fold last in Hlast_i, Hlast_b.
  destruct (Hok c pt (index t s) Hpt Hrange) as [_ Hs_b]. rewrite Hat in Hs_b.
  assert (Hentry : forall c' pt' i, pt' <> ALL_PIECES ->
            0 <= i < pieceCount (remove_piece (c, pt) s t) c' pt' ->
            0 <= i < pieceCount t c' pt'
            /\ ((c' = c /\ pt' = pt /\ i = index t s /\ i < n - 1
                 /\ pieceList (remove_piece (c, pt) s t) c' pt' i = last)
                \/ ((c' <> c \/ pt' <> pt \/ (i <> index t s /\ i < n - 1))
                    /\ pieceList (remove_piece (c, pt) s t) c' pt' i
                       = pieceList t c' pt' i))).
  { intros c' pt' i Hpt' Hi. rewrite remove_piece_count in Hi by exact Hpt'.
    rewrite remove_piece_list. fold n.
    destruct (Color_eqb_spec c' c) as [-> | Hc]; cbn [andb] in *; [|split; auto].
    destruct (Z.eqb_spec pt' pt) as [-> | Hp]; cbn [andb] in *; [|split; auto].
    fold n in Hi. split; [lia|].
    destruct (Z.eqb_spec i (n - 1)); [lia|].
    destruct (Z.eqb_spec i (index t s)).
    - left. repeat split; auto; lia.
    - right. split; [|reflexivity]. right. right. lia. }
  split; [|split].
  - intros c' pt' i Hpt' Hi.
    destruct (Hentry c' pt' i Hpt' Hi) as [Hi' [(-> & -> & -> & Hlt & ->) | [Hwhy ->]]].
    + rewrite remove_piece_index. fold n. fold last. rewrite Z.eqb_refl.
      split; [reflexivity|]. unfold remove_piece. cbn [board]. exact Hlast_b.
    + destruct (Hok c' pt' i Hpt' Hi') as [Hq_i Hq_b].
      rewrite remove_piece_index. fold n. fold last.
      destruct (Z.eqb_spec (pieceList t c' pt' i) last) as [E | N].
      * exfalso. rewrite E in Hq_i, Hq_b.
        assert (c' = c /\ pt' = pt) as [-> ->] by (split; congruence).
        destruct Hwhy as [H | [H | [_ H]]]; try contradiction. lia.
      * split; [exact Hq_i|]. unfold remove_piece. cbn [board]. exact Hq_b.
  - intros (c' & pt' & i & Hpt' & Hi & Hl).
    destruct (Hentry c' pt' i Hpt' Hi) as [Hi' [(-> & -> & -> & Hlt & E) | [Hwhy E]]];
      rewrite E in Hl.
    + rewrite Hl in Hlast_i. lia.
    + destruct (Hok c' pt' i Hpt' Hi') as [Hq_i Hq_b]. rewrite Hl in Hq_i, Hq_b.
      assert (c' = c /\ pt' = pt) as [-> ->] by (split; congruence).
      destruct Hwhy as [H | [H | [H _]]]; try contradiction. congruence.
  - rewrite remove_piece_count by exact Hpt.
    destruct (Color_eqb_spec c c) as [_ | Hc]; [|contradiction].
    rewrite Z.eqb_refl. reflexivity.
Qed.


(** X19: moving a piece that stands in its list to an empty square keeps the
    piece lists in step with [index] and [board]: the piece keeps its place
    in the list, with the new square. *)
Theorem move_piece_lists (c : Color) (pt : PieceType) (from to : Square) (t : Pieces) :
  lists_ok t ->
  pt <> ALL_PIECES ->
  stands t c pt from ->
  board t to = NO_PIECE ->
  lists_ok (move_piece (c, pt) from to t)
  /\ stands (move_piece (c, pt) from to t) c pt to
  /\ index (move_piece (c, pt) from to t) to = index t from
  /\ board (move_piece (c, pt) from to t) from = NO_PIECE.
Proof.
  intros Hok Hpt [Hrange Hat] Hfree.
  destruct (Hok c pt (index t from) Hpt Hrange) as [_ Hfrom_b]. rewrite Hat in Hfrom_b.
  assert (Hne : from <> to).
  { intros E. rewrite E in Hfrom_b. unfold NO_PIECE in Hfree. congruence. }
  assert (Hidx : index (move_piece (c, pt) from to t) to = index t from).
  { unfold move_piece. cbn [index]. apply updZ_same. }
  assert (Hlist : forall c' pt' i,
            pieceList (move_piece (c, pt) from to t) c' pt' i
            = if Color_eqb c' c && (pt' =? pt) && (i =? index t from) then to
              else pieceList t c' pt' i).
  { intros c' pt' i. unfold move_piece. cbn [pieceList fst snd].
    rewrite updList_read, updZ_same. reflexivity. }
  split; [|split; [|split; [exact Hidx|]]].
  - intros c' pt' i Hpt' Hi.
    change (pieceCount (move_piece (c, pt) from to t) c' pt') with (pieceCount t c' pt') in Hi.
    rewrite Hlist.
    destruct (Color_eqb c' c && (pt' =? pt) && (i =? index t from)) eqn:E.
    + apply andb_true_iff in E as [E E3]. apply andb_true_iff in E as [E1 E2].
      apply Color_eqb_eq in E1. apply Z.eqb_eq in E2, E3. subst.
      split; [exact Hidx|]. unfold move_piece. cbn [board]. apply updZ_same.
    + destruct (Hok c' pt' i Hpt' Hi) as [Hq_i Hq_b].
      assert (Hq_to : pieceList t c' pt' i <> to).
      { intros E'. rewrite E' in Hq_b. unfold NO_PIECE in Hfree. congruence. }
      assert (Hq_from : pieceList t c' pt' i <> from).
      { intros E'. rewrite E' in Hq_i, Hq_b.
        assert (c' = c /\ pt' = pt) as [-> ->] by (split; congruence).
        destruct (Color_eqb_spec c c) as [_ | Hc]; [|contradiction].
        rewrite Z.eqb_refl in E. cbn [andb] in E. apply Z.eqb_neq in E. congruence. }
      unfold move_piece. cbn [index board].
      rewrite !updZ_other by assumption. split; assumption.
  - unfold stands. rewrite Hidx.
    change (pieceCount (move_piece (c, pt) from to t) c pt) with (pieceCount t c pt).
    split; [exact Hrange|]. rewrite Hlist.
    destruct (Color_eqb_spec c c) as [_ | Hc]; [|contradiction].
    rewrite !Z.eqb_refl. reflexivity.
  - unfold move_piece. cbn [board]. rewrite updZ_other by exact Hne. apply updZ_same.
Qed.


End Lists.
End ListFacts.

Module UndoFacts.
Import Mutable.
Import MutableFacts.
Import ListFacts.

Section Undo.
Context {TH : TypesH} {BH : BitboardH}.

Lemma hand_round_trip (h : Color -> PieceType -> Z) (c : Color) (pt : PieceType)
  (c' : Color) (pt' : PieceType) :
  let h1 := upd2 h c pt (h c pt - 1) in
  let h2 := upd2 h1 c ALL_PIECES (h1 c ALL_PIECES - 1) in
  let h3 := upd2 h2 c pt (h2 c pt + 1) in
  upd2 h3 c ALL_PIECES (h3 c ALL_PIECES + 1) c' pt' = h c' pt'.
Proof.
  cbv zeta. rewrite !upd2_read.
  destruct (Color_eqb_spec c c) as [_ | Hc]; [|contradiction].
  rewrite !Z.eqb_refl. cbn [andb].
  rewrite (Z.eqb_sym ALL_PIECES pt).
  destruct (Color_eqb_spec c' c) as [-> | Hc']; cbn [andb]; [|reflexivity].
  destruct (Z.eqb_spec pt' ALL_PIECES) as [-> | N1].
  - destruct (Z.eqb_spec pt ALL_PIECES) as [-> | N2].
    + rewrite ?Z.eqb_refl. lia.
    + apply Z.eqb_neq in N2. rewrite ?(Z.eqb_sym ALL_PIECES pt), ?N2. lia.
  - destruct (Z.eqb_spec pt' pt) as [-> | N2]; [|reflexivity].
    apply Z.eqb_neq in N1. rewrite ?N1. lia.
Qed.

(** X20: removing the piece that was just put on a free square restores the
    bitboards, the counts and the piece lists, while [board] keeps the piece
    and [index] keeps its entry, both at that square only; and
    [undrop_piece] undoes [drop_piece] on an empty square: the board, the
    bitboards, the counts, the piece lists and the hands are what they
    were, and only [index] at the square of the drop keeps its entry. *)
Theorem put_and_drop_undone (pc_hand : Color * PieceType) (c : Color) (pt : PieceType)
  (s : Square) (t : Pieces) :
  bitboards_ok t ->
  pt <> ALL_PIECES ->
  Z.land (SquareBB s) (byTypeBB t ALL_PIECES) = 0 ->
  pieceList t c pt (pieceCount t c pt) = SQ_NONE ->
  (let t' := remove_piece (c, pt) s (put_piece (c, pt) s t) in
   (forall p, byTypeBB t' p = byTypeBB t p)
   /\ (forall c', byColorBB t' c' = byColorBB t c')
   /\ (forall c' pt', pieceCount t' c' pt' = pieceCount t c' pt')
   /\ (forall c' pt' i, pieceList t' c' pt' i = pieceList t c' pt' i)
   /\ (forall s', s' <> s -> index t' s' = index t s' /\ board t' s' = board t s')
   /\ board t' s = Some (c, pt)
   /\ (forall c' pt', pieceCountInHand t' c' pt' = pieceCountInHand t c' pt'))
  /\ (board t s = NO_PIECE ->
      same_but_index s t
        (undrop_piece pc_hand (c, pt) s (drop_piece pc_hand (c, pt) s t))).
Proof.
  intros Hok Hpt Hfree Hend.
  assert (Hrestored :
            let t' := remove_piece (c, pt) s (put_piece (c, pt) s t) in
            (forall p, byTypeBB t' p = byTypeBB t p)
            /\ (forall c', byColorBB t' c' = byColorBB t c')
            /\ (forall c' pt', pieceCount t' c' pt' = pieceCount t c' pt')
            /\ (forall c' pt' i, pieceList t' c' pt' i = pieceList t c' pt' i)
            /\ (forall s', s' <> s ->
                           index t' s' = index t s' /\ board t' s' = board t s')
            /\ board t' s = Some (c, pt)
            /\ (forall c' pt', pieceCountInHand t' c' pt' = pieceCountInHand t c' pt')).
  { revert Hok Hpt Hfree Hend.
    intros (Hsub & Hdis & Hcol & Hall) Hpt Hfree Hend t'.
    assert (Hcnt : pieceCount (put_piece (c, pt) s t) c pt = pieceCount t c pt + 1).
    { rewrite put_piece_count by exact Hpt.
      destruct (Color_eqb_spec c c) as [_ | Hc]; [|contradiction].
      rewrite Z.eqb_refl. reflexivity. }
    split; [|split; [|split; [|split; [|split; [|split]]]]].
    - intros p. unfold t'. rewrite remove_piece_byTypeBB, put_piece_byTypeBB by exact Hpt.
      destruct ((p =? pt) || (p =? ALL_PIECES)); [|reflexivity].
      apply Z.bits_inj'; intros k Hk. at_bit (Hsub p) k. at_bit Hfree k. by_bits.
    - intros c'. unfold t'. rewrite remove_piece_byColorBB, put_piece_byColorBB.
      destruct (Color_eqb c' c); [|reflexivity].
      apply Z.bits_inj'; intros k Hk. at_bit Hall k. at_bit Hfree k. destruct c'; by_bits.
    - intros c' pt'. unfold t', remove_piece, put_piece. cbn [pieceCount fst snd].
      rewrite !upd2_read.
      destruct (Color_eqb_spec c c) as [_ | Hc]; [|contradiction].
      rewrite !Z.eqb_refl. cbn [andb].
      apply Z.eqb_neq in Hpt as E1.
      assert (E2 : (ALL_PIECES =? pt) = false) by (apply Z.eqb_neq; congruence).
      rewrite ?E1, ?E2.
      destruct (Color_eqb_spec c' c) as [-> | Hc']; cbn [andb]; [|reflexivity].
      destruct (Z.eqb_spec pt' ALL_PIECES) as [-> | N1]; [lia|].
      destruct (Z.eqb_spec pt' pt) as [-> | N2]; lia.
    - intros c' pt' i. unfold t'. rewrite remove_piece_list, Hcnt.
      replace (pieceCount t c pt + 1 - 1) with (pieceCount t c pt) by lia.
      rewrite !put_piece_list.
      destruct (Color_eqb_spec c c) as [_ | Hc]; [|contradiction].
      rewrite !Z.eqb_refl. cbn [andb].
      destruct (Color_eqb_spec c' c) as [-> | Hc']; cbn [andb]; [|reflexivity].
      destruct (Z.eqb_spec pt' pt) as [-> | N2]; cbn [andb]; [|reflexivity].
      destruct (Z.eqb_spec i (pieceCount t c pt)) as [-> | N3]; [symmetry; exact Hend|].
      destruct (i =? index (put_piece (c, pt) s t) s) eqn:E; [|reflexivity].
      apply Z.eqb_eq in E. unfold put_piece in E. cbn [index fst snd] in E.
      rewrite updZ_same in E. contradiction.
    - intros s' Hs'. unfold t'. rewrite remove_piece_index, Hcnt.
      replace (pieceCount t c pt + 1 - 1) with (pieceCount t c pt) by lia.
      rewrite put_piece_list.
      destruct (Color_eqb_spec c c) as [_ | Hc]; [|contradiction].
      rewrite !Z.eqb_refl. cbn [andb].
      apply Z.eqb_neq in Hs' as E. rewrite E.
      unfold remove_piece, put_piece. cbn [index board fst snd].
      rewrite !updZ_other by exact Hs'. split; reflexivity.
    - unfold t', remove_piece, put_piece. cbn [board]. apply updZ_same.
    - intros c' pt'. reflexivity. }
  split; [exact Hrestored|].
  intros Hempty.
  destruct Hrestored as (HT & HC & HN & HL & HI & _ & _).
  unfold same_but_index, undrop_piece, drop_piece, add_to_hand, remove_from_hand,
    set_hand, set_board.
  cbn [board byTypeBB byColorBB pieceCount pieceList index pieceCountInHand].
  split; [|split; [|split; [|split; [|split; [|split]]]]].
  - intros s'. unfold updZ. destruct (Z.eqb_spec s' s) as [-> | N].
    + symmetry. exact Hempty.
    + unfold remove_piece, put_piece. cbn [board]. apply updZ_other. exact N.
  - exact HT.
  - exact HC.
  - exact HN.
  - exact HL.
  - intros s' N. apply (HI s' N).
  - intros c' pt'. apply hand_round_trip.
Qed.

End Undo.
End UndoFacts.

Module ViewFacts.
Import MutableFacts.
Import ListFacts.

Section View.
Context {TH : TypesH} {BH : BitboardH}.

(** Consistent bitboards give the evaluation the position it expects. *)
Lemma bitboards_ok_types_consistent (t : Mutable.Pieces) (p : Position) :
  Mutable.bitboards_ok t -> types_consistent (position_with t p).
Proof.
  intros (Hsub & Hdis & _ & _).
  unfold types_consistent, pieces, pieces_pt, position_with. cbn [byTypeBB].
  split; [apply Hsub|]. split; [apply Hsub|].
  apply Hdis; unfold QUEEN, ROOK, ALL_PIECES; lia.
Qed.

(** X21: what the evaluation sees after [put_piece] on a free square: a
    consistent position, the new square at the end of the list of the
    piece, one more piece counted, and the square added to the bitboard of
    the piece. *)
Theorem put_piece_seen_by_evaluation (c : Color) (pt : PieceType) (s : Square)
  (t : Mutable.Pieces) (p : Position) :
  Mutable.bitboards_ok t ->
  pt <> ALL_PIECES ->
  Z.land (SquareBB s) (Mutable.byTypeBB t ALL_PIECES) = 0 ->
  0 <= Mutable.pieceCount t c pt ->
  let pos := position_with t p in
  let pos' := position_with (Mutable.put_piece (c, pt) s t) p in
  types_consistent pos'
  /\ squares pos' c pt = squares pos c pt ++ [s]
  /\ count pos' c pt = count pos c pt + 1
  /\ pieces_c_pt pos' c pt = Z.lor (pieces_c_pt pos c pt) (SquareBB s)
  /\ pieces pos' = Z.lor (pieces pos) (SquareBB s).
Proof.
  intros Hok Hpt Hfree Hcnt pos pos'.
  assert (Hok' : Mutable.bitboards_ok (Mutable.put_piece (c, pt) s t)).
  { apply (bitboards_ok_add t _ c pt (SquareBB s) Hok Hpt Hfree).
    - intros q. apply put_piece_byTypeBB. exact Hpt.
    - intros c'. apply put_piece_byColorBB. }
  assert (Hn : Mutable.pieceCount (Mutable.put_piece (c, pt) s t) c pt
               = Mutable.pieceCount t c pt + 1).
  { rewrite put_piece_count by exact Hpt.
    destruct (Color_eqb_spec c c) as [_ | Hc]; [|contradiction].
    rewrite Z.eqb_refl. reflexivity. }
  split; [exact (bitboards_ok_types_consistent _ p Hok')|].
  split; [|split; [exact Hn|split]].
  - unfold squares, pos', pos, position_with. cbn [pieceList].
    rewrite Hn. replace (Z.to_nat (Mutable.pieceCount t c pt + 1))
      with (S (Z.to_nat (Mutable.pieceCount t c pt))) by lia.
    rewrite seq_S, map_app. cbn [map Nat.add]. f_equal.
    + apply map_ext_in. intros k Hk. apply in_seq in Hk.
      rewrite put_piece_list.
      destruct (Z.eqb_spec (Z.of_nat k) (Mutable.pieceCount t c pt)); [lia|].
      rewrite andb_false_r. reflexivity.
    + rewrite put_piece_list, Z2Nat.id by exact Hcnt.
      destruct (Color_eqb_spec c c) as [_ | Hc]; [|contradiction].
      rewrite !Z.eqb_refl. reflexivity.
  - unfold pieces_c_pt, pos', pos, position_with. cbn [byTypeBB byColorBB].
    rewrite put_piece_byTypeBB, put_piece_byColorBB by exact Hpt.
    destruct (Color_eqb_spec c c) as [_ | Hc]; [|contradiction].
    rewrite Z.eqb_refl. cbn [orb].
    apply Z.bits_inj'; intros k Hk. by_bits.
  - unfold pieces, pos', pos, position_with. cbn [byTypeBB].
    rewrite put_piece_byTypeBB by exact Hpt. rewrite Z.eqb_refl, orb_true_r. reflexivity.
Qed.

End View.
End ViewFacts.

(** * Threats, space and the variant bonus *)

Lemma Z_quot_nonneg (a b : Z) : 0 <= a -> 0 <= b -> 0 <= Z.quot a b.
Proof.
  intros Ha Hb. destruct (Z.eq_dec b 0) as [-> | N].
  - rewrite Zquot.Zquot_0_r. lia.
  - apply Z.quot_pos; lia.
Qed.

Lemma score_nonneg_zero : score_nonneg SCORE_ZERO.
Proof. unfold score_nonneg. cbn. lia. Qed.

Lemma score_le_refl (a : Score) : score_le a a.
Proof. unfold score_le. lia. Qed.

Lemma score_le_trans (a b c : Score) : score_le a b -> score_le b c -> score_le a c.
Proof. unfold score_le. lia. Qed.

Lemma score_le_add (a x : Score) : score_nonneg x -> score_le a (a + x)%S.
Proof. unfold score_le, score_nonneg, score_add. cbn [mg_value eg_value]. lia. Qed.

Lemma score_nonneg_mul (a : Score) (k : Z) : score_nonneg a -> 0 <= k -> score_nonneg (a * k)%S.
Proof. unfold score_nonneg, score_mul. cbn [mg_value eg_value]. nia. Qed.

Lemma score_nonneg_div (a : Score) (k : Z) : score_nonneg a -> 0 <= k -> score_nonneg (a / k)%S.
Proof.
  unfold score_nonneg, score_div. cbn [mg_value eg_value].
  intros [Hm He] Hk. split; apply Z_quot_nonneg; assumption.
Qed.

Lemma nth_score_nonneg (l : list Score) (i : Z) :
  Forall score_nonneg l -> score_nonneg (nth_score l i).
Proof.
  intros H. unfold nth_score.
  destruct (nth_in_or_default (Z.to_nat i) l SCORE_ZERO) as [Hin | ->].
  - rewrite Forall_forall in H. apply H. exact Hin.
  - exact score_nonneg_zero.
Qed.

(** A loop that only adds scores that are not negative. *)
Lemma fold_left_score_le {A : Type} (f : Score -> A -> Score) (l : list A) (s : Score) :
  (forall acc x, In x l -> score_le acc (f acc x)) -> score_le s (fold_left f l s).
Proof.
  revert s. induction l as [|x l IH]; intros s Hf; cbn [fold_left].
  - apply score_le_refl.
  - eapply score_le_trans; [apply Hf; left; reflexivity |].
    apply IH. intros acc y Hy. apply Hf. right. exact Hy.
Qed.

Lemma bb_squares_range (b : Bitboard) (s : Square) : In s (bb_squares b) -> 0 <= s < 64.
Proof.
  unfold bb_squares. intros H. apply filter_In in H as [H _].
  apply in_map_iff in H as (k & <- & Hk). apply in_seq in Hk. lia.
Qed.

Ltac nonneg_const := unfold score_nonneg; cbn; lia.

Section ThreatsFacts.
Context {TH : TypesH} {BH : BitboardH} {RH : BoardH}.
Variable pos : Position.
Variable weak_unopposed : Color -> Z.
Variable e : Evaluation.
Variable Us : Color.

Hypothesis no_must_capture : must_capture pos = false.
Hypothesis weak_unopposed_nonneg : 0 <= weak_unopposed (opp Us).
Hypothesis relative_rank_nonneg :
  forall s, 0 <= s < 64 -> 0 <= relative_rank (opp Us) (rank_of s) (max_rank pos).

Lemma threat_step_le (table : list Score) (score : Score) (s : Square) :
  Forall score_nonneg table ->
  0 <= s < 64 ->
  score_le score (Threats.threat_step pos Us table score s).
Proof.
  intros Ht Hs. unfold Threats.threat_step.
  assert (H1 : score_le score (score + nth_score table (Threats.type_on pos s))%S)
    by (apply score_le_add, nth_score_nonneg; exact Ht).
  destruct (negb (Threats.type_on pos s =? PAWN) && negb (Threats.type_on pos s =? SHOGI_PAWN)).
  - eapply score_le_trans; [exact H1|]. apply score_le_add, score_nonneg_mul.
    + nonneg_const.
    + apply relative_rank_nonneg. exact Hs.
  - exact H1.
Qed.

Lemma attacked_part_le (score : Score) :
  score_le score (Threats.attacked_part pos e Us score).
Proof.
  unfold Threats.attacked_part.
  destruct (nonzero (Z.lor (Threats.defended pos e Us) (Threats.weak pos e Us)));
    [|apply score_le_refl].
  cbv zeta.
  eapply score_le_trans; [|apply score_le_add, score_nonneg_mul;
                           [nonneg_const | apply popcount_nonneg]].
  eapply score_le_trans; [|apply score_le_add, score_nonneg_mul;
                           [nonneg_const | apply popcount_nonneg]].
  assert (Hloop : forall table b s, Forall score_nonneg table ->
            score_le s (fold_left (Threats.threat_step pos Us table) (bb_squares b) s)).
  { intros table b s Ht. apply fold_left_score_le. intros acc x Hx.
    apply threat_step_le; [exact Ht | exact (bb_squares_range b x Hx)]. }
  assert (Hloops : forall b1 b2,
            score_le score
              (fold_left (Threats.threat_step pos Us Threats.ThreatByRook) (bb_squares b2)
                 (fold_left (Threats.threat_step pos Us Threats.ThreatByMinor)
                            (bb_squares b1) score))).
  { intros b1 b2. eapply score_le_trans; apply Hloop; repeat constructor; nonneg_const. }
  match goal with
  | |- score_le _ (if ?c then _ else _) => destruct c
  end.
  - eapply score_le_trans; [apply Hloops|].
    apply score_le_add, nth_score_nonneg. repeat constructor; nonneg_const.
  - apply Hloops.
Qed.

Lemma pawn_part_le (score : Score) :
  score_le score (Threats.pawn_part pos weak_unopposed e Us score).
Proof.
  unfold Threats.pawn_part. cbv zeta.
  eapply score_le_trans; [|apply score_le_add, score_nonneg_mul;
                           [nonneg_const | apply popcount_nonneg]].
  eapply score_le_trans; [|apply score_le_add, score_nonneg_mul;
                           [nonneg_const | apply popcount_nonneg]].
  destruct (nonzero (pieces_c_pt2 pos Us ROOK QUEEN)); [|apply score_le_refl].
  apply score_le_add, score_nonneg_mul; [nonneg_const | exact weak_unopposed_nonneg].
Qed.

Lemma queen_part_le (score : Score) :
  score_le score (Threats.queen_part pos e Us score).
Proof.
  unfold Threats.queen_part.
  destruct (count pos (opp Us) QUEEN =? 1); [|apply score_le_refl].
  cbv zeta.
  eapply score_le_trans; [|apply score_le_add, score_nonneg_mul;
                           [nonneg_const | apply popcount_nonneg]].
  apply score_le_add, score_nonneg_mul; [nonneg_const | apply popcount_nonneg].
Qed.

Lemma connectivity_part_le (score : Score) :
  score_le score (Threats.connectivity_part pos e Us score).
Proof.
  unfold Threats.connectivity_part. cbv zeta.
  apply score_le_add, score_nonneg_mul.
  - apply score_nonneg_mul; [nonneg_const | apply popcount_nonneg].
  - destruct (captures_to_hand pos); cbn; lia.
Qed.

(** X10: unless captures are mandatory, [threats] only hands out bonuses: no
    half of the score it returns is negative, given that the pawn entry
    counts the weak unopposed pawns from zero and the relative rank of a
    square of the board is not negative. *)
Theorem threats_never_penalise :
  score_nonneg (Threats.threats pos weak_unopposed e Us).
Proof.
  assert (H : score_le SCORE_ZERO (Threats.threats pos weak_unopposed e Us)).
  { unfold Threats.threats.
    eapply score_le_trans; [|apply connectivity_part_le].
    eapply score_le_trans; [|apply queen_part_le].
    eapply score_le_trans; [|apply pawn_part_le].
    eapply score_le_trans; [|apply attacked_part_le].
    unfold Threats.must_capture_part. rewrite no_must_capture. apply score_le_refl. }
  destruct H as [Hm He]. split; [exact Hm | exact He].
Qed.

End ThreatsFacts.

(** ** Space *)

Lemma popcount_pos_step (p : positive) :
  popcount (Zpos p) = Z.b2z (Z.odd (Zpos p)) + popcount (Z.div2 (Zpos p)).
Proof. destruct p; cbn; lia. Qed.

Lemma land_odd (a b : Z) : Z.odd (Z.land a b) = Z.odd a && Z.odd b.
Proof. rewrite <- !Z.bit0_odd. apply Z.land_spec. Qed.

Lemma land_div2 (a b : Z) : Z.div2 (Z.land a b) = Z.land (Z.div2 a) (Z.div2 b).
Proof. rewrite !Z.div2_spec. apply Z.shiftr_land. Qed.

(** A part of a set has no more squares than the set. *)
Lemma popcount_land_le (a b : Bitboard) : 0 <= a -> popcount (Z.land a b) <= popcount a.
Proof.
  intros Ha. destruct a as [|p|p]; [rewrite Z.land_0_l; cbn; lia | | lia].
  clear Ha. revert b. induction p as [p IH | p IH |]; intros b.
  - assert (Hc : 0 <= Z.land (Zpos p~1) b) by (apply Z.land_nonneg; left; lia).
    destruct (Z.land (Zpos p~1) b) as [|q|q] eqn:E; [exact (popcount_nonneg (Zpos p~1)) | | lia].
    rewrite (popcount_pos_step q), (popcount_pos_step p~1), <- E, land_odd, land_div2.
    change (Z.div2 (Zpos p~1)) with (Zpos p). specialize (IH (Z.div2 b)).
    destruct (Z.odd (Zpos p~1)), (Z.odd b); cbn [andb Z.b2z]; lia.
  - assert (Hc : 0 <= Z.land (Zpos p~0) b) by (apply Z.land_nonneg; left; lia).
    destruct (Z.land (Zpos p~0) b) as [|q|q] eqn:E; [exact (popcount_nonneg (Zpos p~0)) | | lia].
    rewrite (popcount_pos_step q), (popcount_pos_step p~0), <- E, land_odd, land_div2.
    change (Z.div2 (Zpos p~0)) with (Zpos p). specialize (IH (Z.div2 b)).
    change (Z.odd (Zpos p~0)) with false. cbn [andb Z.b2z]. lia.
  - assert (Hc : 0 <= Z.land 1 b) by (apply Z.land_nonneg; left; lia).
    destruct (Z.land 1 b) as [|q|q] eqn:E; [cbn; lia | | lia].
    rewrite (popcount_pos_step q), <- E, land_odd, land_div2.
    change (Z.div2 1) with 0. rewrite Z.land_0_l. cbn. destruct (Z.odd b); cbn; lia.
Qed.

Lemma bb_not_nonneg (b : Bitboard) : 0 <= bb_not b.
Proof. unfold bb_not. apply Z.land_nonneg. right. unfold AllSquares. cbn. lia. Qed.

Section SpaceFacts.
Context {TH : TypesH} {BH : BitboardH} {RH : BoardH}.
Variable pos : Position.
Variable pe : PawnsEntry.
Variable e : Evaluation.
Variable Us : Color.

Lemma safe_nonneg : 0 <= Space.safe pos e Us.
Proof.
  unfold Space.safe. destruct (Space.pawnsOnly pos Us);
    apply Z.land_nonneg; right; apply bb_not_nonneg.
Qed.


End SpaceFacts.

(** ** The variant bonus *)

Section VariantFacts.
Context {TH : TypesH} {BH : BitboardH} {RH : BoardH}.
Variable pos : Position.
Variable flag : FlagRule.
Variable attackers_to : Square -> Bitboard.
Variable Us : Color.

Lemma check_part_le (score : Score) :
  score_le score (VariantTerm.check_part pos Us score).
Proof.
  unfold VariantTerm.check_part.
  destruct (negb (max_check_count pos =? 0)); [|apply score_le_refl].
  cbv zeta. apply score_le_add, score_nonneg_div; [nonneg_const | apply Z.square_nonneg].
Qed.

Lemma row_step_le (unit : Score) (next : Bitboard -> Bitboard) (acc : Score * Bitboard)
  (i : Z) :
  score_nonneg unit -> 0 <= i < connect_n pos ->
  score_le (fst acc) (fst (VariantTerm.row_step pos unit next acc i)).
Proof.
  intros Hu Hi. destruct acc as [score b]. unfold VariantTerm.row_step.
  destruct (nonzero b); cbn [fst]; [|apply score_le_refl].
  apply score_le_add, score_nonneg_div; [|lia].
  repeat apply score_nonneg_mul; try lia; [exact Hu | apply popcount_nonneg].
Qed.

Lemma row_lengths_range (i : Z) :
  In i (VariantTerm.row_lengths pos) -> 0 <= i < connect_n pos.
Proof.
  unfold VariantTerm.row_lengths. intros H.
  apply in_map_iff in H as (k & <- & Hk). apply in_seq in Hk. lia.
Qed.

Lemma rows_le (unit : Score) (next : Bitboard -> Bitboard) (l : list Z)
  (acc : Score * Bitboard) :
  score_nonneg unit -> (forall i, In i l -> 0 <= i < connect_n pos) ->
  score_le (fst acc) (fst (fold_left (VariantTerm.row_step pos unit next) l acc)).
Proof.
  intros Hu. revert acc. induction l as [|i l IH]; intros acc Hl; cbn [fold_left].
  - apply score_le_refl.
  - eapply score_le_trans; [apply (row_step_le unit next acc i Hu); apply Hl; left; reflexivity|].
    apply IH. intros j Hj. apply Hl. right. exact Hj.
Qed.

Lemma connect_part_le (score : Score) :
  score_le score (VariantTerm.connect_part pos Us score).
Proof.
  unfold VariantTerm.connect_part. destruct (0 <? connect_n pos); [|apply score_le_refl].
  apply fold_left_score_le. intros acc d _. unfold VariantTerm.direction_step.
  pose proof (rows_le (make_score 100 100) (VariantTerm.uninterrupted pos Us d)
                (VariantTerm.row_lengths pos) (acc, pieces_c pos Us)
                ltac:(nonneg_const) row_lengths_range) as H1.
  cbn [fst] in H1.
  eapply score_le_trans; [exact H1|].
  exact (rows_le (make_score 50 50) (VariantTerm.with_holes pos Us d)
           (VariantTerm.row_lengths pos) (_, pieces_c pos Us)
           ltac:(nonneg_const) row_lengths_range).
Qed.

Lemma flag_part_le (score : Score) :
  (forall a b, 0 <= distance a b) ->
  0 <= count pos Us (VariantTerm.capture_the_flag_piece flag) ->
  score_le score (VariantTerm.flag_part pos flag attackers_to Us score).
Proof.
  intros Hd Hc. unfold VariantTerm.flag_part.
  destruct (nonzero (VariantTerm.capture_the_flag flag Us)); [|apply score_le_refl].
  apply fold_left_score_le. intros acc s1 _.
  apply fold_left_score_le. intros acc' s2 _.
  apply score_le_add. unfold VariantTerm.flag_bonus. cbv zeta.
  apply score_nonneg_div; [nonneg_const|].
  set (dist := distance s1 s2 + _ + _).
  assert (Hdist : 0 <= dist).
  { unfold dist. pose proof (Hd s1 s2).
    assert (0 <= (if VariantTerm.capture_the_flag_piece flag =? KING
                  then popcount (Z.land (attackers_to s2) (pieces_c pos (opp Us))) else 0)).
    { destruct (VariantTerm.capture_the_flag_piece flag =? KING);
        [apply popcount_nonneg | lia]. }
    destruct (nonzero (Z.land (pieces_c pos Us) (SquareBB s2))); cbn [Z.b2z]; lia. }
  destruct (negb (VariantTerm.capture_the_flag_piece flag =? KING) || checking_permitted pos);
    nia.
Qed.

(** X12: [variant] only hands out bonuses, when distances and counts are not
    negative; and in a variant without a flag region for the side, without
    a limit of checks and without a row to connect it is [SCORE_ZERO]. *)
Theorem variant_never_penalises :
  (forall a b, 0 <= distance a b) ->
  0 <= count pos Us (VariantTerm.capture_the_flag_piece flag) ->
  score_nonneg (VariantTerm.variant pos flag attackers_to Us)
  /\ (VariantTerm.capture_the_flag flag Us = 0 -> max_check_count pos = 0 ->
      connect_n pos <= 0 ->
      VariantTerm.variant pos flag attackers_to Us = SCORE_ZERO).
Proof.
  intros Hd Hc. split.
  - assert (H : score_le SCORE_ZERO (VariantTerm.variant pos flag attackers_to Us)).
    { unfold VariantTerm.variant.
      eapply score_le_trans; [|apply connect_part_le].
      eapply score_le_trans; [|apply check_part_le].
      apply flag_part_le; assumption. }
    destruct H as [Hm He]. split; [exact Hm | exact He].
  - intros Hf Hm Hn.
    unfold VariantTerm.variant, VariantTerm.connect_part, VariantTerm.check_part,
      VariantTerm.flag_part.
    rewrite Hf, Hm. cbn [nonzero Z.eqb negb].
    destruct (Z.ltb_spec 0 (connect_n pos)); [lia | reflexivity].
Qed.

End VariantFacts.

(** X13: when the check limit is the only special rule, the bonus of a side
    does not decrease with the checks it has given. *)
Theorem check_bonus_grows {TH : TypesH} {BH : BitboardH} {RH : BoardH}
  (p q : Position) (flag : FlagRule) (attackers_to : Square -> Bitboard) (Us : Color) :
  var p = var q ->
  VariantTerm.capture_the_flag flag Us = 0 ->
  connect_n p <= 0 ->
  checks_given p Us <= checks_given q Us < max_check_count p ->
  score_le (VariantTerm.variant p flag attackers_to Us)
           (VariantTerm.variant q flag attackers_to Us).
Proof.
  intros Hv Hf Hn Hc.
  unfold VariantTerm.variant, VariantTerm.connect_part, VariantTerm.check_part,
    VariantTerm.flag_part, max_check_count, connect_n in *.
  rewrite <- Hv, Hf. cbn [nonzero Z.eqb negb].
  destruct (Z.ltb_spec 0 (connectN (var p))); [lia|].
  destruct (Z.eqb_spec (maxCheckCount (var p)) 0) as [E | N]; cbn [negb];
    [apply score_le_refl|].
  unfold score_le. cbn [score_add score_div mg_value eg_value SCORE_ZERO].
  set (rp := maxCheckCount (var p) - checks_given p Us).
  set (rq := maxCheckCount (var p) - checks_given q Us).
  assert (0 < rq * rq <= rp * rp) by (unfold rp, rq; nia).
  split; apply Z.add_le_mono_l; apply Z.quot_le_compat_l; lia.
Qed.

(** ** What [mobility] holds *)

Section MobilityFacts.
Context {TH : TypesH} {BH : BitboardH}.
Variable pos : Position.
Variable pe : PawnsEntry.
Variable piece_terms : Evaluation -> Color -> PieceType -> Square -> Bitboard -> Z -> Score.

Lemma pieces_step_mobility (C c : Color) (Pt : PieceType) (acc : Score * Evaluation)
  (s : Square) :
  mobility (snd (pieces_step pos piece_terms C Pt acc s)) c
  = if Color_eqb c C
    then mobility_step pos (mobilityArea (snd acc) C) C Pt (mobility (snd acc) c) s
    else mobility (snd acc) c.
Proof.
  destruct acc as [score e]. unfold pieces_step, mobility_step. cbn [snd].
  cbn [kingRing set_attacks].
  destruct (nonzero (Z.land (piece_attacks pos C Pt s) (kingRing e (opp C))));
    cbn [mobility mobilityArea set_mobility set_counters set_attacks snd];
    destruct c, C; cbn [Color_eqb]; rewrite ?upd_same; try reflexivity;
    unfold upd; cbn [Color_eqb]; reflexivity.
Qed.

Lemma pieces_fold_mobility (C c : Color) (Pt : PieceType) (l : list Square)
  (acc : Score * Evaluation) :
  mobility (snd (fold_left (pieces_step pos piece_terms C Pt) l acc)) c
  = if Color_eqb c C
    then fold_left (mobility_step pos (mobilityArea (snd acc) C) C Pt) l
                   (mobility (snd acc) c)
    else mobility (snd acc) c.
Proof.
  revert acc. induction l as [|s l IH]; intros acc; cbn [fold_left].
  - destruct (Color_eqb c C); reflexivity.
  - rewrite IH, (pieces_step_mobility C c Pt acc s).
    destruct (pieces_step_frame pos piece_terms C Pt acc s) as [-> _].
    destruct (Color_eqb c C); reflexivity.
Qed.

Lemma Evaluation_pieces_mobility (C c : Color) (Pt : PieceType) (e : Evaluation) :
  mobility (snd (Evaluation_pieces pos piece_terms C Pt e)) c
  = if Color_eqb c C
    then fold_left (mobility_step pos (mobilityArea e C) C Pt) (squares pos C Pt)
                   (mobility e c)
    else mobility e c.
Proof.
  unfold Evaluation_pieces. rewrite pieces_fold_mobility. reflexivity.
Qed.

Lemma rounds_mobility (c : Color) (l : list PieceType) (acc : (Color -> Score) * Evaluation) :
  mobility (snd (fold_left (pieces_round pos piece_terms) l acc)) c
  = fold_left (fun a pt => fold_left (mobility_step pos (mobilityArea (snd acc) c) c pt)
                                     (squares pos c pt) a)
              l (mobility (snd acc) c)
  /\ mobilityArea (snd (fold_left (pieces_round pos piece_terms) l acc))
     = mobilityArea (snd acc).
Proof.
  revert acc. induction l as [|pt l IH]; intros acc; cbn [fold_left].
  - split; reflexivity.
  - assert (Hround :
             mobility (snd (pieces_round pos piece_terms acc pt)) c
             = fold_left (mobility_step pos (mobilityArea (snd acc) c) c pt)
                         (squares pos c pt) (mobility (snd acc) c)
             /\ mobilityArea (snd (pieces_round pos piece_terms acc pt))
                = mobilityArea (snd acc)).
    { destruct acc as [t e]. unfold pieces_round. cbn [snd].
      pose proof (Evaluation_pieces_mobility WHITE c pt e) as Hw.
      destruct (Evaluation_pieces_frame pos piece_terms WHITE pt e) as [Haw _].
      destruct (Evaluation_pieces pos piece_terms WHITE pt e) as [sw e1].
      cbn [snd] in Hw, Haw.
      pose proof (Evaluation_pieces_mobility BLACK c pt e1) as Hb.
      destruct (Evaluation_pieces_frame pos piece_terms BLACK pt e1) as [Hab _].
      destruct (Evaluation_pieces pos piece_terms BLACK pt e1) as [sb e2].
      cbn [snd] in Hb, Hab |- *.
      split; [|rewrite Hab, Haw; reflexivity].
      rewrite Hb, Hw, Haw. destruct c; cbn [Color_eqb]; reflexivity. }
    destruct Hround as [Hm Ha].
    destruct (IH (pieces_round pos piece_terms acc pt)) as [IHm IHa].
    split; [|rewrite IHa; exact Ha].
    rewrite IHm, Hm, Ha. reflexivity.
Qed.

Lemma initialize_mobility (Us : Color) (e : Evaluation) :
  mobility (initialize pos pe Us e) = mobility e.
Proof.
  unfold initialize. destruct (king_safety_used pos Us);
    cbn [mobility set_counters set_kingRing set_attacks set_mobilityArea]; reflexivity.
Qed.

(** X5: without drops, [mobility[c]] in the finished tables is the sum of the
    mobility bonuses of the pieces of [c] from the knight up to the king
    excluded, each for the number of squares of the mobility area of [c]
    that the piece attacks. *)
Theorem mobility_meaning (e0 : Evaluation) (c : Color) :
  piece_drops pos = false ->
  let e := snd (evaluation_tables pos pe piece_terms e0) in
  mobility e c = mobility_sum pos (mobilityArea e c) c.
Proof.
  intros Hd e.
  destruct (tables_frame pos pe piece_terms e0) as [Ha _]. fold e in Ha. rewrite Ha.
  unfold e, evaluation_tables. rewrite Hd.
  set (e2 := initialize pos pe BLACK (initialize pos pe WHITE (Evaluation_new e0))).
  destruct (rounds_mobility c (pt_range KNIGHT KING) (fun _ => SCORE_ZERO, e2)) as [H3 _].
  destruct (fold_left (pieces_round pos piece_terms) (pt_range KNIGHT KING)
                      (fun _ => SCORE_ZERO, e2)) as [tp e3].
  cbn [snd] in H3 |- *. rewrite H3. unfold mobility_sum, e2.
  rewrite !initialize_mobility. reflexivity.
Qed.

End MobilityFacts.

(** ** What [kingAttacksCount] holds *)

Section AttacksCount.
Context {TH : TypesH} {BH : BitboardH}.
Variable pos : Position.
Variable pe : PawnsEntry.
Variable piece_terms : Evaluation -> Color -> PieceType -> Square -> Bitboard -> Z -> Score.

Hypothesis king_last : QUEEN < KING.

Lemma pieces_step_king_attacks (C c : Color) (Pt : PieceType) (acc : Score * Evaluation)
  (s : Square) :
  Pt <> KING ->
  attackedBy (snd (pieces_step pos piece_terms C Pt acc s)) c KING
  = attackedBy (snd acc) c KING.
Proof.
  intros HPt. destruct acc as [score e]. unfold pieces_step. cbn [snd].
  cbn [kingRing set_attacks].
  assert (HK : (KING =? ALL_PIECES) = false)
    by (apply Z.eqb_neq; unfold ALL_PIECES, QUEEN in *; lia).
  assert (HP : (KING =? Pt) = false) by (apply Z.eqb_neq; congruence).
  destruct (nonzero (Z.land (piece_attacks pos C Pt s) (kingRing e (opp C))));
    cbn [attackedBy set_mobility set_counters set_attacks];
    rewrite !MutableFacts.upd2_read, HK, HP, !andb_false_r; reflexivity.
Qed.

Lemma pieces_step_attacks_count (C c : Color) (Pt : PieceType) (acc : Score * Evaluation)
  (s : Square) :
  kingAttacksCount (snd (pieces_step pos piece_terms C Pt acc s)) c
  = if Color_eqb c C
    then attacks_step (kingRing (snd acc) (opp C)) (attackedBy (snd acc) (opp C) KING)
                      (kingAttacksCount (snd acc) c) (piece_attacks pos C Pt s)
    else kingAttacksCount (snd acc) c.
Proof.
  destruct acc as [score e]. unfold pieces_step, attacks_step. cbn [snd].
  cbn [kingRing set_attacks].
  destruct (nonzero (Z.land (piece_attacks pos C Pt s) (kingRing e (opp C))));
    cbn [kingAttacksCount attackedBy set_mobility set_counters set_attacks];
    rewrite ?upd2_other_color;
    destruct c, C; cbn [Color_eqb]; rewrite ?upd_same; try reflexivity;
    unfold upd; cbn [Color_eqb]; reflexivity.
Qed.

(** The state of the three members along a loop of [pieces]. *)
Lemma pieces_fold_attacks_count (C c : Color) (Pt : PieceType) (l : list Square)
  (acc : Score * Evaluation) :
  Pt <> KING ->
  kingAttacksCount (snd (fold_left (pieces_step pos piece_terms C Pt) l acc)) c
  = (if Color_eqb c C
     then fold_left (attacks_step (kingRing (snd acc) (opp C))
                                  (attackedBy (snd acc) (opp C) KING))
                    (map (piece_attacks pos C Pt) l) (kingAttacksCount (snd acc) c)
     else kingAttacksCount (snd acc) c)
  /\ (forall c', attackedBy (snd (fold_left (pieces_step pos piece_terms C Pt) l acc)) c' KING
                 = attackedBy (snd acc) c' KING).
Proof.
  intros HPt. revert acc. induction l as [|s l IH]; intros acc; cbn [fold_left map].
  - split; [destruct (Color_eqb c C); reflexivity | reflexivity].
  - destruct (IH (pieces_step pos piece_terms C Pt acc s)) as [IHc IHk].
    split.
    + rewrite IHc, (pieces_step_attacks_count C c Pt acc s).
      destruct (pieces_step_frame pos piece_terms C Pt acc s) as [_ ->].
      rewrite (pieces_step_king_attacks C (opp C) Pt acc s HPt).
      destruct (Color_eqb c C); reflexivity.
    + intros c'. rewrite IHk. apply pieces_step_king_attacks. exact HPt.
Qed.

Lemma Evaluation_pieces_attacks_count (C c : Color) (Pt : PieceType) (e : Evaluation) :
  Pt <> KING ->
  kingAttacksCount (snd (Evaluation_pieces pos piece_terms C Pt e)) c
  = (if Color_eqb c C
     then fold_left (attacks_step (kingRing e (opp C)) (attackedBy e (opp C) KING))
                    (type_attacks pos C Pt) (kingAttacksCount e c)
     else kingAttacksCount e c)
  /\ (forall c', attackedBy (snd (Evaluation_pieces pos piece_terms C Pt e)) c' KING
                 = attackedBy e c' KING).
Proof.
  intros HPt. unfold Evaluation_pieces.
  destruct (pieces_fold_attacks_count C c Pt (squares pos C Pt)
              (SCORE_ZERO, set_attacks e (upd2 (attackedBy e) C Pt 0) (attackedBy2 e)) HPt)
    as [Hc Hk].
  assert (Hz : forall c', upd2 (attackedBy e) C Pt 0 c' KING = attackedBy e c' KING).
  { intros c'. rewrite MutableFacts.upd2_read.
    assert (HP : (KING =? Pt) = false) by (apply Z.eqb_neq; congruence).
    rewrite HP, andb_false_r. reflexivity. }
  cbn [snd kingRing kingAttacksCount attackedBy set_attacks] in Hc, Hk.
  split.
  - rewrite Hc, Hz. reflexivity.
  - intros c'. rewrite Hk. apply Hz.
Qed.

Lemma rounds_attacks_count (c : Color) (l : list PieceType)
  (acc : (Color -> Score) * Evaluation) :
  (forall pt, In pt l -> pt <> KING) ->
  kingAttacksCount (snd (fold_left (pieces_round pos piece_terms) l acc)) c
  = fold_left (attacks_step (kingRing (snd acc) (opp c)) (attackedBy (snd acc) (opp c) KING))
              (flat_map (type_attacks pos c) l) (kingAttacksCount (snd acc) c)
  /\ kingRing (snd (fold_left (pieces_round pos piece_terms) l acc)) = kingRing (snd acc)
  /\ (forall c', attackedBy (snd (fold_left (pieces_round pos piece_terms) l acc)) c' KING
                 = attackedBy (snd acc) c' KING).
Proof.
  revert acc. induction l as [|pt l IH]; intros acc Hl; cbn [fold_left flat_map].
  - split; [reflexivity|]. split; reflexivity.
  - assert (HPt : pt <> KING) by (apply Hl; left; reflexivity).
    assert (Hround :
             kingAttacksCount (snd (pieces_round pos piece_terms acc pt)) c
             = fold_left (attacks_step (kingRing (snd acc) (opp c))
                                       (attackedBy (snd acc) (opp c) KING))
                         (type_attacks pos c pt) (kingAttacksCount (snd acc) c)
             /\ kingRing (snd (pieces_round pos piece_terms acc pt)) = kingRing (snd acc)
             /\ (forall c', attackedBy (snd (pieces_round pos piece_terms acc pt)) c' KING
                            = attackedBy (snd acc) c' KING)).
    { destruct acc as [t e]. unfold pieces_round. cbn [snd].
      destruct (Evaluation_pieces_attacks_count WHITE c pt e HPt) as [Hw Hkw].
      destruct (Evaluation_pieces_frame pos piece_terms WHITE pt e) as [_ Hrw].
      destruct (Evaluation_pieces pos piece_terms WHITE pt e) as [sw e1].
      cbn [snd] in Hw, Hkw, Hrw.
      destruct (Evaluation_pieces_attacks_count BLACK c pt e1 HPt) as [Hb Hkb].
      destruct (Evaluation_pieces_frame pos piece_terms BLACK pt e1) as [_ Hrb].
      destruct (Evaluation_pieces pos piece_terms BLACK pt e1) as [sb e2].
      cbn [snd] in Hb, Hkb, Hrb |- *.
      split; [|split].
      - rewrite Hb, Hw, Hrw, Hkw. destruct c; cbn [Color_eqb opp]; reflexivity.
      - rewrite Hrb, Hrw. reflexivity.
      - intros c'. rewrite Hkb, Hkw. reflexivity. }
    destruct Hround as (Hc & Hr & Hk).
    destruct (IH (pieces_round pos piece_terms acc pt)) as (IHc & IHr & IHk).
    { intros q Hq. apply Hl. right. exact Hq. }
    split; [|split].
    + rewrite IHc, Hc, Hr, Hk, fold_left_app. reflexivity.
    + rewrite IHr. exact Hr.
    + intros c'. rewrite IHk. apply Hk.
Qed.

Lemma initialize_attacks_count (c : Color) (e0 : Evaluation) :
  king_safety_used pos (opp c) = true ->
  kingAttacksCount (initialize pos pe BLACK (initialize pos pe WHITE (Evaluation_new e0))) c
  = Some 0.
Proof.
  intros Hu. destruct c; cbn [opp] in Hu.
  - destruct (initialize_counters pos pe BLACK
                (initialize pos pe WHITE (Evaluation_new e0))) as [H _].
    exact (proj2 (H Hu)).
  - destruct (initialize_counters pos pe WHITE (Evaluation_new e0)) as [H _].
    destruct (H Hu) as [_ Hw]. cbn [opp] in Hw.
    unfold initialize at 1.
    destruct (king_safety_used pos BLACK);
      cbn [kingAttacksCount set_counters set_kingRing set_attacks set_mobilityArea];
      rewrite ?(upd_opp _ BLACK); exact Hw.
Qed.

(** X4: without drops, and when king safety is evaluated for the other colour,
    [kingAttacksCount[c]] in the finished tables is the sum, over the pieces
    of [c] whose attack set meets the enemy king ring, of the number of
    squares that the piece attacks among those the enemy king attacks. *)
Theorem king_attacks_count_meaning (e0 : Evaluation) (c : Color) :
  piece_drops pos = false ->
  king_safety_used pos (opp c) = true ->
  let e := snd (evaluation_tables pos pe piece_terms e0) in
  kingAttacksCount e c
  = ring_attacks_count (kingRing e (opp c)) (attackedBy e (opp c) KING)
                       (piece_sources pos c).
Proof.
  intros Hd Hu e. unfold e, evaluation_tables. rewrite Hd.
  set (e2 := initialize pos pe BLACK (initialize pos pe WHITE (Evaluation_new e0))).
  destruct (rounds_attacks_count c (pt_range KNIGHT KING) (fun _ => SCORE_ZERO, e2))
    as (H3 & Hr & Hk).
  { intros pt Hin. apply pt_range_lower in Hin. lia. }
  destruct (fold_left (pieces_round pos piece_terms) (pt_range KNIGHT KING)
                      (fun _ => SCORE_ZERO, e2)) as [tp e3].
  cbn [snd] in H3, Hr, Hk |- *.
  rewrite H3, Hr, Hk. unfold e2 at 3. rewrite (initialize_attacks_count c e0 Hu).
  reflexivity.
Qed.

End AttacksCount.

(** * Instances of the further properties *)

(** The queen on a3 attacks b2, and nothing else of Black does. *)
Lemma attack_tables_meaning_witness :
  QUEEN < KING (TypesH := Chess.types)
  /\ Z.testbit (attackedBy MoreExamples.raid_tables BLACK ALL_PIECES) 9
     = attacked_once (attack_sources (TH := Chess.types) (BH := Chess.bitboards)
                        Examples.queen_raid Examples.queen_raid_pawns BLACK) 9
  /\ Z.testbit (attackedBy2 MoreExamples.raid_tables BLACK) 9
     = attacked_twice (attack_sources (TH := Chess.types) (BH := Chess.bitboards)
                         Examples.queen_raid Examples.queen_raid_pawns BLACK) 9.
Proof.
  split; [reflexivity|]. unfold MoreExamples.raid_tables.
  apply (attack_tables_meaning (TH := Chess.types) (BH := Chess.bitboards)
           Examples.queen_raid Examples.queen_raid_pawns Examples.no_piece_terms
           Examples.blank BLACK 9).
  reflexivity.
Defined.

(** The mobility area of White in the queen raid holds neither the king
    nor the pawns on the second rank. *)
Lemma finished_area_and_ring_witness :
  must_capture Examples.queen_raid = false
  /\ Z.land (mobilityArea MoreExamples.raid_tables WHITE)
            (Z.lor (pieces_c_pt2 Examples.queen_raid WHITE (KING (TypesH := Chess.types)) QUEEN)
                   (low_or_blocked_pawns (TH := Chess.types) (BH := Chess.bitboards)
                      Examples.queen_raid WHITE)) = 0.
Proof.
  split; [reflexivity|].
  destruct (finished_area_and_ring (TH := Chess.types) (BH := Chess.bitboards)
              Examples.queen_raid Examples.queen_raid_pawns Examples.no_piece_terms
              Examples.blank WHITE) as (_ & H & _).
  unfold MoreExamples.raid_tables. apply H. reflexivity.
Defined.

(** The queen is the one attacker of the white king ring, with weight 10. *)
Lemma king_attackers_meaning_witness :
  piece_drops Examples.queen_raid = false
  /\ king_safety_used (TH := Chess.types) Examples.queen_raid WHITE = true
  /\ kingAttackersWeight MoreExamples.raid_tables BLACK
     = Some (ring_attacker_weight (TH := Chess.types) (BH := Chess.bitboards)
               Examples.queen_raid BLACK (kingRing MoreExamples.raid_tables WHITE)).
Proof.
  split; [reflexivity|]. split; [reflexivity|].
  destruct (king_attackers_meaning (TH := Chess.types) (BH := Chess.bitboards)
              Examples.queen_raid Examples.queen_raid_pawns Examples.no_piece_terms
              Examples.blank BLACK eq_refl eq_refl) as [_ H].
  unfold MoreExamples.raid_tables. exact H.
Defined.

(** The queen on a3 meets the ring of the king on g1 and attacks none of
    the squares next to the king. *)
Lemma king_attacks_count_meaning_witness :
  kingAttacksCount MoreExamples.raid_tables BLACK
  = ring_attacks_count (kingRing MoreExamples.raid_tables WHITE)
      (attackedBy MoreExamples.raid_tables WHITE (KING (TypesH := Chess.types)))
      (piece_sources (TH := Chess.types) (BH := Chess.bitboards) Examples.queen_raid BLACK).
Proof.
  unfold MoreExamples.raid_tables.
  apply (king_attacks_count_meaning (TH := Chess.types) (BH := Chess.bitboards)
           Examples.queen_raid Examples.queen_raid_pawns Examples.no_piece_terms);
    reflexivity.
Defined.

Lemma mobility_meaning_witness :
  piece_drops Examples.queen_raid = false
  /\ mobility MoreExamples.raid_tables BLACK
     = mobility_sum (TH := Chess.types) (BH := Chess.bitboards)
         Examples.queen_raid (mobilityArea MoreExamples.raid_tables BLACK) BLACK.
Proof.
  split; [reflexivity|]. unfold MoreExamples.raid_tables.
  exact (mobility_meaning (TH := Chess.types) (BH := Chess.bitboards)
           Examples.queen_raid Examples.queen_raid_pawns Examples.no_piece_terms
           Examples.blank BLACK eq_refl).
Defined.

(** The king of the queen raid keeps S(52, 0) of a shelter of S(80, 0). *)
Lemma king_only_penalises_witness :
  king (TH := Chess.types) (BH := Chess.bitboards)
       Examples.queen_raid Examples.queen_raid_pawns MoreExamples.raid_tables WHITE
  = Some (make_score 52 0)
  /\ 52 <= mg_value (king_safety Examples.queen_raid_pawns WHITE
                       (square (TH := Chess.types) Examples.queen_raid WHITE
                               (KING (TypesH := Chess.types))))
  /\ 0 <= eg_value (king_safety Examples.queen_raid_pawns WHITE
                      (square (TH := Chess.types) Examples.queen_raid WHITE
                              (KING (TypesH := Chess.types)))).
Proof.
  assert (Hk : king (TH := Chess.types) (BH := Chess.bitboards)
                    Examples.queen_raid Examples.queen_raid_pawns MoreExamples.raid_tables WHITE
               = Some (make_score 52 0)) by (vm_compute; reflexivity).
  split; [exact Hk|].
  apply (king_only_penalises (TH := Chess.types) (BH := Chess.bitboards)
           Examples.queen_raid Examples.queen_raid_pawns MoreExamples.raid_tables WHITE
           (make_score 52 0)).
  - reflexivity.
  - discriminate.
  - reflexivity.
  - exact Hk.
Defined.

Lemma passed_nothing_to_score_witness :
  passed_pawns Examples.start_pawns WHITE = 0
  /\ passed (TH := Chess.types) (BH := Chess.bitboards)
            Examples.start_chess Examples.start_pawns Examples.blank WHITE = SCORE_ZERO.
Proof.
  split; [reflexivity|].
  apply (passed_nothing_to_score (TH := Chess.types) (BH := Chess.bitboards)).
  left. reflexivity.
Defined.


Lemma initiative_odd_and_size_witness :
  initiative_skipped (TH := Chess.types) Examples.queen_raid = false
  /\ Z.abs (100 + eg_value (initiative (TH := Chess.types) (BH := Chess.bitboards)
                              Examples.queen_raid Examples.queen_raid_pawns 100))
     = Z.abs 100
       + (if 100 =? 0 then 0
          else Z.max (initiative_complexity (TH := Chess.types) (BH := Chess.bitboards)
                        Examples.queen_raid Examples.queen_raid_pawns)
                     (- Z.abs 100)).
Proof.
  split; [reflexivity|].
  destruct (initiative_odd_and_size (TH := Chess.types) (BH := Chess.bitboards)
              Examples.queen_raid Examples.queen_raid_pawns 100) as (_ & _ & H).
  apply H. reflexivity.
Defined.

Lemma chess_relative_rank_nonneg (c : Color) (s : Square) :
  0 <= s < 64 -> 0 <= Chess.relative_rank c (Chess.rank_of s) 7.
Proof.
  intros Hs. unfold Chess.relative_rank, Chess.rank_of.
  rewrite Z.shiftr_div_pow2 by lia. change (2 ^ 3) with 8.
  assert (0 <= s / 8) by (apply Z.div_pos; lia).
  assert (s / 8 < 8) by (apply Z.div_lt_upper_bound; lia).
  destruct c; lia.
Qed.

(** White's threats in the queen raid: the queen on a3 hangs. *)
Lemma threats_never_penalise_witness :
  must_capture Examples.queen_raid = false
  /\ score_nonneg (Threats.threats (TH := Chess.types) (BH := Chess.bitboards)
                     (RH := MoreExamples.board8)
                     Examples.queen_raid MoreExamples.no_weak_pawns MoreExamples.raid_tables WHITE).
Proof.
  split; [reflexivity|].
  apply (threats_never_penalise (TH := Chess.types) (BH := Chess.bitboards)
           (RH := MoreExamples.board8)).
  - reflexivity.
  - unfold MoreExamples.no_weak_pawns. lia.
  - intros s Hs. exact (chess_relative_rank_nonneg BLACK s Hs).
Defined.


Lemma chess_distance_nonneg (a b : Square) : 0 <= Chess.distance a b.
Proof. unfold Chess.distance, Chess.distance_File, Chess.distance_Rank. lia. Qed.

(** Three-check chess after two checks by White. *)
Lemma variant_never_penalises_witness :
  score_nonneg (VariantTerm.variant (TH := Chess.types) (BH := Chess.bitboards)
                  (RH := MoreExamples.board8)
                  (MoreExamples.after_checks 2) MoreExamples.no_flag
                  MoreExamples.no_attackers WHITE).
Proof.
  apply (variant_never_penalises (TH := Chess.types) (BH := Chess.bitboards)
           (RH := MoreExamples.board8)
           (MoreExamples.after_checks 2) MoreExamples.no_flag
           MoreExamples.no_attackers WHITE).
  - exact chess_distance_nonneg.
  - apply Z.leb_le. reflexivity.
Defined.

(** The bonus is S(333, 111) before the first check and S(3000, 1000)
    after the second. *)
Lemma check_bonus_grows_witness :
  score_le (VariantTerm.variant (TH := Chess.types) (BH := Chess.bitboards)
              (RH := MoreExamples.board8)
              (MoreExamples.after_checks 0) MoreExamples.no_flag
              MoreExamples.no_attackers WHITE)
           (VariantTerm.variant (TH := Chess.types) (BH := Chess.bitboards)
              (RH := MoreExamples.board8)
              (MoreExamples.after_checks 2) MoreExamples.no_flag
              MoreExamples.no_attackers WHITE).
Proof.
  apply (check_bonus_grows (TH := Chess.types) (BH := Chess.bitboards)
           (RH := MoreExamples.board8)).
  - reflexivity.
  - reflexivity.
  - apply Z.leb_le. reflexivity.
  - split; [apply Z.leb_le | apply Z.ltb_lt]; reflexivity.
Defined.

Lemma no_pieces_bitboards_ok : Mutable.bitboards_ok MoreExamples.no_pieces.
Proof. repeat split; intros; reflexivity. Qed.

Lemma no_pieces_lists_ok : Mutable.lists_ok MoreExamples.no_pieces.
Proof. intros c pt i _ Hi. cbn in Hi. lia. Qed.

Lemma knight_e2_bitboards_ok : Mutable.bitboards_ok MoreExamples.knight_e2.
Proof.
  apply (MutableFacts.bitboards_ok_add MoreExamples.no_pieces _ WHITE KNIGHT
           (Chess.SquareBB 12) no_pieces_bitboards_ok).
  - discriminate.
  - reflexivity.
  - intros p. apply (MutableFacts.put_piece_byTypeBB (BH := Chess.bitboards)). discriminate.
  - intros c'. apply (MutableFacts.put_piece_byColorBB (BH := Chess.bitboards)).
Qed.

Lemma knight_e2_lists :
  Mutable.lists_ok MoreExamples.knight_e2
  /\ Mutable.stands MoreExamples.knight_e2 WHITE KNIGHT 12.
Proof.
  split.
  - intros c pt i Hpt Hi. unfold MoreExamples.knight_e2 in *.
    rewrite (ListFacts.put_piece_count (BH := Chess.bitboards)) in Hi by exact Hpt.
    rewrite (ListFacts.put_piece_list (BH := Chess.bitboards)).
    destruct (Color_eqb c WHITE && (pt =? KNIGHT)) eqn:E.
    + apply andb_true_iff in E as [Ec Ept].
      apply MutableFacts.Color_eqb_eq in Ec. apply Z.eqb_eq in Ept. subst c pt.
      cbn [Mutable.pieceCount MoreExamples.no_pieces] in Hi.
      assert (i = 0) as -> by lia. split; reflexivity.
    + cbn [Mutable.pieceCount MoreExamples.no_pieces] in Hi. lia.
  - split; [cbn; lia | reflexivity].
Qed.

Lemma put_piece_bitboards_witness : Mutable.bitboards_ok MoreExamples.knight_e2.
Proof.
  apply (MutableFacts.put_piece_bitboards (BH := Chess.bitboards) WHITE KNIGHT 12
           MoreExamples.no_pieces no_pieces_bitboards_ok).
  - discriminate.
  - reflexivity.
Defined.

Lemma remove_piece_bitboards_witness :
  Mutable.bitboards_ok
    (Mutable.remove_piece (TH := Chess.types) (BH := Chess.bitboards)
       (WHITE, KNIGHT) 12 MoreExamples.knight_e2).
Proof.
  apply (MutableFacts.remove_piece_bitboards (TH := Chess.types) (BH := Chess.bitboards)
           WHITE KNIGHT 12 MoreExamples.knight_e2 knight_e2_bitboards_ok).
  - discriminate.
  - reflexivity.
  - reflexivity.
Defined.

(** The knight goes from e2 to f4. *)
Lemma move_piece_bitboards_witness :
  Mutable.bitboards_ok
    (Mutable.move_piece (BH := Chess.bitboards) (WHITE, KNIGHT) 12 29 MoreExamples.knight_e2).
Proof.
  apply (MutableFacts.move_piece_bitboards (TH := Chess.types) (BH := Chess.bitboards)
           WHITE KNIGHT 12 29 MoreExamples.knight_e2 knight_e2_bitboards_ok).
  - discriminate.
  - reflexivity.
  - reflexivity.
  - reflexivity.
Defined.

Lemma put_piece_lists_witness :
  Mutable.lists_ok MoreExamples.knight_e2
  /\ Mutable.stands MoreExamples.knight_e2 WHITE KNIGHT 12.
Proof.
  destruct (ListFacts.put_piece_lists (BH := Chess.bitboards) WHITE KNIGHT 12
              MoreExamples.no_pieces no_pieces_lists_ok)
    as (H1 & H2 & _).
  - discriminate.
  - reflexivity.
  - cbn. lia.
  - split; assumption.
Defined.

Lemma remove_piece_lists_witness :
  ~ Mutable.listed
      (Mutable.remove_piece (TH := Chess.types) (BH := Chess.bitboards)
         (WHITE, KNIGHT) 12 MoreExamples.knight_e2) 12.
Proof.
  destruct (ListFacts.remove_piece_lists (TH := Chess.types) (BH := Chess.bitboards)
              WHITE KNIGHT 12 MoreExamples.knight_e2 (proj1 knight_e2_lists))
    as (_ & H & _).
  - discriminate.
  - exact (proj2 knight_e2_lists).
  - exact H.
Defined.

Lemma move_piece_lists_witness :
  Mutable.stands
    (Mutable.move_piece (BH := Chess.bitboards) (WHITE, KNIGHT) 12 29 MoreExamples.knight_e2)
    WHITE KNIGHT 29.
Proof.
  destruct (ListFacts.move_piece_lists (BH := Chess.bitboards)
              WHITE KNIGHT 12 29 MoreExamples.knight_e2 (proj1 knight_e2_lists))
    as (_ & H & _).
  - discriminate.
  - exact (proj2 knight_e2_lists).
  - reflexivity.
  - exact H.
Defined.

(** A knight in hand is dropped on e2 and taken back. *)
Lemma put_and_drop_undone_witness :
  Mutable.same_but_index 12 MoreExamples.no_pieces
    (Mutable.undrop_piece (TH := Chess.types) (BH := Chess.bitboards)
       (WHITE, KNIGHT) (WHITE, KNIGHT) 12
       (Mutable.drop_piece (BH := Chess.bitboards)
          (WHITE, KNIGHT) (WHITE, KNIGHT) 12 MoreExamples.no_pieces)).
Proof.
  apply (UndoFacts.put_and_drop_undone (TH := Chess.types) (BH := Chess.bitboards)
           (WHITE, KNIGHT) WHITE KNIGHT 12 MoreExamples.no_pieces no_pieces_bitboards_ok).
  - discriminate.
  - reflexivity.
  - reflexivity.
  - reflexivity.
Defined.

Lemma put_piece_seen_by_evaluation_witness :
  squares (position_with MoreExamples.knight_e2 Examples.start_chess) WHITE KNIGHT
  = squares (position_with MoreExamples.no_pieces Examples.start_chess) WHITE KNIGHT ++ [12].
Proof.
  destruct (ViewFacts.put_piece_seen_by_evaluation (BH := Chess.bitboards)
              WHITE KNIGHT 12 MoreExamples.no_pieces Examples.start_chess
              no_pieces_bitboards_ok)
    as (_ & H & _).
  - discriminate.
  - reflexivity.
  - cbn. lia.
  - exact H.
Defined.
